(** * whois-parser: the text preparation pass ([prepare.go])

    A shallow embedding of [Prepare] and of the twelve per-registry
    transformers it dispatches to, with the properties of the specification
    stated over it.

    Conventions of the embedding.
    - A Go [string] is a sequence of bytes, here a [string] of 8-bit
      characters.  WHOIS responses are ASCII text; the functions of Go's
      [strings] and [regexp] packages are modelled on bytes, with their ASCII
      behaviour (a byte above 127 is never white space and never a letter).
      On UTF-8 text outside ASCII, Go's [strings.TrimSpace] also trims
      Unicode white space, [strings.ToLower] also lowers other letters, and
      a pattern under the flag [(?i)] also matches the Kelvin sign and the
      long s.  A statement whose truth depends on this is made for ASCII
      text, under [ascii_text].
    - A Go [int] is a [Z]; the only arithmetic is a cursor that grows by one
      per input line, far from the 64-bit bound.
    - A run-time panic (index or slice bound out of range) is [None]; a normal
      return is [Some].
    - A [for ... range] loop over the lines of the text is [range_lines],
      which threads the loop's local variables as a record and stops at the
      first panic.  [continue] returns the state for the next line. *)

From stdpp Require Import gmap strings list fin_maps sorting.
From Stdlib Require Import Ascii ZArith.

Local Open Scope Z_scope.

(** ** Literals *)

Definition LF : ascii := ascii_of_nat 10.
Definition CR : ascii := ascii_of_nat 13.
Definition TAB : ascii := ascii_of_nat 9.
Definition VT : ascii := ascii_of_nat 11.
Definition FF : ascii := ascii_of_nat 12.
Definition SP : ascii := ascii_of_nat 32.
Definition BACKSLASH : ascii := ascii_of_nat 92.

(** [lit] reads a Go interpreted string literal: the escapes [\n], [\r],
    [\t] and [\\] stand for one byte each. *)
Fixpoint lit_go (esc : bool) (s : string) : string :=
  match s with
  | "" => if esc then String BACKSLASH "" else ""
  | String c s' =>
      if esc then
        if Ascii.eqb c "n" then String LF (lit_go false s')
        else if Ascii.eqb c "r" then String CR (lit_go false s')
        else if Ascii.eqb c "t" then String TAB (lit_go false s')
        else if Ascii.eqb c BACKSLASH then String BACKSLASH (lit_go false s')
        else String BACKSLASH (String c (lit_go false s'))
      else if Ascii.eqb c BACKSLASH then lit_go true s'
      else String c (lit_go false s')
  end.

Definition lit (s : string) : string := lit_go false s.

(** ** Go's [strings] package, on bytes *)

Module strings.

Definition len (s : string) : Z := Z.of_nat (String.length s).

(** [s[lo:]] and [s[:hi]]: a bound outside [0..len(s)] panics. *)
Fixpoint drop_bytes (n : nat) (s : string) : string :=
  match n, s with
  | O, _ => s
  | S n', String _ s' => drop_bytes n' s'
  | S _, "" => ""
  end.

Fixpoint take_bytes (n : nat) (s : string) : string :=
  match n, s with
  | O, _ => ""
  | S n', String c s' => String c (take_bytes n' s')
  | S _, "" => ""
  end.

Definition slice_from (s : string) (lo : Z) : option string :=
  if (0 <=? lo) && (lo <=? len s) then Some (drop_bytes (Z.to_nat lo) s)
  else None.

Definition slice_to (s : string) (hi : Z) : option string :=
  if (0 <=? hi) && (hi <=? len s) then Some (take_bytes (Z.to_nat hi) s)
  else None.

(** [s[i]] *)
Definition byte_at (s : string) (i : Z) : option ascii :=
  if 0 <=? i then String.get (Z.to_nat i) s else None.

Fixpoint HasPrefix (s prefix : string) {struct prefix} : bool :=
  match prefix with
  | "" => true
  | String p prefix' =>
      match s with
      | "" => false
      | String c s' => Ascii.eqb c p && HasPrefix s' prefix'
      end
  end.

Definition HasSuffix (s suffix : string) : bool :=
  HasPrefix (String.rev s) (String.rev suffix).

Fixpoint Contains (s substr : string) : bool :=
  HasPrefix s substr ||
  match s with
  | "" => false
  | String _ s' => Contains s' substr
  end.

(** The byte offset of the first occurrence, [-1] when there is none. *)
Fixpoint Index (s substr : string) : Z :=
  if HasPrefix s substr then 0
  else match s with
       | "" => -1
       | String _ s' => let i := Index s' substr in
                        if i =? -1 then -1 else i + 1
       end.

(** [Split], [SplitN] and [Replace] are only called with a non-empty
    separator; [skip] counts the bytes of a separator just recognised that
    are still to be stepped over, [n] the cuts still allowed ([None]: no
    limit). *)
Definition cuts_left (n : option nat) : bool :=
  match n with Some O => false | _ => true end.

Definition one_cut_less (n : option nat) : option nat :=
  match n with Some (S k) => Some k | _ => n end.

Definition push_byte (c : ascii) (pieces : list string) : list string :=
  match pieces with
  | p :: ps => String c p :: ps
  | [] => [String c ""]
  end.

Fixpoint split_go (sep : string) (skip : nat) (n : option nat)
    (s : string) : list string :=
  match s with
  | "" => [""]
  | String c s' =>
      match skip with
      | S k => split_go sep k n s'
      | O =>
          if cuts_left n && HasPrefix s sep
          then "" :: split_go sep (String.length sep - 1) (one_cut_less n) s'
          else push_byte c (split_go sep 0 n s')
      end
  end.

Definition Split (s sep : string) : list string := split_go sep 0 None s.

Definition SplitN (s sep : string) (n : Z) : list string :=
  if n <? 0 then Split s sep
  else if n =? 0 then []
  else split_go sep 0 (Some (Z.to_nat n - 1)%nat) s.

Fixpoint replace_go (old new : string) (skip : nat) (n : option nat)
    (s : string) : string :=
  match s with
  | "" => ""
  | String c s' =>
      match skip with
      | S k => replace_go old new k n s'
      | O =>
          if cuts_left n && HasPrefix s old
          then new +:+
               replace_go old new (String.length old - 1) (one_cut_less n) s'
          else String c (replace_go old new 0 n s')
      end
  end.

Definition Replace (s old new : string) (n : Z) : string :=
  replace_go old new 0 (if n <? 0 then None else Some (Z.to_nat n)) s.

(** [strings.TrimSpace] on ASCII text: the six white-space bytes (tab, line
    feed, vertical tab, form feed, carriage return, space) are trimmed.  Go
    trims the white space of Unicode besides; no byte of an ASCII text
    belongs to it. *)
Definition isSpace (c : ascii) : bool :=
  Ascii.eqb c TAB || Ascii.eqb c LF || Ascii.eqb c VT || Ascii.eqb c FF
  || Ascii.eqb c CR || Ascii.eqb c SP.

Fixpoint TrimLeft (s : string) : string :=
  match s with
  | "" => ""
  | String c s' => if isSpace c then TrimLeft s' else s
  end.

Fixpoint TrimRight (s : string) : string :=
  match s with
  | "" => ""
  | String c s' =>
      match TrimRight s' with
      | "" => if isSpace c then "" else String c ""
      | t => String c t
      end
  end.

Definition TrimSpace (s : string) : string := TrimRight (TrimLeft s).

(** [strings.ToLower] on ASCII text: the letters A to Z are lowered, every
    other byte is kept. *)
Definition lower (c : ascii) : ascii :=
  let n := nat_of_ascii c in
  if ((65 <=? n) && (n <=? 90))%nat then ascii_of_nat (n + 32) else c.

Fixpoint ToLower (s : string) : string :=
  match s with
  | "" => ""
  | String c s' => String (lower c) (ToLower s')
  end.

Fixpoint Join (elems : list string) (sep : string) : string :=
  match elems with
  | [] => ""
  | [x] => x
  | x :: xs => x +:+ sep +:+ Join xs sep
  end.

End strings.

(** ** Go's [regexp] package: a backtracking matcher

    Go's matcher returns, among the matches that start leftmost, the one a
    backtracking search finds first, with greedy and lazy repetition as in
    Perl.  [run] is that search, in continuation-passing style: [k] is what
    remains to be matched after [r], and the first success wins.  A compiled
    pattern is a term of [re]; its groups carry their number. *)

Module regexp.

Inductive re : Type :=
| Empty
| Class (p : ascii → bool)
| Cat (r1 r2 : re)
| Alt (r1 r2 : re)
| Star (greedy : bool) (r : re)
| Group (i : nat) (r : re).

Abbreviation captures := (gmap nat string).
Definition cont := string → captures → option (string * captures).

Definition or_else {A} (x : option A) (y : unit → option A) : option A :=
  match x with
  | Some a => Some a
  | None => y ()
  end.

(** Repetition: [body] matches one more copy, which must consume input;
    the copies are at most as many as the bytes left. *)
Fixpoint star_loop (body : string → captures → cont → option (string * captures))
    (greedy : bool) (k : cont) (fuel : nat) (s : string) (caps : captures)
    {struct fuel} : option (string * captures) :=
  let again (_ : unit) :=
    match fuel with
    | O => None
    | S fuel' =>
        body s caps (λ s' caps',
          if (String.length s' <? String.length s)%nat
          then star_loop body greedy k fuel' s' caps' else None)
    end in
  if greedy then or_else (again ()) (λ _, k s caps)
  else or_else (k s caps) again.

Fixpoint run (r : re) (s : string) (caps : captures) (k : cont)
    {struct r} : option (string * captures) :=
  match r with
  | Empty => k s caps
  | Class p =>
      match s with
      | String c s' => if p c then k s' caps else None
      | "" => None
      end
  | Cat r1 r2 => run r1 s caps (λ s' caps', run r2 s' caps' k)
  | Alt r1 r2 => or_else (run r1 s caps k) (λ _, run r2 s caps k)
  | Star greedy r1 => star_loop (run r1) greedy k (String.length s) s caps
  | Group i r1 =>
      run r1 s caps (λ s' caps',
        k s' (<[i := strings.take_bytes
                       (String.length s - String.length s') s]> caps'))
  end.

(** The pattern's building blocks. *)
Definition cat (rs : list re) : re := foldr Cat Empty rs.
Definition opt (r : re) : re := Alt r Empty.
Definition plus (r : re) : re := Cat r (Star true r).
Definition lazy_plus (r : re) : re := Cat r (Star false r).
Definition star (r : re) : re := Star true r.
Definition byte (c : ascii) : re := Class (Ascii.eqb c).
(** [(?i)c] *)
Definition byte_fold (c : ascii) : re :=
  Class (λ x, Ascii.eqb (strings.lower x) (strings.lower c)).

Fixpoint literal (s : string) : re :=
  match s with
  | "" => Empty
  | String c s' => Cat (byte c) (literal s')
  end.

Fixpoint literal_fold (s : string) : re :=
  match s with
  | "" => Empty
  | String c s' => Cat (byte_fold c) (literal_fold s')
  end.

(** [\s] is [[\t\n\f\r ]]; [.] is any byte but a newline. *)
Definition is_s (c : ascii) : bool :=
  Ascii.eqb c TAB || Ascii.eqb c LF || Ascii.eqb c FF || Ascii.eqb c CR
  || Ascii.eqb c SP.
Definition is_lower_alpha (c : ascii) : bool :=
  let n := nat_of_ascii c in ((97 <=? n) && (n <=? 122))%nat.
Definition is_digit (c : ascii) : bool :=
  let n := nat_of_ascii c in ((48 <=? n) && (n <=? 57))%nat.
Definition ws : re := Class is_s.
Definition not_ws : re := Class (λ c, negb (is_s c)).
Definition dot : re := Class (λ c, negb (Ascii.eqb c LF)).

(** The leftmost match: what precedes it, its groups ([0] is the whole
    match) and what follows it. *)
Fixpoint find (r : re) (s : string) : option (string * captures * string) :=
  match run r s ∅ (λ s' caps, Some (s', caps)) with
  | Some (s', caps) =>
      Some ("", <[O := strings.take_bytes
                         (String.length s - String.length s') s]> caps, s')
  | None =>
      match s with
      | "" => None
      | String c s' =>
          match find r s' with
          | Some (pre, caps, post) => Some (String c pre, caps, post)
          | None => None
          end
      end
  end.

Fixpoint groups (r : re) : nat :=
  match r with
  | Empty | Class _ => 0
  | Cat r1 r2 | Alt r1 r2 => groups r1 `max` groups r2
  | Star _ r1 => groups r1
  | Group i r1 => i `max` groups r1
  end.

(** [m[i]] of a match: the text of group [i], empty when the group took no
    part in the match. *)
Definition submatch (caps : captures) (i : nat) : string :=
  default "" (caps !! i).

(** [re.FindStringSubmatch(s)]: [nil] when nothing matches, else the whole
    match followed by one entry per group. *)
Definition FindStringSubmatch (r : re) (s : string) : list string :=
  match find r s with
  | Some (_, caps, _) => submatch caps <$> seq 0 (S (groups r))
  | None => []
  end.

(** A replacement template: [$n] is the text of group [n] (one digit is
    all the source uses), any other byte is itself. *)
Fixpoint Expand (template : string) (caps : captures) : string :=
  match template with
  | "" => ""
  | String c t =>
      if Ascii.eqb c "$" then
        match t with
        | String d t' =>
            if is_digit d
            then submatch caps (nat_of_ascii d - 48) +:+ Expand t' caps
            else String c (Expand t caps)
        | "" => String c ""
        end
      else String c (Expand t caps)
  end.

(** [re.ReplaceAllString(s, template)], for a pattern that matches no empty
    string: the matches are replaced from left to right, each search
    resuming where the previous match ended. *)
Fixpoint replace_all (fuel : nat) (r : re) (template : string)
    (s : string) : string :=
  match fuel with
  | O => s
  | S fuel' =>
      match find r s with
      | Some (pre, caps, post) =>
          pre +:+ Expand template caps +:+
          (if (String.length post <? String.length s)%nat
           then replace_all fuel' r template post else post)
      | None => s
      end
  end.

Definition ReplaceAllString (r : re) (s template : string) : string :=
  replace_all (String.length s) r template s.

End regexp.

(** ** The package's patterns *)

Import regexp.

(** The pattern "\n\[(.+?)\][\ ]*(.+?)?" *)
Definition dotJPReplacer : re :=
  cat [byte LF; byte "["; Group 1 (lazy_plus dot); byte "]";
       star (byte SP); opt (Group 2 (lazy_plus dot))].

(** The pattern "(?i)\[?Domain(\s+name)?\]?\s*\:?\s*([a-z0-9\-]+)\.([a-z]{2,})":
    the flag makes every letter match in either case.  The classes are
    those of the pattern on ASCII text. *)
Definition is_label_byte (c : ascii) : bool :=
  is_lower_alpha (strings.lower c) || is_digit c || Ascii.eqb c "-".
Definition is_alpha_fold (c : ascii) : bool :=
  is_lower_alpha (strings.lower c).
Definition label_byte : re := Class is_label_byte.
Definition alpha_fold : re := Class is_alpha_fold.

Definition searchDomain : re :=
  cat [opt (byte "["); literal_fold "Domain";
       opt (Group 1 (cat [plus ws; literal_fold "name"]));
       opt (byte "]"); star ws; opt (byte ":"); star ws;
       Group 2 (plus label_byte); byte ".";
       Group 3 (cat [alpha_fold; alpha_fold; star alpha_fold])].

(** The pattern "Email\:\s+([^\s]+)(\s+Hotline\:(R))?" of [prepareHK], where
    R, the third group's body, is a dot under a star *)
Definition hkContact : re :=
  cat [literal "Email:"; plus ws; Group 1 (plus not_ws);
       opt (Group 2 (cat [plus ws; literal "Hotline:"; Group 3 (star dot)]))].

(** The pattern "(N)\s+([^\s]+@[^\s]+)" of [prepareTW], where N, the first
    group's body, is a dot under a star *)
Definition twNameEmail : re :=
  cat [Group 1 (star dot); plus ws;
       Group 2 (cat [plus not_ws; byte "@"; plus not_ws])].

(** ** Slices, maps and loops *)

(** [l[i]]: out of range panics. *)
Definition index_at {A} (l : list A) (i : Z) : option A :=
  if 0 <=? i then l !! Z.to_nat i else None.

(** [l[lo:]], [l[:hi]] and [l[i] = x] on a slice. *)
Definition slice_from {A} (l : list A) (lo : Z) : option (list A) :=
  if (0 <=? lo) && (lo <=? Z.of_nat (length l)) then Some (drop (Z.to_nat lo) l)
  else None.

Definition slice_to {A} (l : list A) (hi : Z) : option (list A) :=
  if (0 <=? hi) && (hi <=? Z.of_nat (length l)) then Some (take (Z.to_nat hi) l)
  else None.

Definition assign_at {A} (l : list A) (i : Z) (x : A) : option (list A) :=
  if (0 <=? i) && (i <? Z.of_nat (length l)) then Some (<[Z.to_nat i := x]> l)
  else None.

(** [m[k]] on a map: the zero value when [k] is absent. *)
Definition map_get (m : gmap string string) (k : string) : string :=
  default "" (m !! k).
Definition map_get_list (m : gmap string (list string)) (k : string)
    : list string :=
  default [] (m !! k).
(** [_, ok := m[k]] *)
Definition has_key {V} (m : gmap string V) (k : string) : bool :=
  bool_decide (is_Some (m !! k)).

(** [assert.IsContains(list, value)] of gokit: membership in a list of
    strings. *)
Definition IsContains (l : list string) (x : string) : bool :=
  bool_decide (x ∈ l).

(** [fmt.Sprintf] with [%s] verbs only. *)
Fixpoint Sprintf (format : string) (args : list string) : string :=
  match format with
  | "" => ""
  | String c f =>
      if Ascii.eqb c "%" then
        match f, args with
        | String "s" f', a :: args' => a +:+ Sprintf f' args'
        | String "s" f', [] => "%!s(MISSING)" +:+ Sprintf f' []
        | _, _ => String c (Sprintf f args)
        end
      else String c (Sprintf f args)
  end.

(** [for _, v := range lines { body }] over the loop's variables [st]. *)
Fixpoint range_lines {S : Type} (body : S → string → option S) (st : S)
    (lines : list string) : option S :=
  match lines with
  | [] => Some st
  | v :: rest => st' ← body st v; range_lines body st' rest
  end.

Definition lines_of (text : string) : list string :=
  strings.Split text (lit "\n").

(** ** prepareEDU *)

Definition eduTokens : gmap string (list string) :=
  list_to_map
    [("Registrant:", ["Organization"; "Address"; "Address"; "Address"]);
     ("Administrative Contact:",
      ["Name"; "Organization"; "Address"; "Address"; "Address"; "Phone";
       "Email"]);
     ("Technical Contact:",
      ["Name"; "Organization"; "Address"; "Address"; "Address"; "Phone";
       "Email"])].

Record eduState : Type := EduState {
  edu_token : string;
  edu_index : Z;
  edu_result : string
}.

Definition prepareEDU_line (st : eduState) (v : string) : option eduState :=
  let v := strings.TrimSpace v in
  if decide (v = "") then Some st
  else
    let '(token, index) :=
      if strings.HasSuffix v ":" then ("", 0)
      else (edu_token st, edu_index st) in
    let result := edu_result st in
    if has_key eduTokens v then Some (EduState v index result)
    else if decide (token = "") then
      Some (EduState token index (result +:+ lit "\n" +:+ v))
    else
      name ← strings.slice_to token (strings.len token - 1);
      field ← index_at (map_get_list eduTokens token) index;
      Some (EduState token (index + 1)
              (result +:+ Sprintf (lit "\n%s %s: %s") [name; field; v])).

Definition prepareEDU (text : string) : option string :=
  edu_result <$> range_lines prepareEDU_line (EduState "" 0 "") (lines_of text).

(** ** prepareINT *)

Record intState : Type := IntState {
  int_token : string;
  int_result : string
}.

Definition prepareINT_line (st : intState) (v : string) : option intState :=
  let v := strings.TrimSpace v in
  if decide (v = "") then Some (IntState "" (int_result st))
  else
    '(token, v) ←
      (if strings.Contains v ":" then
         let vs := strings.Split v ":" in
         k ← index_at vs 0;
         let token :=
           if decide (strings.TrimSpace k = "organisation") then
             if decide (int_token st = "") then "registrant" else int_token st
           else int_token st in
         k ← index_at vs 0;
         if decide (strings.TrimSpace k = "contact") then
           role ← index_at vs 1;
           Some (strings.TrimSpace role, v)
         else if decide (token ≠ "") then
           Some (token, Sprintf "%s %s" [token; v])
         else Some (token, v)
       else Some (int_token st, v));
    Some (IntState token (int_result st +:+ lit "\n" +:+ v)).

Definition prepareINT (text : string) : option string :=
  int_result <$> range_lines prepareINT_line (IntState "" "") (lines_of text).

(** ** prepareMO *)

Definition moTokens : gmap string string :=
  list_to_map
    [("Registrant:", "Registrant");
     ("Admin Contact(s):", "Admin");
     ("Billing Contact(s):", "Billing");
     ("Technical Contact(s):", "Technical")].

(** The inner loop of [prepareMO] and [prepareTW] that puts a colon after a
    date prefix. *)
Definition colon_after_prefix (v s : string) : string :=
  if strings.HasPrefix v s then strings.Replace v s (s +:+ ":") 1 else v.

Definition datePrefixes : list string :=
  ["Record created on"; "Record expires on"].

Record moState : Type := MoState {
  mo_token : string;
  mo_result : string
}.

Definition prepareMO_line (st : moState) (v : string) : option moState :=
  let v := strings.TrimSpace v in
  if decide (v = "") then Some (MoState "" (mo_result st))
  else
    c ← strings.byte_at v 0;
    if Ascii.eqb c "-" then Some st
    else
      let v := foldl colon_after_prefix v datePrefixes in
      let '(token, v) :=
        if has_key moTokens v then (map_get moTokens v, v)
        else if decide (mo_token st ≠ "")
             then (mo_token st, Sprintf "%s %s" [mo_token st; v])
             else (mo_token st, v) in
      Some (MoState token (mo_result st +:+ lit "\n" +:+ v)).

Definition prepareMO (text : string) : option string :=
  mo_result <$> range_lines prepareMO_line (MoState "" "") (lines_of text).

(** ** prepareHK *)

Definition hkTokens : gmap string string :=
  list_to_map
    [("Registrant Contact Information:", "Registrant");
     ("Administrative Contact Information:", "Admin");
     ("Technical Contact Information:", "Technical");
     ("Name Servers Information:", "Name Servers:")].

Definition hkDateTokens : list string :=
  ["Domain Name Commencement Date"; "Expiry Date"].

Record hkState : Type := HkState {
  hk_token : string;
  hk_addressToken : bool;
  hk_result : string
}.

(** The rewriting of a "Registrar Contact Information" value [rest] into an
    e-mail and a phone line. *)
Definition hk_registrar_contact (v rest : string) : option string :=
  let m := FindStringSubmatch hkContact rest in
  if Z.of_nat (length m) =? 4 then
    m1 ← index_at m 1;
    let v := if decide (m1 ≠ "")
             then "Registrar Contact Email: " +:+ m1 +:+ lit "\n" else "" in
    m3 ← index_at m 3;
    let v := if decide (m3 ≠ "")
             then v +:+ "Registrar Contact Phone: " +:+ m3 +:+ lit "\n" else v in
    Some (strings.TrimSpace v)
  else Some v.

(** The last step of the loop body, shared by the paths that reach it. *)
Definition hk_emit (token : string) (addressToken : bool) (result : string)
    (field v : string) : hkState :=
  let '(token, v) :=
    if has_key hkTokens v then (map_get hkTokens v, v)
    else if bool_decide (token ≠ "") && negb (IsContains hkDateTokens field)
         then (token, Sprintf "%s %s" [token; v])
         else (token, v) in
  HkState token addressToken (result +:+ lit "\n" +:+ v).

Definition prepareHK_line (st : hkState) (v : string) : option hkState :=
  let v := strings.TrimSpace v in
  if decide (v = "") then Some (HkState "" (hk_addressToken st) (hk_result st))
  else if strings.Contains v ":" then
    let vs := strings.SplitN v ":" 2 in
    k ← index_at vs 0;
    let field := strings.TrimSpace k in
    '(field, v) ←
      (if strings.Contains field "(" then
         f ← index_at (strings.Split field "(") 0;
         rest ← index_at vs 1;
         Some (f, Sprintf "%s: %s" [f; rest])
       else Some (field, v));
    let addressToken := bool_decide (field = "Address") in
    v ← (if decide (field = "Registrar Contact Information") then
           rest ← index_at vs 1; hk_registrar_contact v rest
         else Some v);
    if decide (field = "Family name") then
      rest ← index_at vs 1;
      let vv := strings.TrimSpace rest in
      if bool_decide (vv ≠ "") && bool_decide (vv ≠ ".") then
        Some (HkState (hk_token st) addressToken (hk_result st +:+ " " +:+ vv))
      else Some (HkState (hk_token st) addressToken (hk_result st))
    else Some (hk_emit (hk_token st) addressToken (hk_result st) field v)
  else if hk_addressToken st then
    Some (HkState (hk_token st) true (hk_result st +:+ ", " +:+ v))
  else Some (hk_emit (hk_token st) (hk_addressToken st) (hk_result st) "" v).

Definition prepareHK (text : string) : option string :=
  let text := strings.Replace text (lit "\n\n") (lit "\n") (-1) in
  hk_result <$>
    range_lines prepareHK_line (HkState "" false "") (lines_of text).

(** ** prepareTW *)

Definition twTokens : gmap string (list string) :=
  list_to_map
    [("Registrant:",
      ["Organization"; "Name,Email"; "Phone"; "Fax"; "Address"; "Address";
       "Address"]);
     ("Administrative Contact:", ["Name,Email"; "Phone"; "Fax"]);
     ("Technical Contact:", ["Name,Email"; "Phone"; "Fax"]);
     ("Contact:", ["Name"; "Email"])].

Record twState : Type := TwState {
  tw_token : string;
  tw_index : Z;
  tw_result : string
}.

(** The branch taken for a schema field that names two fields. *)
Definition tw_name_email (tokenName indexName v result : string)
    : option string :=
  let ins := strings.Split indexName "," in
  let m := FindStringSubmatch twNameEmail v in
  if Z.of_nat (length m) =? 3 then
    i0 ← index_at ins 0;
    m1 ← index_at m 1;
    let result :=
      result +:+ Sprintf (lit "\n%s %s: %s")
                   [tokenName; i0; strings.TrimSpace m1] in
    i1 ← index_at ins 1;
    m2 ← index_at m 2;
    Some (result +:+ Sprintf (lit "\n%s %s: %s")
                       [tokenName; i1; strings.TrimSpace m2])
  else
    i0 ← index_at ins 0;
    Some (result +:+ Sprintf (lit "\n%s %s: %s")
                       [tokenName; i0; strings.TrimSpace v]).

Definition prepareTW_line (st : twState) (v : string) : option twState :=
  let v := strings.TrimSpace v in
  if decide (v = "") then Some st
  else
    let v := foldl colon_after_prefix v datePrefixes in
    let '(token, index) :=
      if strings.Contains v ":" then ("", -1)
      else (tw_token st, tw_index st) in
    let result := tw_result st in
    if has_key twTokens v then Some (TwState v index result)
    else if decide (token = "") then
      Some (TwState token index (result +:+ lit "\n" +:+ v))
    else
      let index := index + 1 in
      tokenName ← strings.slice_to token (strings.len token - 1);
      indexName ← index_at (map_get_list twTokens token) index;
      let tokenName :=
        if decide (tokenName = "Contact") then "Registrant Contact"
        else tokenName in
      if strings.Contains indexName "," then
        TwState token index <$> tw_name_email tokenName indexName v result
      else
        Some (TwState token index
                (result +:+ Sprintf (lit "\n%s %s: %s")
                              [tokenName; indexName; v])).

Definition prepareTW (text : string) : option string :=
  tw_result <$> range_lines prepareTW_line (TwState "" (-1) "") (lines_of text).

(** ** prepareCH *)

Definition chTokens : list string :=
  ["Domain name"; "Holder"; "Technical contact"; "Registrar"; "DNSSEC";
   "Name servers"; "First registration date"].

Definition chSplits : gmap string string :=
  list_to_map
    [("Holder", "Registrant organization, Registrant name, Registrant street");
     ("Technical contact",
      "Technical organization, Technical name, Technical street")].

(** The inner loop over [tokens]: the text appended for the first token that
    prefixes [v], or the comma-joined line when none does. *)
Fixpoint ch_match (v : string) (tokens : list string) : option string :=
  match tokens with
  | [] => Some (", " +:+ v)
  | t :: rest =>
      if strings.HasPrefix (strings.ToLower v +:+ " ")
           (strings.ToLower (t +:+ " "))
      then
        tail ← strings.slice_from v (strings.len t);
        Some (Sprintf (lit "\n%s: %s")
                [strings.TrimSpace t; strings.TrimSpace tail])
      else ch_match v rest
  end.

Definition prepareCH_line (result : string) (v : string) : option string :=
  let v := strings.TrimSpace v in
  if decide (v = "") then Some result
  else (λ chunk, result +:+ chunk) <$> ch_match v chTokens.

(** [for k := range vv { results = append(results, ss[k] + ": " + vv[k]) }] *)
Definition ch_zip (ss vv : list string) (results : list string)
    : option (list string) :=
  foldl (λ acc k,
           results ← acc;
           s ← ss !! k;
           x ← vv !! k;
           Some (results ++ [Sprintf "%s: %s" [s; x]]))
        (Some results) (seq 0 (length vv)).

Definition prepareCH_split (results : list string) (v : string)
    : option (list string) :=
  if negb (strings.Contains v ":") then Some results
  else
    let vs := strings.Split v ":" in
    k ← index_at vs 0;
    match chSplits !! k with
    | Some sp =>
        x ← index_at vs 1;
        let vv := strings.Split x ", " in
        let ss := strings.Split sp ", " in
        let n := Z.of_nat (length ss) in
        vv ← (if Z.of_nat (length vv) >? n then
                tail ← slice_from vv (n - 1);
                vv ← assign_at vv (n - 1) (strings.Join tail ", ");
                slice_to vv n
              else Some vv);
        ch_zip ss vv results
    | None => Some (results ++ [v])
    end.

Definition prepareCH (text : string) : option string :=
  result ← range_lines prepareCH_line "" (lines_of text);
  results ← range_lines prepareCH_split [] (lines_of result);
  let text := strings.Join results (lit "\n") in
  Some (strings.Replace text ": ," ":" (-1)).

(** ** prepareIT *)

Definition itTopTokens : list string :=
  ["Registrant"; "Admin Contact"; "Technical Contacts"; "Registrar";
   "Nameservers"].

Record itState : Type := ItState {
  it_topToken : string;
  it_subToken : string;
  it_result : string
}.

Definition it_emit (topToken v : string) : string :=
  if bool_decide (topToken ≠ "") && negb (strings.Contains v ":")
  then Sprintf (lit "\n%s: %s") [topToken; v]
  else Sprintf (lit "\n%s%s") [topToken; v].

Definition prepareIT_line (st : itState) (v : string) : option itState :=
  let v := strings.TrimSpace v in
  if decide (v = "") then Some st
  else if IsContains itTopTokens v then
    Some (ItState (v +:+ " ") "" (it_result st))
  else
    c ← strings.byte_at v 0;
    if negb (Ascii.eqb c "*") && strings.Contains v ":" then
      subToken ← index_at (strings.Split v ":") 0;
      Some (ItState (it_topToken st) subToken
              (it_result st +:+ it_emit (it_topToken st) v))
    else if decide (it_subToken st ≠ "") then
      Some (ItState (it_topToken st) (it_subToken st)
              (it_result st +:+ ", " +:+ v))
    else
      Some (ItState (it_topToken st) (it_subToken st)
              (it_result st +:+ it_emit (it_topToken st) v)).

Definition prepareIT (text : string) : option string :=
  it_result <$> range_lines prepareIT_line (ItState "" "" "") (lines_of text).

(** ** prepareFR

    [Keys], the package's helper that lists the keys of a map, is not part of
    [prepare.go]: the transformers that follow take it as a parameter. *)

(** A listing of the keys of a map, each once, in some order: what Go's
    [for k := range m] gives, in an order that the language leaves open, and
    what a helper that lists the keys returns, whatever it does with their
    order. *)
Definition enumerates_keys (Keys : gmap string string → list string) : Prop :=
  ∀ m : gmap string string, Keys m ≡ₚ (map_to_list m).*1.

(** Two such listings: the keys in the map's own order, and in the reverse of
    it. *)
Definition Keys_forward (m : gmap string string) : list string :=
  (map_to_list m).*1.
Definition Keys_backward (m : gmap string string) : list string :=
  reverse (map_to_list m).*1.

(** Modelled from the spec: the body of [Keys], which is missing from
    [prepare.go].  The spec has the search of the handle map take the first
    match, and in its FR example a handle recorded by "admin-c" gives the
    role admin.  The helper modelled here gathers the keys in the order in
    which the run time walks the map, [range] below, which Go leaves open,
    and sorts them as strings, byte by byte; "admin" then comes before
    "holder" and "tech". *)
Definition Keys_sorted (range : gmap string string → list string)
    (m : gmap string string) : list string :=
  merge_sort String.le (range m).

Definition dsToken : string := "dsl-id".
Definition hdlToken : string := "nic-hdl".
Definition regToken : string := "registrar".

Definition frTokens : gmap string string :=
  list_to_map [("holder-c", "holder"); ("admin-c", "admin"); ("tech-c", "tech")].

Record frState : Type := FrState {
  fr_token : string;
  fr_newBlock : bool;
  fr_hdls : gmap string string;
  fr_result : string
}.

(** The loop over [Keys(hdls)]: the first key whose handle is the value of
    the line, if any.  The value [vs[1]] is read once per key tried. *)
Fixpoint fr_correlate (vs : list string) (hdls : gmap string string)
    (keys : list string) : option (option string) :=
  match keys with
  | [] => Some None
  | kk :: rest =>
      x ← index_at vs 1;
      if decide (strings.TrimSpace x = map_get hdls kk) then Some (Some kk)
      else fr_correlate vs hdls rest
  end.

Section prepareFR.

Variable Keys : gmap string string → list string.

Definition prepareFR_line (st : frState) (v : string) : option frState :=
  let v := strings.TrimSpace v in
  if decide (v = "") then
    Some (FrState (fr_token st) true (fr_hdls st) (fr_result st))
  else
    let vs := strings.Split v ":" in
    k ← index_at vs 0;
    '(token, v) ←
      (if fr_newBlock st && bool_decide (strings.TrimSpace k = regToken) then
         x ← index_at vs 1;
         Some (regToken +:+ " ", Sprintf "name: %s" [strings.TrimSpace x])
       else Some (fr_token st, v));
    k ← index_at vs 0;
    hdls ←
      match frTokens !! strings.TrimSpace k with
      | Some t =>
          x ← index_at vs 1;
          Some (<[t := strings.TrimSpace x]> (fr_hdls st))
      | None => Some (fr_hdls st)
      end;
    k ← index_at vs 0;
    v ← (if bool_decide (strings.TrimSpace k = dsToken) then
           x ← index_at vs 1;
           if bool_decide (strings.TrimSpace x ≠ "")
           then Some (v +:+ lit "\nDNSSEC: signed") else Some v
         else Some v);
    k ← index_at vs 0;
    '(token, hdls) ←
      (if bool_decide (strings.TrimSpace k = hdlToken) then
         found ← fr_correlate vs hdls (Keys hdls);
         match found with
         | Some kk => Some (kk +:+ " ", delete kk hdls)
         | None => Some (token, hdls)
         end
       else Some (token, hdls));
    Some (FrState token false hdls
            (fr_result st +:+ Sprintf (lit "\n%s%s") [token; v])).

Definition prepareFR (text : string) : option string :=
  fr_result <$>
    range_lines prepareFR_line (FrState "" false ∅ "") (lines_of text).

End prepareFR.

(** ** prepareRU *)

Definition ruTokens : gmap string string :=
  list_to_map
    [("person", "Registrant Name");
     ("e-mail", "Registrant Email");
     ("org", "Registrant Organization")].

Definition prepareRU_line (result : string) (v : string) : option string :=
  let v := strings.TrimSpace v in
  if decide (v = "") then Some result
  else if negb (strings.Contains v ":") then Some result
  else
    let vs := strings.Split v ":" in
    k ← index_at vs 0;
    v ← match ruTokens !! strings.TrimSpace k with
        | Some vv => x ← index_at vs 1; Some (Sprintf "%s: %s" [vv; x])
        | None => Some v
        end;
    Some (result +:+ v +:+ lit "\n").

Definition prepareRU (text : string) : option string :=
  range_lines prepareRU_line "" (lines_of text).

(** ** prepareJP *)

Definition jpAdminToken : string := "Contact Information".
Definition jpAddressToken : string := "Postal Address".

Record jpState : Type := JpState {
  jp_token : string;
  jp_prefixToken : string;
  jp_result : string
}.

Definition prepareJP_line (st : jpState) (v : string) : option jpState :=
  let v := strings.TrimSpace v in
  if decide (v = "") then Some st
  else if strings.Contains v ":" then
    k ← index_at (strings.Split v ":") 0;
    let token := strings.TrimSpace k in
    let prefixToken :=
      if decide (token = jpAdminToken) then "admin " else jp_prefixToken st in
    Some (JpState token prefixToken
            (jp_result st +:+ lit "\n" +:+ prefixToken +:+ v))
  else if decide (jp_token st = jpAddressToken) then
    Some (JpState (jp_token st) (jp_prefixToken st)
            (jp_result st +:+ ", " +:+ v))
  else
    Some (JpState (jp_token st) (jp_prefixToken st)
            (jp_result st +:+ lit "\n" +:+ jp_prefixToken st +:+ v)).

Definition prepareJP (text : string) : option string :=
  let text := ReplaceAllString dotJPReplacer text (lit "\n$1: $2") in
  jp_result <$> range_lines prepareJP_line (JpState "" "" "") (lines_of text).

(** ** prepareUK *)

Definition ukTokens : gmap string string :=
  list_to_map [("URL", "Registrar URL")].

(** The key rewriting shared by [prepareUK] and [prepareKR]: the line is cut
    at its first colon. *)
Definition rewrite_key (tokens : gmap string string) (v : string)
    : option string :=
  if strings.Contains v ":" then
    let vs := strings.SplitN v ":" 2 in
    k ← index_at vs 0;
    match tokens !! strings.TrimSpace k with
    | Some vv => x ← index_at vs 1; Some (Sprintf "%s: %s" [vv; x])
    | None => Some v
    end
  else Some v.

Definition prepareUK_line (result : string) (v : string) : option string :=
  let v := strings.TrimSpace v in
  if decide (v = "") then Some result
  else
    v ← rewrite_key ukTokens v;
    Some (result +:+ lit "\n" +:+ v).

Definition prepareUK (text : string) : option string :=
  range_lines prepareUK_line "" (lines_of text).

(** ** prepareKR *)

Definition krEnglish : string := "# ENGLISH".

Definition krTokens : gmap string string :=
  list_to_map
    [("Administrative Contact(AC)", "Administrative Contact Name");
     ("AC E-Mail", "Administrative Contact E-Mail");
     ("AC Phone Number", "Administrative Contact Phone Number")].

Definition prepareKR_line (result : string) (v : string) : option string :=
  let v := strings.TrimSpace v in
  if decide (v = "") then Some result
  else
    c ← strings.byte_at v 0;
    if Ascii.eqb c "'" || Ascii.eqb c "-" then Some result
    else
      v ← rewrite_key krTokens v;
      Some (result +:+ lit "\n" +:+ v).

Definition prepareKR (text : string) : option string :=
  let pos := strings.Index text krEnglish in
  text ← (if decide (pos ≠ -1)
          then strings.slice_from text (pos + strings.len krEnglish)
          else Some text);
  range_lines prepareKR_line "" (lines_of text).

(** ** Prepare *)

(** The universal pre-pass: carriage returns go, tabs become spaces. *)
Definition prepass (text : string) : string :=
  let text := strings.Replace text (lit "\r") "" (-1) in
  strings.Replace text (lit "\t") " " (-1).

(** The domain's top-level label, as the [switch] reads it: [m[3]] of the
    first match, lower-cased; [None] when [len(m) > 0] fails. *)
Definition detect (text : string) : option (option string) :=
  let m := FindStringSubmatch searchDomain text in
  if Z.of_nat (length m) >? 0 then
    tld ← index_at m 3; Some (Some (strings.ToLower tld))
  else Some None.

Definition transformer : Type := string → option string.

(** The first case of a [switch] that lists the value. *)
Fixpoint switch (cases : list (list string * transformer)) (x : string)
    : option transformer :=
  match cases with
  | [] => None
  | (labels, f) :: rest =>
      if bool_decide (x ∈ labels) then Some f else switch rest x
  end.

Section Prepare.

Variable Keys : gmap string string → list string.

Definition dialects : list (list string * transformer) :=
  [(["edu"], prepareEDU);
   (["int"], prepareINT);
   (["mo"], prepareMO);
   (["hk"], prepareHK);
   (["tw"], prepareTW);
   (["ch"], prepareCH);
   (["it"], prepareIT);
   (["fr"; "re"; "tf"; "yt"; "pm"; "wf"], prepareFR Keys);
   (["ru"; "su"], prepareRU);
   (["jp"], prepareJP);
   (["uk"], prepareUK);
   (["kr"], prepareKR)].

Definition Prepare (text : string) : option string :=
  let text := prepass text in
  tld ← detect text;
  match tld with
  | Some tld =>
      match switch dialects tld with
      | Some prepare => prepare text
      | None => Some text
      end
  | None => Some text
  end.

End Prepare.

(** The labels that select a transformer. *)
Definition supported : list string :=
  ["edu"; "int"; "mo"; "hk"; "tw"; "ch"; "it"; "fr"; "re"; "tf"; "yt"; "pm";
   "wf"; "ru"; "su"; "jp"; "uk"; "kr"].

(** * Properties *)

(** ** Notions the statements use *)

(** The pre-pass as the specification words it: carriage returns stripped,
    each tab turned into a space, every other byte kept. *)
Fixpoint strip_cr_tab_to_space (s : string) : string :=
  match s with
  | "" => ""
  | String c s' =>
      if Ascii.eqb c CR then strip_cr_tab_to_space s'
      else if Ascii.eqb c TAB then String SP (strip_cr_tab_to_space s')
      else String c (strip_cr_tab_to_space s')
  end.

(** The text begins with a newline; the text ends with one. *)
Definition first_byte (s : string) : option ascii :=
  match s with
  | "" => None
  | String c _ => Some c
  end.
Definition begins_with_newline (s : string) : Prop :=
  first_byte s = Some LF.
Definition ends_with_newline (s : string) : Prop :=
  ∃ r, s = r +:+ String LF "".

(** No occurrence of the word "domain", in any letter case. *)
Definition no_domain_keyword (text : string) : Prop :=
  strings.Contains (strings.ToLower text) "domain" = false.

(** What a transformer that writes each line as a newline followed by the
    line returns: nothing, or a text that begins with a newline. *)
Definition newline_led (s : string) : Prop :=
  s = "" ∨ begins_with_newline s.

(** What [prepareHK] returns: as above, or a text that begins with the space
    written before an appended family name. *)
Definition newline_or_space_led (s : string) : Prop :=
  s = "" ∨ first_byte s = Some LF ∨ first_byte s = Some SP.

(** The transformers that write every line as a newline followed by the
    line. *)
Definition newline_first (Keys : gmap string string → list string)
    : list transformer :=
  [prepareEDU; prepareINT; prepareMO; prepareTW; prepareIT; prepareFR Keys;
   prepareJP; prepareUK; prepareKR].

(** Every byte of the text satisfies [p]. *)
Fixpoint all_bytes (p : ascii → bool) (s : string) : bool :=
  match s with
  | "" => true
  | String c s' => p c && all_bytes p s'
  end.

(** A byte below 128; a text, and the lines of a text, of such bytes only. *)
Definition is_ascii (c : ascii) : bool :=
  match c with
  | Ascii _ _ _ _ _ _ _ b7 => negb b7
  end.
Definition ascii_text (s : string) : Prop := all_bytes is_ascii s = true.
Definition ascii_lines (ls : list string) : Prop :=
  forallb (all_bytes is_ascii) ls = true.

(** A line that [searchDomain] matches, laid out in its parts: an optional
    opening bracket, the word "Domain" in any letter case, optionally white
    space and the word "name", an optional closing bracket, white space, an
    optional colon, white space, the label, a dot and the top-level label.
    [dl_text d rest] is the line followed by the rest of the response. *)
Record domainLine : Type := DomainLine {
  dl_open : string;
  dl_word : string;
  dl_sp : string;
  dl_name : string;
  dl_close : string;
  dl_gap : string;
  dl_colon : string;
  dl_gap' : string;
  dl_label : string;
  dl_tld : string
}.

Definition dl_tail (d : domainLine) (rest : string) : string :=
  dl_close d +:+ dl_gap d +:+ dl_colon d +:+ dl_gap' d +:+
  dl_label d +:+ "." +:+ dl_tld d +:+ rest.

Definition dl_text (d : domainLine) (rest : string) : string :=
  dl_open d +:+ dl_word d +:+ dl_sp d +:+ dl_name d +:+ dl_tail d rest.

(** The pattern [r], run on [s], consumes the text up to [rest] on the
    search's first try and updates the groups by [f], whatever is matched
    next, provided that does match. *)
Definition takes (r : re) (s rest : string) (f : captures → captures) : Prop :=
  ∀ caps k, is_Some (k rest (f caps)) → run r s caps k = k rest (f caps).

(** The next byte does not satisfy [p]. *)
Definition stops (p : ascii → bool) (rest : string) : Prop :=
  match first_byte rest with
  | Some c => p c = false
  | None => True
  end.

(** The parts are what the pattern asks for: the label is made of letters,
    digits and hyphens, the top-level label of two letters or more, and what
    follows it does not go on with a letter.  White space that no colon
    follows is counted with the first run. *)
Definition dl_wf (d : domainLine) (rest : string) : Prop :=
  (dl_open d = "" ∨ dl_open d = "[")
  ∧ strings.ToLower (dl_word d) = "domain"
  ∧ ((dl_sp d = "" ∧ dl_name d = "")
     ∨ (dl_sp d ≠ "" ∧ all_bytes is_s (dl_sp d) = true
        ∧ strings.ToLower (dl_name d) = "name"))
  ∧ (dl_close d = "" ∨ dl_close d = "]")
  ∧ all_bytes is_s (dl_gap d) = true
  ∧ (dl_colon d = ":" ∨ (dl_colon d = "" ∧ dl_gap' d = ""))
  ∧ all_bytes is_s (dl_gap' d) = true
  ∧ dl_label d ≠ "" ∧ all_bytes is_label_byte (dl_label d) = true
  ∧ (2 ≤ String.length (dl_tld d))%nat
  ∧ all_bytes is_alpha_fold (dl_tld d) = true
  ∧ stops is_alpha_fold rest.

(** The two halves of [searchDomain] after the word "Domain": the group of
    the word "name", and what follows it. *)
Definition nameGroup : re := Group 1 (cat [plus ws; literal_fold "name"]).
Definition domainTail : re :=
  cat [opt (byte "]"); star ws; opt (byte ":"); star ws;
       Group 2 (plus label_byte); byte ".";
       Group 3 (cat [alpha_fold; alpha_fold; star alpha_fold])].

(** The last byte of a text. *)
Fixpoint last_byte (s : string) : option ascii :=
  match s with
  | "" => None
  | String c "" => Some c
  | String _ s' => last_byte s'
  end.

(** ** Notions for the FR transformer *)

(** The key and the value of a line: the trimmed text before its first colon
    and between its first and second colon; a line without a colon has no
    value. *)
Definition fr_fields (v : string) : list string :=
  strings.Split (strings.TrimSpace v) ":".
Definition fr_key (v : string) : option string :=
  strings.TrimSpace <$> index_at (fr_fields v) 0.
Definition fr_value (v : string) : option string :=
  strings.TrimSpace <$> index_at (fr_fields v) 1.




Definition frLabels : list string := ["fr"; "re"; "tf"; "yt"; "pm"; "wf"].

(** A line that is no registrar and no "nic-hdl" line, so that it leaves the
    pending prefix as it is, and that has a value where the loop reads one
    (after a role key and after "dsl-id"). *)
Definition fr_quiet (v : string) : bool :=
  bool_decide (strings.TrimSpace v = "")
  || match fr_key v with
     | Some k =>
         bool_decide (k ≠ regToken) && bool_decide (k ≠ hdlToken)
         && (bool_decide (k ∉ ["holder-c"; "admin-c"; "tech-c"; dsToken])
             || bool_decide (is_Some (fr_value v)))
     | None => false
     end.


(** What the loop writes for a quiet line under the prefix [token]: nothing
    for a blank line, else the prefixed line, followed by the DNSSEC line
    after a "dsl-id" that has a value. *)
Definition fr_written (token v : string) : string :=
  if decide (strings.TrimSpace v = "") then ""
  else
    lit "\n" +:+ token +:+ strings.TrimSpace v +:+
    (if bool_decide (fr_key v = Some dsToken)
        && bool_decide (fr_value v ≠ Some "")
     then lit "\nDNSSEC: signed" else "").

Definition fr_written_all (token : string) (lines : list string) : string :=
  foldr (λ v acc, fr_written token v +:+ acc) "" lines.

(** ** Notions for the further properties *)

(** The byte [c] occurs in [s]. *)
Fixpoint has_byte (c : ascii) (s : string) : bool :=
  match s with
  | "" => false
  | String a s' => Ascii.eqb a c || has_byte c s'
  end.

(** The lines of a response as every transformer first sees them: trimmed,
    the blank ones left out. *)
Definition trimmed_lines (text : string) : list string :=
  filter (λ v, v ≠ "") (strings.TrimSpace <$> lines_of text).

(** A text made of lines, each one preceded by a newline; each one followed
    by a newline. *)
Definition newline_before (ls : list string) : string :=
  foldr (λ l acc, lit "\n" +:+ l +:+ acc) "" ls.
Definition newline_after (ls : list string) : string :=
  foldr (λ l acc, l +:+ lit "\n" +:+ acc) "" ls.

(** A line of a TW response after the colon is put behind a date prefix. *)
Definition date_colon (v : string) : string :=
  foldl colon_after_prefix v datePrefixes.

(** Lines joined to what precedes them by a comma and a space. *)
Definition comma_joined (ls : list string) : string :=
  foldr (λ l acc, ", " +:+ l +:+ acc) "" ls.

(** The field name of a line of an HK response: the trimmed text before its
    first colon. *)
Definition hk_field (v : string) : option string :=
  if strings.Contains (strings.TrimSpace v) ":"
  then strings.TrimSpace
         <$> index_at (strings.SplitN (strings.TrimSpace v) ":" 2) 0
  else None.

(** The key of a trimmed line of an INT response, when it has a colon, and
    what the loop writes for the line under the role [role]. *)
Definition int_key (v : string) : option string :=
  if strings.Contains v ":"
  then strings.TrimSpace <$> index_at (strings.Split v ":") 0
  else None.
Definition int_written (role v : string) : string :=
  lit "\n" +:+ (if strings.Contains v ":" then role +:+ " " +:+ v else v).
Definition int_written_all (role : string) (ls : list string) : string :=
  foldr (λ l acc, int_written role l +:+ acc) "" ls.

(** The key of a trimmed line as [prepareUK] and [prepareKR] read it: the
    trimmed text before the first colon. *)
Definition first_colon_key (v : string) : option string :=
  if strings.Contains v ":"
  then strings.TrimSpace <$> index_at (strings.SplitN v ":" 2) 0
  else None.

(** How [prepareUK] turns a trimmed line into a line of its output: a line
    whose key is "URL" gets the key "Registrar URL" before what followed its
    first colon, any other line stays as it is. *)
Definition uk_rewritten (v w : string) : Prop :=
  (first_colon_key v ≠ Some "URL" ∧ w = v)
  ∨ (first_colon_key v = Some "URL"
     ∧ ∃ x, index_at (strings.SplitN v ":" 2) 1 = Some x
            ∧ w = "Registrar URL: " +:+ x).

(** The section token of [prepareMO] is empty or one of the four names. *)
Definition mo_token_ok (token : string) : Prop :=
  token = "" ∨ (first_byte token ≠ Some "-"%char ∧ token ≠ ""
                ∧ has_byte LF token = false).

(** The lines of a section of an EDU response as they are written: the name
    of the section, the field of the schema at the line's place, a colon and
    the line. *)
Definition edu_labelled (name : string) (fields lines : list string)
    : list string :=
  zip_with (λ f l, name +:+ " " +:+ f +:+ ": " +:+ l) fields lines.

(** A line that [prepareIT] takes as the continuation of a field: not a
    section name, and with no colon or with a leading asterisk. *)
Definition it_continuation (v : string) : bool :=
  negb (IsContains itTopTokens v)
  && (bool_decide (first_byte v = Some "*"%char)
      || negb (strings.Contains v ":")).

(** How [prepareRU] turns a trimmed line that has a colon into a line of its
    output: a line whose key is in the table gets the new key, a colon and a
    space before what stood between its first and its second colon; any
    other line stays as it is.  [ru_kept] is the lines that are kept. *)
Definition ru_line (v : string) : string :=
  match index_at (strings.Split v ":") 0 with
  | Some k =>
      match ruTokens !! strings.TrimSpace k, index_at (strings.Split v ":") 1 with
      | Some vv, Some x => vv +:+ ": " +:+ x
      | _, _ => v
      end
  | None => v
  end.
Definition ru_kept (text : string) : list string :=
  filter (λ v, strings.Contains v ":" = true) (trimmed_lines text).

(** ** Checks of the embedding on sample responses *)

Example split_lines :
  strings.Split (lit "a\n\nb\n") (lit "\n") = ["a"; ""; "b"; ""].
Proof. reflexivity. Qed.

Example split_comma_space :
  strings.Split " , Acme AG, Jane Doe" ", " = [" "; "Acme AG"; "Jane Doe"].
Proof. reflexivity. Qed.

Example splitn_first_colon :
  strings.SplitN "URL: http://x" ":" 2 = ["URL"; " http://x"].
Proof. reflexivity. Qed.

Example replace_first_only :
  strings.Replace "aXbXc" "X" "--" 1 = "a--bXc".
Proof. reflexivity. Qed.

Example trim_both_ends :
  strings.TrimSpace (lit " \t a b \n") = "a b".
Proof. reflexivity. Qed.

Example searchDomain_plain :
  FindStringSubmatch searchDomain (lit "Domain Name: EXAMPLE.EDU\nRegistrant:")
  = ["Domain Name: EXAMPLE.EDU"; " Name"; "EXAMPLE"; "EDU"].
Proof. vm_compute. reflexivity. Qed.

Example searchDomain_needs_keyword :
  FindStringSubmatch searchDomain (lit "example.edu\nRegistrant:") = [].
Proof. vm_compute. reflexivity. Qed.

Example searchDomain_bracket :
  FindStringSubmatch searchDomain (lit "a\n[Domain Name]   EXAMPLE.JP\n")
  = ["[Domain Name]   EXAMPLE.JP"; " Name"; "EXAMPLE"; "JP"].
Proof. vm_compute. reflexivity. Qed.

Example searchDomain_over_lines :
  FindStringSubmatch searchDomain (lit "Domain name\nexample.ch\n")
  = [lit "Domain name\nexample.ch"; " name"; "example"; "ch"].
Proof. vm_compute. reflexivity. Qed.

Example hkContact_both :
  FindStringSubmatch hkContact " Email: a@b.hk Hotline: +852 1234"
  = ["Email: a@b.hk Hotline: +852 1234"; "a@b.hk"; " Hotline: +852 1234";
     " +852 1234"].
Proof. vm_compute. reflexivity. Qed.

Example hkContact_email_only :
  FindStringSubmatch hkContact " Email: a@b.hk" = ["Email: a@b.hk"; "a@b.hk"; ""; ""].
Proof. vm_compute. reflexivity. Qed.

Example twNameEmail_split :
  FindStringSubmatch twNameEmail "Wang  Ming   wm@example.tw"
  = ["Wang  Ming   wm@example.tw"; "Wang  Ming  "; "wm@example.tw"].
Proof. vm_compute. reflexivity. Qed.

Example dotJP_rewrite :
  ReplaceAllString dotJPReplacer (lit "x\n[Domain Name]   EXAMPLE.JP\n[Name]\n[a]b")
    (lit "\n$1: $2")
  = lit "x\nDomain Name: EXAMPLE.JP\nName: \na: b".
Proof. vm_compute. reflexivity. Qed.

Example prepareEDU_registrant :
  prepareEDU (lit "Registrant:\nExample University\n123 Main St\n")
  = Some (lit "\nRegistrant Organization: Example University\nRegistrant Address: 123 Main St").
Proof. vm_compute. reflexivity. Qed.

Example prepareEDU_overrun :
  prepareEDU (lit "Registrant:\na\nb\nc\nd\ne\n") = None.
Proof. vm_compute. reflexivity. Qed.

Example prepareHK_family_name_first :
  prepareHK (lit "Family name: Chan\nDomain Name: EXAMPLE.HK\n")
  = Some (lit " Chan\nDomain Name: EXAMPLE.HK").
Proof. vm_compute. reflexivity. Qed.

Example prepareHK_contact :
  prepareHK (lit "Registrar Contact Information: Email: a@b.hk Hotline: +852 1234\n\nRegistrant Contact Information:\nGiven name: Tai Man\nFamily name: Chan\nAddress: 1 Road\nKowloon\nExpiry Date: 01-01-2030\nFamily name: .\n")
  = Some (lit "\nRegistrar Contact Email: a@b.hk\nRegistrar Contact Phone:  +852 1234\nRegistrant Contact Information:\nRegistrant Given name: Tai Man Chan\nRegistrant Address: 1 Road, Kowloon\nExpiry Date: 01-01-2030").
Proof. vm_compute. reflexivity. Qed.

Example prepareTW_registrant :
  prepareTW (lit "Registrant:\n  Example Co.\n  Wang Ming  wm@example.tw\n  +886.2\nRecord created on 2001-01-01\n")
  = Some (lit "\nRegistrant Organization: Example Co.\nRegistrant Name: Wang Ming\nRegistrant Email: wm@example.tw\nRegistrant Phone: +886.2\nRecord created on: 2001-01-01").
Proof. vm_compute. reflexivity. Qed.

Example prepareTW_overrun :
  prepareTW (lit "Contact:\na\nb\nc\n") = None.
Proof. vm_compute. reflexivity. Qed.

Example prepareCH_holder :
  prepareCH (lit "Holder\nAcme AG, Jane Doe, Main Street 1")
  = Some (lit "Registrant organization:  \nRegistrant name: Acme AG\nRegistrant street: Jane Doe, Main Street 1").
Proof. vm_compute. reflexivity. Qed.

Example prepareCH_domain :
  prepareCH (lit "Domain name\nexample.ch\n\nRegistrar\nExample Registrar AG\n")
  = Some (lit "Domain name: example.ch\nRegistrar: Example Registrar AG").
Proof. vm_compute. reflexivity. Qed.

Example prepareIT_registrant :
  prepareIT (lit "Domain: example.it\nRegistrant\n  Organization: Example\n  Address: Via Roma 1\n  Milano\nNameservers\n  ns1.example.it\n")
  = Some (lit "\nDomain: example.it\nRegistrant Organization: Example\nRegistrant Address: Via Roma 1, Milano\nNameservers : ns1.example.it").
Proof. vm_compute. reflexivity. Qed.

Example prepareFR_admin :
  prepareFR Keys_forward (lit "domain: example.fr\nadmin-c: AB1-FRNIC\ndsl-id: 1\n\nregistrar: Example SARL\naddress: Paris\n\nnic-hdl: AB1-FRNIC\ncontact: Alice\n")
  = Some (lit "\ndomain: example.fr\nadmin-c: AB1-FRNIC\ndsl-id: 1\nDNSSEC: signed\nregistrar name: Example SARL\nregistrar address: Paris\nadmin nic-hdl: AB1-FRNIC\nadmin contact: Alice").
Proof. vm_compute. reflexivity. Qed.

Example prepareFR_no_colon :
  prepareFR Keys_forward (lit "domain: example.fr\n\nregistrar\n") = None.
Proof. vm_compute. reflexivity. Qed.

Example prepareJP_contact :
  prepareJP (lit "Domain Information:\n[Domain Name]   EXAMPLE.JP\n[Postal Address] Tokyo\n   Chiyoda\n\nContact Information:\n[Name]  Taro\n")
  = Some (lit "\nDomain Information:\nDomain Name: EXAMPLE.JP\nPostal Address: Tokyo, Chiyoda\nadmin Contact Information:\nadmin Name: Taro").
Proof. vm_compute. reflexivity. Qed.

Example prepareRU_person :
  prepareRU (lit "person: John Smith\ne-mail: j@example.com\n")
  = Some (lit "Registrant Name:  John Smith\nRegistrant Email:  j@example.com\n").
Proof. vm_compute. reflexivity. Qed.

Example prepareUK_url :
  prepareUK (lit "URL: http://example.co.uk\n")
  = Some (lit "\nRegistrar URL:  http://example.co.uk").
Proof. vm_compute. reflexivity. Qed.

Example prepareKR_english :
  prepareKR (lit "preamble\n# ENGLISH\n\nDomain Name : example.kr\n'note\nAC E-Mail : a@b.kr\n")
  = Some (lit "\nDomain Name : example.kr\nAdministrative Contact E-Mail:  a@b.kr").
Proof. vm_compute. reflexivity. Qed.

Example Prepare_edu :
  Prepare Keys_forward (lit "Domain Name: EXAMPLE.EDU\r\n\r\nRegistrant:\r\n\tExample University\r\n\t123 Main St\r\n")
  = Some (lit "\nDomain Name: EXAMPLE.EDU\nRegistrant Organization: Example University\nRegistrant Address: 123 Main St").
Proof. vm_compute. reflexivity. Qed.

Example Prepare_com :
  Prepare Keys_forward (lit "Domain Name: EXAMPLE.COM\r\n\tRegistrar: X\r\n")
  = Some (lit "Domain Name: EXAMPLE.COM\n Registrar: X\n").
Proof. vm_compute. reflexivity. Qed.

(** ** Strings *)

Lemma app_nil_l (s : string) : "" +:+ s = s.
Proof. reflexivity. Qed.

Lemma app_cons (c : ascii) (s t : string) :
  String c s +:+ t = String c (s +:+ t).
Proof. reflexivity. Qed.

Lemma app_nil_r (s : string) : s +:+ "" = s.
Proof. induction s as [|c s IH]; [done|]. by rewrite app_cons, IH. Qed.

Lemma app_assoc (s t u : string) : (s +:+ t) +:+ u = s +:+ t +:+ u.
Proof. induction s as [|c s IH]; [done|]. by rewrite !app_cons, IH. Qed.

Lemma replace_byte_cons (a : ascii) (new : string) (c : ascii) (s : string) :
  strings.replace_go (String a "") new 0 None (String c s)
  = if Ascii.eqb c a
    then new +:+ strings.replace_go (String a "") new 0 None s
    else String c (strings.replace_go (String a "") new 0 None s).
Proof. simpl. rewrite andb_true_r. reflexivity. Qed.

(** The two [strings.Replace] calls of [Prepare] do what the specification
    says of the pre-pass. *)
Lemma prepass_spec (text : string) : prepass text = strip_cr_tab_to_space text.
Proof.
  unfold prepass, strings.Replace.
  change (-1 <? 0) with true. cbv iota.
  change (lit "\r") with (String CR ""). change (lit "\t") with (String TAB "").
  induction text as [|c s IH]; [done|].
  rewrite replace_byte_cons. cbn [strip_cr_tab_to_space].
  destruct (Ascii.eqb c CR) eqn:Hcr.
  - by rewrite app_nil_l.
  - rewrite replace_byte_cons, IH. by destruct (Ascii.eqb c TAB).
Qed.

(** ** The dispatcher *)

Lemma switch_unsupported (Keys : gmap string string → list string)
    (tld : string) :
  tld ∉ supported → switch (dialects Keys) tld = None.
Proof.
  intros Hno. unfold dialects. simpl.
  unfold supported in Hno. rewrite !elem_of_cons in Hno.
  rewrite !bool_decide_eq_false_2
    by (rewrite !elem_of_cons, elem_of_nil; tauto).
  reflexivity.
Qed.

(** C2: on a response of ASCII bytes, when no domain-name line is found, or
    the label found names no supported dialect, [Prepare] returns the input
    with its carriage returns removed and its tabs turned into spaces, and
    nothing else changed. *)
Theorem Prepare_unsupported_identity
    (Keys : gmap string string → list string) (text : string) :
  ascii_text text →
  detect (prepass text) = Some None
  ∨ (∃ tld, detect (prepass text) = Some (Some tld) ∧ tld ∉ supported) →
  Prepare Keys text = Some (strip_cr_tab_to_space text).
Proof.
  intros _ H. unfold Prepare. rewrite <- prepass_spec.
  destruct H as [-> | (tld & -> & Hno)]; [done|].
  cbv beta iota delta [mbind option_bind].
  by rewrite switch_unsupported.
Qed.

Lemma Prepare_unsupported_identity_witness :
  Prepare Keys_forward (lit "Domain Name: EXAMPLE.COM\r\n\tRegistrar: X\r\n")
  = Some (lit "Domain Name: EXAMPLE.COM\n Registrar: X\n")
  ∧ Prepare Keys_forward (lit "No match\there\r\n")
    = Some (lit "No match here\n").
Proof.
  split.
  - apply (Prepare_unsupported_identity Keys_forward
             (lit "Domain Name: EXAMPLE.COM\r\n\tRegistrar: X\r\n")).
    + vm_compute. reflexivity.
    + right. exists "com". split; [vm_compute; reflexivity|].
      apply (bool_decide_unpack _). vm_compute. exact I.
  - apply (Prepare_unsupported_identity Keys_forward (lit "No match\there\r\n")).
    + vm_compute. reflexivity.
    + left. vm_compute. reflexivity.
Defined.

(** ** Failures at run time *)

(** C1: [Prepare] does not return on every input.  On a response routed to
    [prepareFR], a line without a colon whose text is one of the keys the
    transformer looks at ("registrar" at the start of a block, a role key,
    "dsl-id", or "nic-hdl" once a handle is recorded) makes the read of
    [vs[1]] fail: the call ends in a panic, not in a result. *)
Theorem Prepare_FR_key_without_colon_panics :
  (∀ Keys, Prepare Keys (lit "domain: example.fr\n\nregistrar\n") = None)
  ∧ (∀ Keys, Prepare Keys (lit "domain: example.fr\nholder-c\n") = None)
  ∧ (∀ Keys, Prepare Keys (lit "domain: example.fr\nadmin-c\n") = None)
  ∧ (∀ Keys, Prepare Keys (lit "domain: example.fr\ntech-c\n") = None)
  ∧ (∀ Keys, Prepare Keys (lit "domain: example.fr\ndsl-id\n") = None)
  ∧ Prepare Keys_forward
      (lit "domain: example.fr\nadmin-c: AB1-FRNIC\n\nnic-hdl\n") = None.
Proof. repeat split; try intros Keys; vm_compute; reflexivity. Qed.

(** C3: the field cursor of the block-schema transformers does run past the
    schema.  A "Registrant:" section of an EDU response with a fifth line, or
    a "Contact:" section of a TW response with a third, reads the field list
    out of range: the call ends in a panic, the surplus line is neither
    dropped nor folded. *)
Theorem block_schema_overrun_panics :
  prepareEDU (lit "Registrant:\na\nb\nc\nd\ne\n") = None
  ∧ prepareTW (lit "Contact:\na\nb\nc\n") = None
  ∧ (∀ Keys,
       Prepare Keys (lit "Domain Name: EXAMPLE.EDU\nRegistrant:\na\nb\nc\nd\ne\n")
       = None)
  ∧ (∀ Keys,
       Prepare Keys (lit "Domain Name: example.tw\nContact:\na\nb\nc\n") = None).
Proof. repeat split; try intros Keys; vm_compute; reflexivity. Qed.

(** ** The examples of the specification *)

(** C7: on the EDU example the output holds the line "Registrant
    Organization: Example University" and the line "Registrant Address: 123
    Main St": the fields of the schema label the lines in order. *)
Theorem prepareEDU_registrant_example :
  ∃ out,
    prepareEDU (lit "Registrant:\nExample University\n123 Main St\n") = Some out
    ∧ lines_of out
      = [""; "Registrant Organization: Example University";
         "Registrant Address: 123 Main St"]
    ∧ ("Registrant Organization: Example University" ∈ lines_of out)
    ∧ ("Registrant Address: 123 Main St" ∈ lines_of out).
Proof.
  eexists. split; [vm_compute; reflexivity|].
  split; [vm_compute; reflexivity|].
  split; apply (bool_decide_unpack _); vm_compute; exact I.
Qed.

(** C5, as the code has it: on "Holder" followed by "Acme AG, Jane Doe, Main
    Street 1" the output is exactly three lines; the first pass joins the
    second line to "Holder: " with a comma, so the organization takes the
    empty text before that comma, the name takes "Acme AG" and the street,
    the last field, takes all the rest, "Jane Doe, Main Street 1". *)
Theorem prepareCH_holder_example :
  ∃ out,
    prepareCH (lit "Holder\nAcme AG, Jane Doe, Main Street 1") = Some out
    ∧ lines_of out
      = ["Registrant organization:  "; "Registrant name: Acme AG";
         "Registrant street: Jane Doe, Main Street 1"]
    ∧ (∀ Keys,
         Prepare Keys
           (lit "Domain name\nexample.ch\n\nHolder\nAcme AG, Jane Doe, Main Street 1\n")
         = Some ("Domain name: example.ch" +:+ lit "\n" +:+ out)).
Proof.
  eexists. split; [vm_compute; reflexivity|].
  split; [|intros Keys]; vm_compute; reflexivity.
Qed.

(** C5 as stated fails: none of the three lines it names is in the output. *)
Lemma prepareCH_holder_example_refuted :
  ∃ out,
    prepareCH (lit "Holder\nAcme AG, Jane Doe, Main Street 1") = Some out
    ∧ ("Registrant organization: Acme AG" ∉ lines_of out)
    ∧ ("Registrant name: Jane Doe" ∉ lines_of out)
    ∧ ("Registrant street: Main Street 1" ∉ lines_of out).
Proof.
  eexists. split; [vm_compute; reflexivity|].
  repeat split; apply (bool_decide_unpack _); vm_compute; exact I.
Qed.

(** C6, as the code has it: on the RU example the labels are rewritten and
    the lines keep their order; the value is copied from the colon on, so the
    space that followed the colon comes after the one the rewriting writes,
    and every kept line, the last one too, is closed by a newline. *)
Theorem prepareRU_person_example :
  prepareRU (lit "person: John Smith\ne-mail: j@example.com\n")
  = Some (lit "Registrant Name:  John Smith\nRegistrant Email:  j@example.com\n").
Proof. vm_compute. reflexivity. Qed.

(** C6 as stated fails: the output is not the text it gives. *)
Lemma prepareRU_person_example_refuted :
  prepareRU (lit "person: John Smith\ne-mail: j@example.com\n")
  ≠ Some (lit "Registrant Name: John Smith\nRegistrant Email: j@example.com").
Proof. vm_compute. discriminate. Qed.

(** ** Where the output begins *)

Lemma first_byte_app (r x : string) :
  first_byte (r +:+ x) = match first_byte r with
                         | Some c => Some c
                         | None => first_byte x
                         end.
Proof. by destruct r. Qed.

Lemma first_byte_None (s : string) : first_byte s = None → s = "".
Proof. by destruct s. Qed.

Lemma begins_app (r x : string) :
  newline_led r → begins_with_newline x → begins_with_newline (r +:+ x).
Proof.
  unfold begins_with_newline. intros [-> | Hr] Hx; [exact Hx|].
  by rewrite first_byte_app, Hr.
Qed.

Lemma begins_app_l (r x : string) :
  begins_with_newline r → begins_with_newline (r +:+ x).
Proof. unfold begins_with_newline. intros Hr. by rewrite first_byte_app, Hr. Qed.

Lemma range_lines_invariant {S : Type} (body : S → string → option S)
    (P : S → Prop) :
  (∀ st v st', P st → body st v = Some st' → P st') →
  ∀ lines st st', P st → range_lines body st lines = Some st' → P st'.
Proof.
  intros Hbody lines. induction lines as [|v rest IH]; intros st st' HP Hrun.
  - simpl in Hrun. by simplify_eq.
  - simpl in Hrun. destruct (body st v) as [st1|] eqn:Hst1; [|done].
    simpl in Hrun. eauto.
Qed.

(** A line written as a newline followed by text keeps the output
    newline-led. *)
Ltac newline_led_step :=
  match goal with
  | H : newline_led ?r |- newline_led ?r => exact H
  | H : newline_led ?r |- newline_led (?r +:+ _) =>
      right; apply (begins_app _ _ H); reflexivity
  | H : newline_led ?r |- begins_with_newline (?r +:+ _) =>
      apply (begins_app _ _ H); reflexivity
  | H : begins_with_newline ?r |- newline_led (?r +:+ _) =>
      right; apply (begins_app_l _ _ H)
  | H : begins_with_newline ?r |- begins_with_newline (?r +:+ _) =>
      apply (begins_app_l _ _ H)
  end.

Ltac split_body H :=
  repeat (case_match; simplify_option_eq).

(** Inversion of a successful run of a body written with binds: the outcome
    of each bound computation is named, the tests it went through are not
    looked into. *)
Ltac unbind H :=
  repeat first
    [ discriminate H
    | match type of H with
      | mbind _ ?m = Some _ =>
          destruct m as [?|]; [|discriminate H]; simpl in H
      | match ?p with (_, _) => _ end = Some _ => destruct p; simpl in H
      | (if ?c then _ else _) = Some _ => destruct c; simpl in H
      | match ?c with _ => _ end = Some _ => destruct c; simpl in H
      end ];
  try (apply (inj Some) in H; subst).

Lemma prepareEDU_line_led (st st' : eduState) (v : string) :
  newline_led (edu_result st) → prepareEDU_line st v = Some st' →
  newline_led (edu_result st').
Proof.
  intros Hled Hstep. unfold prepareEDU_line in Hstep.
  split_body Hstep; newline_led_step.
Qed.

Lemma prepareINT_line_led (st st' : intState) (v : string) :
  newline_led (int_result st) → prepareINT_line st v = Some st' →
  newline_led (int_result st').
Proof.
  intros Hled Hstep. unfold prepareINT_line in Hstep.
  split_body Hstep; newline_led_step.
Qed.

Lemma prepareMO_line_led (st st' : moState) (v : string) :
  newline_led (mo_result st) → prepareMO_line st v = Some st' →
  newline_led (mo_result st').
Proof.
  intros Hled Hstep. unfold prepareMO_line in Hstep.
  split_body Hstep; newline_led_step.
Qed.

Lemma tw_name_email_led (tokenName indexName v result result' : string) :
  newline_led result →
  tw_name_email tokenName indexName v result = Some result' →
  newline_led result'.
Proof.
  intros Hled Hstep. unfold tw_name_email in Hstep.
  split_body Hstep.
  - rewrite app_assoc. newline_led_step.
  - newline_led_step.
Qed.

Lemma prepareTW_line_led (st st' : twState) (v : string) :
  newline_led (tw_result st) → prepareTW_line st v = Some st' →
  newline_led (tw_result st').
Proof.
  intros Hled Hstep. unfold prepareTW_line in Hstep.
  split_body Hstep; try newline_led_step.
  all: eauto using tw_name_email_led.
Qed.

Lemma prepareIT_line_led (st st' : itState) (v : string) :
  newline_led (it_result st)
  ∧ (it_subToken st ≠ "" → begins_with_newline (it_result st)) →
  prepareIT_line st v = Some st' →
  newline_led (it_result st')
  ∧ (it_subToken st' ≠ "" → begins_with_newline (it_result st')).
Proof.
  intros [Hled Hsub] Hstep. unfold prepareIT_line, it_emit in Hstep.
  split_body Hstep; (split; [|intros Hne]); try done;
    try newline_led_step;
    try (first [right; apply begins_app_l | apply begins_app_l]); auto.
Qed.

Lemma prepareFR_line_led (Keys : gmap string string → list string)
    (st st' : frState) (v : string) :
  newline_led (fr_result st) → prepareFR_line Keys st v = Some st' →
  newline_led (fr_result st').
Proof.
  intros Hled Hstep. unfold prepareFR_line in Hstep.
  unbind Hstep; simpl; newline_led_step.
Qed.

Lemma prepareJP_line_led (st st' : jpState) (v : string) :
  newline_led (jp_result st)
  ∧ (jp_token st = jpAddressToken → begins_with_newline (jp_result st)) →
  prepareJP_line st v = Some st' →
  newline_led (jp_result st')
  ∧ (jp_token st' = jpAddressToken → begins_with_newline (jp_result st')).
Proof.
  intros [Hled Htok] Hstep. unfold prepareJP_line in Hstep.
  split_body Hstep; (split; [|intros Heq]); try done;
    try newline_led_step;
    try (first [right; apply begins_app_l | apply begins_app_l]); auto.
Qed.

Lemma prepareUK_line_led (result result' v : string) :
  newline_led result → prepareUK_line result v = Some result' →
  newline_led result'.
Proof.
  intros Hled Hstep. unfold prepareUK_line in Hstep.
  split_body Hstep; newline_led_step.
Qed.

Lemma prepareKR_line_led (result result' v : string) :
  newline_led result → prepareKR_line result v = Some result' →
  newline_led result'.
Proof.
  intros Hled Hstep. unfold prepareKR_line in Hstep.
  split_body Hstep; newline_led_step.
Qed.

Lemma TrimLeft_first (s : string) (c : ascii) (t : string) :
  strings.TrimLeft s = String c t → strings.isSpace c = false.
Proof.
  induction s as [|a s IH]; simpl; [done|].
  destruct (strings.isSpace a) eqn:Ha; [done|]. by intros [= <- _].
Qed.

Lemma TrimRight_first (s : string) (c : ascii) (t : string) :
  strings.TrimRight s = String c t → first_byte s = Some c.
Proof.
  destruct s as [|a s]; simpl; [done|].
  destruct (strings.TrimRight s); [destruct (strings.isSpace a)|];
    by intros [= <- _].
Qed.

Lemma TrimSpace_first (s : string) (c : ascii) :
  first_byte (strings.TrimSpace s) = Some c → strings.isSpace c = false.
Proof.
  unfold strings.TrimSpace.
  destruct (strings.TrimRight (strings.TrimLeft s)) as [|a t] eqn:Ht; [done|].
  intros [= ->]. apply TrimRight_first in Ht.
  destruct (strings.TrimLeft s) as [|b u] eqn:Hu; [done|].
  simpl in Ht. injection Ht as ->. by apply TrimLeft_first in Hu.
Qed.

Lemma ruTokens_values (k vv : string) :
  ruTokens !! k = Some vv → first_byte vv = Some "R"%char.
Proof.
  unfold ruTokens. intros H%elem_of_list_to_map_2.
  rewrite !elem_of_cons, elem_of_nil in H.
  destruct H as [H|[H|[H|[]]]]; by simplify_eq.
Qed.

Lemma prepareRU_line_shape (result result' v : string) :
  result = "" ∨ (ends_with_newline result ∧ ¬ begins_with_newline result) →
  prepareRU_line result v = Some result' →
  result' = "" ∨ (ends_with_newline result' ∧ ¬ begins_with_newline result').
Proof.
  intros Hinv Hstep. unfold prepareRU_line in Hstep.
  destruct (decide (strings.TrimSpace v = "")) as [|Hne]; [by simplify_eq|].
  destruct (strings.Contains _ _); simpl in Hstep; [|by simplify_eq].
  destruct (index_at _ 0) as [k|]; simpl in Hstep; [|done].
  assert (∃ w c, result' = result +:+ w +:+ lit "\n"
                 ∧ first_byte w = Some c ∧ c ≠ LF) as (w & c & -> & Hw & Hc).
  { destruct (ruTokens !! _) as [vv|] eqn:Hvv; simpl in Hstep.
    - destruct (index_at _ 1) as [x|]; simpl in Hstep; [|done].
      injection Hstep as <-. eexists _, "R"%char. split; [reflexivity|].
      apply ruTokens_values in Hvv. by rewrite first_byte_app, Hvv.
    - injection Hstep as <-.
      destruct (strings.TrimSpace v) as [|c w] eqn:Hv; [done|].
      exists (String c w), c. split; [reflexivity|]. split; [done|].
      assert (strings.isSpace c = false) as Hsp
        by (apply (TrimSpace_first v); by rewrite Hv).
      by intros ->. }
  right. split.
  - exists (result +:+ w). by rewrite app_assoc.
  - unfold begins_with_newline. rewrite !first_byte_app, Hw.
    destruct Hinv as [-> | [_ Hno]].
    + simpl. by intros [= ->].
    + unfold begins_with_newline in Hno.
      destruct (first_byte result) as [b|] eqn:Hb; [exact Hno|].
      by intros [= ->].
Qed.

Lemma hk_emit_led (token : string) (addressToken : bool)
    (result field v : string) :
  newline_or_space_led result →
  newline_or_space_led (hk_result (hk_emit token addressToken result field v))
  ∧ first_byte (hk_result (hk_emit token addressToken result field v)) ≠ None.
Proof.
  intros Hled.
  assert (∃ x, hk_result (hk_emit token addressToken result field v)
               = result +:+ lit "\n" +:+ x) as [x ->].
  { unfold hk_emit. repeat case_match; simplify_eq; simpl; by eexists. }
  unfold newline_or_space_led. rewrite first_byte_app.
  destruct Hled as [-> | [-> | ->]]; simpl; auto.
Qed.

Lemma prepareHK_line_led (st st' : hkState) (v : string) :
  newline_or_space_led (hk_result st)
  ∧ (hk_addressToken st = true → first_byte (hk_result st) ≠ None) →
  prepareHK_line st v = Some st' →
  newline_or_space_led (hk_result st')
  ∧ (hk_addressToken st' = true → first_byte (hk_result st') ≠ None).
Proof.
  intros [Hled Haddr] Hstep. unfold prepareHK_line in Hstep.
  destruct (decide (strings.TrimSpace v = "")); [by simplify_eq|].
  destruct (strings.Contains _ _); simpl in Hstep.
  - destruct (index_at _ 0) as [k|]; simpl in Hstep; [|done].
    match type of Hstep with
    | mbind _ ?m = Some _ => destruct m as [[field v1]|]; simpl in Hstep; [|done]
    end.
    match type of Hstep with
    | mbind _ ?m = Some _ => destruct m as [v2|]; simpl in Hstep; [|done]
    end.
    destruct (decide (field = "Family name")) as [->|].
    + destruct (index_at _ 1) as [rest|]; simpl in Hstep; [|done].
      destruct (_ && _); injection Hstep as <-; simpl; (split; [|done]); auto.
      unfold newline_or_space_led. rewrite first_byte_app.
      destruct Hled as [-> | [-> | ->]]; auto.
    + injection Hstep as <-.
      destruct (hk_emit_led (hk_token st) (bool_decide (field = "Address"))
                  (hk_result st) field v2 Hled) as [H1 H2]. auto.
  - destruct (hk_addressToken st) eqn:Hat; injection Hstep as <-; simpl.
    + specialize (Haddr eq_refl). split; [|intros _].
      * unfold newline_or_space_led. rewrite first_byte_app.
        destruct Hled as [Hr | [Hr | Hr]]; rewrite Hr in *; simpl; auto.
        done.
      * rewrite first_byte_app. by destruct (first_byte (hk_result st)).
    + destruct (hk_emit_led (hk_token st) false (hk_result st) "" 
                  (strings.TrimSpace v) Hled) as [H1 H2]. auto.
Qed.

Lemma prepareEDU_led (text out : string) :
  prepareEDU text = Some out → newline_led out.
Proof.
  unfold prepareEDU. intros (st & Hrun & ->)%fmap_Some.
  eapply (range_lines_invariant _ (λ st, newline_led (edu_result st)));
    [| |exact Hrun]; [intros; by eapply prepareEDU_line_led|by left].
Qed.

Lemma prepareINT_led (text out : string) :
  prepareINT text = Some out → newline_led out.
Proof.
  unfold prepareINT. intros (st & Hrun & ->)%fmap_Some.
  eapply (range_lines_invariant _ (λ st, newline_led (int_result st)));
    [| |exact Hrun]; [intros; by eapply prepareINT_line_led|by left].
Qed.

Lemma prepareMO_led (text out : string) :
  prepareMO text = Some out → newline_led out.
Proof.
  unfold prepareMO. intros (st & Hrun & ->)%fmap_Some.
  eapply (range_lines_invariant _ (λ st, newline_led (mo_result st)));
    [| |exact Hrun]; [intros; by eapply prepareMO_line_led|by left].
Qed.

Lemma prepareTW_led (text out : string) :
  prepareTW text = Some out → newline_led out.
Proof.
  unfold prepareTW. intros (st & Hrun & ->)%fmap_Some.
  eapply (range_lines_invariant _ (λ st, newline_led (tw_result st)));
    [| |exact Hrun]; [intros; by eapply prepareTW_line_led|by left].
Qed.

Lemma prepareIT_led (text out : string) :
  prepareIT text = Some out → newline_led out.
Proof.
  unfold prepareIT. intros (st & Hrun & ->)%fmap_Some.
  eapply (range_lines_invariant _
            (λ st, newline_led (it_result st)
                   ∧ (it_subToken st ≠ "" → begins_with_newline (it_result st))));
    [| |exact Hrun]; [intros; by eapply prepareIT_line_led|].
  split; [by left|done].
Qed.

Lemma prepareFR_led (Keys : gmap string string → list string)
    (text out : string) :
  prepareFR Keys text = Some out → newline_led out.
Proof.
  unfold prepareFR. intros (st & Hrun & ->)%fmap_Some.
  eapply (range_lines_invariant _ (λ st, newline_led (fr_result st)));
    [| |exact Hrun]; [intros; by eapply prepareFR_line_led|by left].
Qed.

Lemma prepareJP_led (text out : string) :
  prepareJP text = Some out → newline_led out.
Proof.
  unfold prepareJP. intros (st & Hrun & ->)%fmap_Some.
  eapply (range_lines_invariant _
            (λ st, newline_led (jp_result st)
                   ∧ (jp_token st = jpAddressToken
                      → begins_with_newline (jp_result st))));
    [| |exact Hrun]; [intros; by eapply prepareJP_line_led|].
  split; [by left|done].
Qed.

Lemma prepareUK_led (text out : string) :
  prepareUK text = Some out → newline_led out.
Proof.
  unfold prepareUK. intros Hrun.
  eapply (range_lines_invariant _ newline_led); [| |exact Hrun];
    [intros; by eapply prepareUK_line_led|by left].
Qed.

Lemma prepareKR_led (text out : string) :
  prepareKR text = Some out → newline_led out.
Proof.
  unfold prepareKR. intros (text' & _ & Hrun)%bind_Some.
  eapply (range_lines_invariant _ newline_led); [| |exact Hrun];
    [intros; by eapply prepareKR_line_led|by left].
Qed.

Lemma prepareHK_led (text out : string) :
  prepareHK text = Some out → newline_or_space_led out.
Proof.
  unfold prepareHK. intros (st & Hrun & ->)%fmap_Some.
  eapply (range_lines_invariant _
            (λ st, newline_or_space_led (hk_result st)
                   ∧ (hk_addressToken st = true
                      → first_byte (hk_result st) ≠ None)));
    [| |exact Hrun]; [intros; by eapply prepareHK_line_led|].
  split; [by left|done].
Qed.

Lemma prepareRU_shape (text out : string) :
  prepareRU text = Some out →
  out = "" ∨ (ends_with_newline out ∧ ¬ begins_with_newline out).
Proof.
  unfold prepareRU. intros Hrun.
  eapply (range_lines_invariant _
            (λ r, r = "" ∨ (ends_with_newline r ∧ ¬ begins_with_newline r)));
    [| |exact Hrun]; [intros; by eapply prepareRU_line_shape|by left].
Qed.

(** C10, as the code has it: a transformer other than RU, CH and HK that
    returns some text returns one that begins with a newline; RU returns a
    text that ends with a newline and does not begin with one; HK returns a
    text that begins with a newline or, when a family name is appended before
    any line is written, with the space that precedes the name. *)
Theorem transformer_output_shape (Keys : gmap string string → list string)
    (prepare : transformer) (text out : string) :
  prepare text = Some out → out ≠ "" →
  (prepare ∈ newline_first Keys → begins_with_newline out)
  ∧ (prepare = prepareRU → ends_with_newline out ∧ ¬ begins_with_newline out)
  ∧ (prepare = prepareHK →
     begins_with_newline out ∨ first_byte out = Some SP).
Proof.
  intros Hout Hne. split; [|split].
  - unfold newline_first. rewrite !elem_of_cons, elem_of_nil.
    assert (newline_led out → begins_with_newline out) as Hled
      by (by intros [?|?]).
    intros Hin. apply Hled.
    destruct Hin as [->|[->|[->|[->|[->|[->|[->|[->|[->|[]]]]]]]]]];
      eauto using prepareEDU_led, prepareINT_led, prepareMO_led, prepareTW_led,
        prepareIT_led, prepareFR_led, prepareJP_led, prepareUK_led,
        prepareKR_led.
  - intros ->. by destruct (prepareRU_shape _ _ Hout).
  - intros ->. by destruct (prepareHK_led _ _ Hout) as [?|?].
Qed.

Lemma transformer_output_shape_witness :
  begins_with_newline (lit "\nRegistrar URL:  http://example.co.uk")
  ∧ (ends_with_newline (lit "Registrant Name:  John Smith\n")
     ∧ ¬ begins_with_newline (lit "Registrant Name:  John Smith\n"))
  ∧ (begins_with_newline (lit " Chan\nDomain Name: EXAMPLE.HK")
     ∨ first_byte (lit " Chan\nDomain Name: EXAMPLE.HK") = Some SP).
Proof.
  split; [|split].
  - apply (transformer_output_shape Keys_forward prepareUK
             (lit "URL: http://example.co.uk\n")
             (lit "\nRegistrar URL:  http://example.co.uk")).
    + vm_compute. reflexivity.
    + vm_compute. discriminate.
    + unfold newline_first. rewrite !elem_of_cons. tauto.
  - apply (transformer_output_shape Keys_forward prepareRU
             (lit "person: John Smith\n")
             (lit "Registrant Name:  John Smith\n")).
    + vm_compute. reflexivity.
    + vm_compute. discriminate.
    + reflexivity.
  - apply (transformer_output_shape Keys_forward prepareHK
             (lit "Family name: Chan\nDomain Name: EXAMPLE.HK\n")
             (lit " Chan\nDomain Name: EXAMPLE.HK")).
    + vm_compute. reflexivity.
    + vm_compute. discriminate.
    + reflexivity.
Defined.

(** C10 as stated fails on HK: a response whose first line is a family name
    is routed to [prepareHK], which returns a text that begins with a space. *)
Lemma prepareHK_output_begins_with_space :
  Prepare Keys_forward (lit "Family name: Chan\nDomain Name: EXAMPLE.HK\n")
  = prepareHK (lit "Family name: Chan\nDomain Name: EXAMPLE.HK\n")
  ∧ prepareHK (lit "Family name: Chan\nDomain Name: EXAMPLE.HK\n")
    = Some (lit " Chan\nDomain Name: EXAMPLE.HK")
  ∧ ¬ begins_with_newline (lit " Chan\nDomain Name: EXAMPLE.HK").
Proof. repeat split; vm_compute; [reflexivity..|discriminate]. Qed.

(** ** The detector *)

Lemma run_literal_fold_fail (w s : string) (caps : captures) (k : cont) :
  strings.HasPrefix (strings.ToLower s) (strings.ToLower w) = false →
  run (literal_fold w) s caps k = None.
Proof.
  revert s k. induction w as [|c w IH]; intros s k; [done|].
  destruct s as [|a s]; [done|]. simpl.
  destruct (Ascii.eqb (strings.lower a) (strings.lower c)); [|done].
  simpl. apply IH.
Qed.

Lemma Contains_false_prefix (s sub : string) :
  strings.Contains s sub = false → strings.HasPrefix s sub = false.
Proof. destruct s; simpl; by intros [? _]%orb_false_elim. Qed.

Lemma run_searchDomain_fail (s : string) (caps : captures) (k : cont) :
  strings.HasPrefix (strings.ToLower s) "domain" = false →
  (∀ c s', s = String c s' →
           strings.HasPrefix (strings.ToLower s') "domain" = false) →
  run searchDomain s caps k = None.
Proof.
  intros Hs Htl. unfold searchDomain.
  change (cat (?r :: ?rs)) with (Cat r (cat rs)).
  change (cat (?r :: ?rs)) with (Cat r (cat rs)).
  cbn [run opt byte or_else].
  rewrite (run_literal_fold_fail "Domain" s) by exact Hs.
  destruct s as [|c s']; [done|].
  destruct (Ascii.eqb "[" c); [|done].
  by rewrite (run_literal_fold_fail "Domain" s') by eauto.
Qed.

Lemma find_searchDomain_none (s : string) :
  no_domain_keyword s → find searchDomain s = None.
Proof.
  unfold no_domain_keyword. induction s as [|c s IH]; intros Hno.
  - reflexivity.
  - simpl in Hno. apply orb_false_elim in Hno as [Hp Hc].
    cbn [find]. rewrite run_searchDomain_fail.
    + by rewrite IH.
    + exact Hp.
    + intros ? ? [= _ <-]. by apply Contains_false_prefix.
Qed.

Lemma detect_none (s : string) : no_domain_keyword s → detect s = Some None.
Proof.
  intros Hno. unfold detect, FindStringSubmatch.
  by rewrite find_searchDomain_none.
Qed.

Lemma length_app (s t : string) :
  String.length (s +:+ t) = (String.length s + String.length t)%nat.
Proof. induction s as [|c s IH]; [done|]. rewrite app_cons. simpl. by rewrite IH. Qed.

Lemma take_bytes_app (w rest : string) :
  strings.take_bytes (String.length (w +:+ rest) - String.length rest)
    (w +:+ rest) = w.
Proof.
  rewrite length_app.
  replace (String.length w + String.length rest - String.length rest)%nat
    with (String.length w) by lia.
  induction w as [|c w IH]; [done|]. rewrite app_cons. simpl. by rewrite IH.
Qed.

Lemma takes_cat (r1 r2 : re) (s mid rest : string) (f1 f2 : captures → captures) :
  takes r1 s mid f1 → takes r2 mid rest f2 →
  takes (Cat r1 r2) s rest (f2 ∘ f1).
Proof.
  intros H1 H2 caps k Hk. cbn [run].
  rewrite H1; rewrite H2; done.
Qed.

Lemma takes_empty (s : string) : takes Empty s s id.
Proof. by intros caps k Hk. Qed.

Lemma takes_class (p : ascii → bool) (c : ascii) (rest : string) :
  p c = true → takes (Class p) (String c rest) rest id.
Proof. intros Hp caps k Hk. cbn [run]. by rewrite Hp. Qed.

Lemma takes_byte (c : ascii) (rest : string) :
  takes (byte c) (String c rest) rest id.
Proof. apply takes_class, Ascii.eqb_refl. Qed.

Lemma takes_group (i : nat) (r : re) (s rest : string)
    (f : captures → captures) :
  takes r s rest f →
  takes (Group i r) s rest
    (λ caps, <[i := strings.take_bytes
                      (String.length s - String.length rest) s]> (f caps)).
Proof. intros H caps k Hk. cbn [run]. by rewrite H. Qed.

Lemma takes_opt (r : re) (s rest : string) (f : captures → captures) :
  takes r s rest f → takes (opt r) s rest f.
Proof.
  intros H caps k Hk. unfold opt. cbn [run]. rewrite H by done.
  destruct Hk as [y ->]. reflexivity.
Qed.

Lemma takes_opt_skip (c : ascii) (s : string) :
  first_byte s ≠ Some c → takes (opt (byte c)) s s id.
Proof.
  intros Hc caps k Hk. unfold opt, byte. cbn [run].
  destruct s as [|a s]; [done|].
  destruct (Ascii.eqb c a) eqn:Heq; [|done].
  apply Ascii.eqb_eq in Heq as ->. done.
Qed.

Lemma star_class_stop (p : ascii → bool) (k : cont) (fuel : nat)
    (s : string) (caps : captures) :
  stops p s → star_loop (run (Class p)) true k fuel s caps = k s caps.
Proof.
  unfold stops. intros Hs.
  destruct fuel; [done|]. destruct s as [|c s]; [done|].
  simpl in *. by rewrite Hs.
Qed.

Lemma star_class_greedy (p : ascii → bool) (k : cont) (w rest : string)
    (caps : captures) (fuel : nat) :
  all_bytes p w = true → stops p rest → (String.length w ≤ fuel)%nat →
  is_Some (k rest caps) →
  star_loop (run (Class p)) true k fuel (w +:+ rest) caps = k rest caps.
Proof.
  revert fuel. induction w as [|a w IH]; intros fuel Hall Hstop Hfuel Hk.
  - by apply star_class_stop.
  - simpl in Hall. apply andb_prop in Hall as [Ha Hw].
    destruct fuel as [|fuel]; [simpl in Hfuel; lia|].
    rewrite app_cons. cbn [star_loop run]. rewrite Ha.
    replace (String.length (w +:+ rest) <? String.length (String a (w +:+ rest)))%nat
      with true by (symmetry; apply Nat.ltb_lt; simpl; lia).
    rewrite IH by (simpl in Hfuel; auto with lia).
    destruct Hk as [y ->]. reflexivity.
Qed.

Lemma takes_star (p : ascii → bool) (w rest : string) :
  all_bytes p w = true → stops p rest →
  takes (star (Class p)) (w +:+ rest) rest id.
Proof.
  intros Hall Hstop caps k Hk. unfold star. cbn [run].
  apply star_class_greedy; auto. rewrite length_app. lia.
Qed.

Lemma takes_plus (p : ascii → bool) (c : ascii) (w rest : string) :
  p c = true → all_bytes p w = true → stops p rest →
  takes (plus (Class p)) (String c (w +:+ rest)) rest id.
Proof.
  intros Hc Hall Hstop. unfold plus.
  change (@id captures) with (@id captures ∘ id).
  eapply takes_cat; [by apply takes_class|by apply takes_star].
Qed.

Lemma takes_literal_fold (w w' rest : string) :
  strings.ToLower w' = strings.ToLower w →
  takes (literal_fold w) (w' +:+ rest) rest id.
Proof.
  revert w'. induction w as [|c w IH]; intros [|a w'] Heq; try done.
  simpl in Heq. injection Heq as Hc Hw.
  intros caps k Hk. rewrite app_cons. cbn [literal_fold run byte_fold].
  rewrite Hc, Ascii.eqb_refl. by apply IH.
Qed.

Lemma label_byte_not_space (c : ascii) :
  is_label_byte c = true → is_s c = false.
Proof. destruct c as [[] [] [] [] [] [] [] []]; vm_compute; done. Qed.

Lemma searchDomain_parts :
  searchDomain
  = Cat (opt (byte "[")) (Cat (literal_fold "Domain") (Cat (opt nameGroup) domainTail)).
Proof. reflexivity. Qed.

Lemma is_s_not_label (c : ascii) : is_s c = true → is_label_byte c = false.
Proof. destruct c as [[] [] [] [] [] [] [] []]; vm_compute; done. Qed.

Lemma label_not_bracket (c : ascii) : is_label_byte c = true → c ≠ "]"%char ∧ c ≠ ":"%char ∧ c ≠ "."%char.
Proof. destruct c as [[] [] [] [] [] [] [] []]; vm_compute; done. Qed.

Lemma is_s_not_bracket (c : ascii) : is_s c = true → c ≠ "]"%char ∧ c ≠ ":"%char.
Proof. destruct c as [[] [] [] [] [] [] [] []]; vm_compute; done. Qed.

Lemma takes_domainTail (d : domainLine) (rest : string) :
  dl_wf d rest →
  ∃ f, takes domainTail (dl_tail d rest) rest f
       ∧ ∀ caps, f caps !! 3%nat = Some (dl_tld d).
Proof.
  intros (_ & _ & _ & Hclose & Hgap & Hcolon & Hgap' & Hl & Hlab & Htl & Htld & Hrest).
  unfold dl_tail.
  destruct (dl_label d) as [|l0 lw]; [done|].
  destruct (dl_tld d) as [|t0 [|t1 tw]]; simpl in Htl; try lia.
  simpl in Hlab, Htld.
  apply andb_prop in Hlab as [Hl0 Hlw].
  apply andb_prop in Htld as [Ht0 Htld]. apply andb_prop in Htld as [Ht1 Htw].
  pose proof (label_not_bracket _ Hl0) as (Hb & Hc & Hd).
  pose proof (label_byte_not_space _ Hl0) as Hsp.
  eexists. split.
  - unfold domainTail, cat. cbn [foldr].
    eapply takes_cat.
    { instantiate (1 := id). instantiate (1 := dl_gap d +:+ dl_colon d +:+ dl_gap' d +:+ String l0 lw +:+ "." +:+ String t0 (String t1 tw) +:+ rest).
      destruct Hclose as [-> | ->].
      - rewrite app_nil_l. apply takes_opt_skip.
        destruct (dl_gap d) as [|g0 gw]; simpl.
        + destruct Hcolon as [-> | [-> ->]]; simpl; [done|]. congruence.
        + simpl in Hgap. apply andb_prop in Hgap as [Hg _].
          apply is_s_not_bracket in Hg. naive_solver.
      - apply takes_opt. rewrite app_cons, app_nil_l. apply takes_byte. }
    eapply takes_cat.
    { apply (takes_star is_s (dl_gap d)); [done|].
      unfold stops. destruct Hcolon as [-> | [-> ->]]; simpl; [done|done]. }
    eapply takes_cat.
    { instantiate (1 := id). instantiate (1 := dl_gap' d +:+ String l0 lw +:+ "." +:+ String t0 (String t1 tw) +:+ rest).
      destruct Hcolon as [-> | [-> ->]].
      - apply takes_opt. rewrite app_cons, app_nil_l. apply takes_byte.
      - rewrite !app_nil_l. apply takes_opt_skip. simpl. congruence. }
    eapply takes_cat.
    { apply (takes_star is_s (dl_gap' d)); [done|].
      unfold stops. simpl. done. }
    eapply takes_cat.
    { apply takes_group. rewrite app_cons. apply takes_plus; [done|done|].
      unfold stops. simpl. done. }
    eapply takes_cat; [apply takes_byte|].
    eapply takes_cat; [|apply takes_empty].
    apply takes_group. rewrite !app_cons.
    eapply takes_cat; [by apply takes_class|].
    eapply takes_cat; [by apply takes_class|].
    eapply takes_cat; [by apply takes_star|apply takes_empty].
  - intros caps. cbn [compose id]. rewrite lookup_insert_eq. f_equal.
    apply (take_bytes_app (String t0 (String t1 tw)) rest).
Qed.


Lemma run_literal_fold_ok (w w' rest : string) (caps : captures) (k : cont) :
  strings.ToLower w' = strings.ToLower w →
  run (literal_fold w) (w' +:+ rest) caps k = k rest caps.
Proof.
  revert w'. induction w as [|c w IH]; intros [|a w'] Heq; try done.
  simpl in Heq. injection Heq as Hc Hw.
  rewrite app_cons. cbn [literal_fold run byte_fold].
  rewrite Hc, Ascii.eqb_refl. by apply IH.
Qed.

Lemma star_class_fail (p : ascii → bool) (k : cont) (w rest : string)
    (caps : captures) (fuel : nat) :
  all_bytes p w = true → stops p rest → k rest caps = None →
  (∀ c u, p c = true → k (String c u) caps = None) →
  star_loop (run (Class p)) true k fuel (w +:+ rest) caps = None.
Proof.
  intros Hall Hstop Hrest Hk. revert fuel.
  induction w as [|a w IH]; intros fuel.
  - rewrite app_nil_l. rewrite star_class_stop by done. exact Hrest.
  - simpl in Hall. apply andb_prop in Hall as [Ha Hw].
    rewrite app_cons. destruct fuel as [|fuel].
    + cbn [star_loop or_else]. by apply Hk.
    + cbn [star_loop run]. rewrite Ha.
      replace (String.length (w +:+ rest) <? String.length (String a (w +:+ rest)))%nat
        with true by (symmetry; apply Nat.ltb_lt; simpl; lia).
      rewrite IH by done. cbn [or_else]. by apply Hk.
Qed.

Lemma space_not_n (c : ascii) :
  is_s c = true → Ascii.eqb (strings.lower c) "n" = false.
Proof. destruct c as [[] [] [] [] [] [] [] []]; vm_compute; done. Qed.

Lemma lower_n_not_space (c : ascii) :
  strings.lower c = "n"%char → is_s c = false.
Proof. destruct c as [[] [] [] [] [] [] [] []]; vm_compute; done. Qed.

Lemma lower_d_not_bracket (c : ascii) :
  strings.lower c = "d"%char → c ≠ "["%char.
Proof. destruct c as [[] [] [] [] [] [] [] []]; vm_compute; done. Qed.

(** The group of the word "name" does not match where the white space, if
    any, is not followed by the word. *)
Lemma run_nameGroup_fail (w r : string) (caps : captures) (k : cont) :
  all_bytes is_s w = true → stops is_s r →
  w = "" ∨ strings.HasPrefix (strings.ToLower r) "name" = false →
  run nameGroup (w +:+ r) caps k = None.
Proof.
  intros Hw Hr Hno. unfold nameGroup, cat, plus, ws. cbn [foldr run].
  destruct w as [|c w].
  - rewrite app_nil_l. unfold stops in Hr.
    destruct r as [|a r]; [done|]. simpl in Hr. by rewrite Hr.
  - destruct Hno as [?|Hno]; [done|].
    simpl in Hw. apply andb_prop in Hw as [Hc Hw].
    rewrite app_cons, Hc.
    apply star_class_fail; [done|done| |].
    + apply (run_literal_fold_fail "name"). exact Hno.
    + intros a u Ha. cbn [literal_fold run byte_fold].
      by rewrite space_not_n.
Qed.

Lemma takes_opt_fail (r : re) (s : string) :
  (∀ caps k, run r s caps k = None) → takes (opt r) s s id.
Proof. intros H caps k Hk. unfold opt. cbn [run]. by rewrite H. Qed.

Lemma takes_nameGroup (sp n rest : string) :
  sp ≠ "" → all_bytes is_s sp = true → strings.ToLower n = "name" →
  ∃ f, takes nameGroup (sp +:+ n +:+ rest) rest f
       ∧ ∀ caps, f caps !! 3%nat = caps !! 3%nat.
Proof.
  intros Hsp Hall Hn. destruct sp as [|c sp]; [done|].
  simpl in Hall. apply andb_prop in Hall as [Hc Hall].
  eexists. split.
  - unfold nameGroup, cat. cbn [foldr]. apply takes_group.
    eapply takes_cat.
    + rewrite app_cons. apply takes_plus; [done|done|].
      unfold stops. destruct n as [|a n]; [done|]. simpl in *.
      injection Hn as Ha _. by apply lower_n_not_space.
    + eapply takes_cat; [by apply (takes_literal_fold "name" n)|apply takes_empty].
  - intros caps. cbn [compose id]. by rewrite lookup_insert_ne.
Qed.


Lemma ToLower_app (s t : string) :
  strings.ToLower (s +:+ t) = strings.ToLower s +:+ strings.ToLower t.
Proof. induction s as [|c s IH]; [done|]. rewrite app_cons. simpl. by rewrite IH. Qed.

Lemma HasPrefix_app (s x w : string) :
  strings.HasPrefix s w = true → strings.HasPrefix (s +:+ x) w = true.
Proof.
  revert s. induction w as [|p w IH]; intros s; [done|].
  destruct s as [|c s]; [done|]. rewrite app_cons. simpl.
  intros [-> Hs]%andb_prop. simpl. by apply IH.
Qed.

Lemma HasPrefix_split (s w : string) :
  strings.HasPrefix s w = true → ∃ t, s = w +:+ t.
Proof.
  revert s. induction w as [|p w IH]; intros s.
  - exists s. by rewrite app_nil_l.
  - destruct s as [|c s]; [done|]. simpl.
    intros [Hc Hs]%andb_prop. apply Ascii.eqb_eq in Hc as ->.
    destruct (IH s Hs) as [t ->]. exists t. by rewrite app_cons.
Qed.

Lemma ToLower_split (s w t : string) :
  strings.ToLower s = w +:+ t →
  ∃ s1 s2, s = s1 +:+ s2 ∧ strings.ToLower s1 = w ∧ strings.ToLower s2 = t.
Proof.
  revert s. induction w as [|p w IH]; intros s Hs.
  - exists "", s. by rewrite !app_nil_l in *.
  - destruct s as [|c s]; [done|]. rewrite app_cons in Hs. simpl in Hs.
    injection Hs as Hc Hs. destruct (IH s Hs) as (s1 & s2 & -> & H1 & H2).
    exists (String c s1), s2. rewrite app_cons. simpl. by rewrite Hc, H1.
Qed.

Lemma all_bytes_app (p : ascii → bool) (s t : string) :
  all_bytes p (s +:+ t) = all_bytes p s && all_bytes p t.
Proof.
  induction s as [|c s IH]; [done|]. rewrite app_cons. simpl.
  by rewrite IH, andb_assoc.
Qed.

(** A label that does not begin with the word "name" still does not when the
    dot is put after it. *)
Lemma label_dot_no_name (l x : string) :
  strings.HasPrefix (strings.ToLower l) "name" = false →
  strings.HasPrefix (strings.ToLower (l +:+ String "." x)) "name" = false.
Proof.
  destruct l as [|c1 [|c2 [|c3 [|c4 l]]]]; intros H; rewrite ?app_cons, ?app_nil_l;
    simpl in *; rewrite ?andb_true_r in *; rewrite ?andb_false_r; try done.
  all: repeat match goal with
       | H : _ && _ = false |- _ => apply andb_false_iff in H as [H|H]
       end; rewrite ?H, ?andb_false_r; try done.
Qed.

Lemma run_domainTail_dot (x : string) (caps : captures) (k : cont) :
  run domainTail (String "." x) caps k = None.
Proof. reflexivity. Qed.

Lemma takes_name_tail (d : domainLine) (rest : string) :
  dl_wf d rest →
  ∃ f, takes (Cat (opt nameGroup) domainTail)
         (dl_sp d +:+ dl_name d +:+ dl_tail d rest) rest f
       ∧ ∀ caps, f caps !! 3%nat = Some (dl_tld d).
Proof.
  intros Hwf. pose proof Hwf as Hwf'.
  destruct Hwf as (Hopen & Hword & Hname & Hclose & Hgap & Hcolon & Hgap' & Hl & Hlab
               & Htl & Htld & Hrest).
  destruct (takes_domainTail d rest Hwf') as (fT & HT & HT3).
  destruct Hname as [[-> ->] | (Hsp & Hspall & Hn)].
  2: { destruct (takes_nameGroup (dl_sp d) (dl_name d) (dl_tail d rest) Hsp Hspall Hn)
         as (fN & HN & _).
       exists (fT ∘ fN). split; [|intros caps; apply HT3].
       eapply takes_cat; [by apply takes_opt|done]. }
  rewrite !app_nil_l.
  destruct (decide (dl_close d = "" ∧ dl_colon d = "" ∧ dl_gap d ≠ ""
                    ∧ strings.HasPrefix (strings.ToLower (dl_label d)) "name" = true))
    as [(Hc & Hco & Hg & Hpre)|Hno].
  - (* the text reads as white space and the word "name" *)
    destruct Hcolon as [Hco'|[_ Hg']]; [congruence|].
    apply HasPrefix_split in Hpre as [t Ht].
    apply ToLower_split in Ht as (n & l' & Hlabel & Hn & _).
    destruct (decide (l' = "")) as [->|Hl'].
    + (* the label is the word itself: the group is tried and given up *)
      exists fT. split; [|exact HT3].
      intros caps k Hk. cbn [run]. unfold opt at 1. cbn [run].
      assert (run nameGroup (dl_tail d rest) caps
                (λ s' caps', run domainTail s' caps' k) = None) as ->.
      { unfold dl_tail. rewrite Hc, Hco, Hg', Hlabel, !app_nil_l.
        destruct (dl_gap d) as [|c w]; [done|].
        simpl in Hgap. apply andb_prop in Hgap as [Hcs Hw].
        unfold nameGroup, cat, plus, ws. cbn [foldr run].
        rewrite app_cons, Hcs.
        apply star_class_fail; [done| | |].
        - unfold stops. destruct n as [|a n]; [done|]. rewrite !app_cons. simpl in *.
          injection Hn as Ha _. by apply lower_n_not_space.
        - rewrite app_assoc.
          rewrite (run_literal_fold_ok "name" n) by done.
          cbn [run]. rewrite app_nil_l. apply run_domainTail_dot.
        - intros a u Ha. cbn [literal_fold run byte_fold].
          by rewrite space_not_n. }
      cbn [or_else]. by apply HT.
    + (* the group takes the white space and the word; the label is the rest *)
      set (d' := DomainLine (dl_open d) (dl_word d) (dl_gap d) n "" "" "" "" l' (dl_tld d)).
      assert (dl_wf d' rest) as Hwf2.
      { rewrite Hlabel, all_bytes_app in Hlab. apply andb_prop in Hlab as [_ Hlab].
        unfold dl_wf, d'; cbn. repeat split; auto. }
      destruct (takes_domainTail d' rest Hwf2) as (fT' & HT' & HT3').
      destruct (takes_nameGroup (dl_gap d) n (dl_tail d' rest) Hg Hgap Hn)
        as (fN & HN & _).
      exists (fT' ∘ fN). split; [|intros caps; apply HT3'].
      replace (dl_tail d rest) with (dl_gap d +:+ n +:+ dl_tail d' rest).
      2: { unfold dl_tail, d'. cbn. rewrite Hc, Hco, Hg', Hlabel, !app_nil_l.
           by rewrite !app_assoc. }
      eapply takes_cat; [by apply takes_opt|done].
  - (* the group does not match *)
    exists (fT ∘ id). split; [|intros caps; apply HT3].
    eapply takes_cat; [|exact HT].
    apply takes_opt_fail. intros caps k. unfold dl_tail.
    destruct Hclose as [Hc|Hc]; rewrite Hc.
    2: { apply (run_nameGroup_fail "" _ caps k); [done|done|by left]. }
    rewrite app_nil_l.
    destruct (dl_label d) as [|l0 lw] eqn:Hlabel; [done|].
    simpl in Hlab. apply andb_prop in Hlab as [Hl0 _].
    apply run_nameGroup_fail; [done| |].
    + unfold stops. destruct Hcolon as [-> | [-> ->]]; simpl; [done|].
      by apply label_byte_not_space.
    + destruct (decide (dl_gap d = "")) as [?|Hg]; [by left|right].
      destruct Hcolon as [-> | [Hco ->]]; [done|]. rewrite Hco, !app_nil_l.
      rewrite <- Hlabel. apply label_dot_no_name.
      destruct (strings.HasPrefix (strings.ToLower (dl_label d)) "name") eqn:E; [|done].
      exfalso. apply Hno. rewrite Hlabel in E. done.
Qed.

Lemma searchDomain_takes (d : domainLine) (rest : string) :
  dl_wf d rest →
  ∃ f, takes searchDomain (dl_text d rest) rest f
       ∧ ∀ caps, f caps !! 3%nat = Some (dl_tld d).
Proof.
  intros Hwf. destruct (takes_name_tail d rest Hwf) as (f & Hf & Hf3).
  destruct Hwf as (Hopen & Hword & _).
  exists (f ∘ (id ∘ id)). split; [|intros caps; apply Hf3].
  rewrite searchDomain_parts. unfold dl_text.
  eapply takes_cat.
  { instantiate (1 := dl_word d +:+ dl_sp d +:+ dl_name d +:+ dl_tail d rest).
    destruct Hopen as [-> | ->].
    - rewrite app_nil_l. apply takes_opt_skip.
      destruct (dl_word d) as [|k0 kw]; [done|]. rewrite app_cons. simpl in *.
      injection Hword as Hk _. apply lower_d_not_bracket in Hk. congruence.
    - apply takes_opt. rewrite app_cons, app_nil_l. apply takes_byte. }
  eapply takes_cat; [|exact Hf].
  by apply (takes_literal_fold "Domain" (dl_word d)).
Qed.

Lemma find_here (r : re) (s s' : string) (caps : captures) :
  run r s ∅ (λ s' caps, Some (s', caps)) = Some (s', caps) →
  find r s
  = Some ("", <[O := strings.take_bytes
                       (String.length s - String.length s') s]> caps, s').
Proof. intros H. destruct s; cbn [find]; by rewrite H. Qed.

Lemma find_skip (r : re) (c : ascii) (s : string) :
  run r (String c s) ∅ (λ s' caps, Some (s', caps)) = None →
  find r (String c s)
  = match find r s with
    | Some (pre, caps, post) => Some (String c pre, caps, post)
    | None => None
    end.
Proof. intros H. cbn [find]. by rewrite H. Qed.

Lemma run_searchDomain_fail_at (s : string) (caps : captures) (k : cont) :
  strings.HasPrefix (strings.ToLower s) "domain" = false →
  (∀ s', s = String "[" s' →
         strings.HasPrefix (strings.ToLower s') "domain" = false) →
  run searchDomain s caps k = None.
Proof.
  intros Hs Htl. unfold searchDomain.
  change (cat (?r :: ?rs)) with (Cat r (cat rs)).
  change (cat (?r :: ?rs)) with (Cat r (cat rs)).
  cbn [run opt byte or_else].
  rewrite (run_literal_fold_fail "Domain" s) by exact Hs.
  destruct s as [|c s']; [done|].
  destruct (Ascii.eqb "[" c) eqn:Hc; [|done].
  apply Ascii.eqb_eq in Hc as <-.
  by rewrite (run_literal_fold_fail "Domain" s') by eauto.
Qed.

(** The word "domain" does not begin inside a text that does not hold it, to
    end in a text that begins with a bracket or with the letter d. *)
Lemma no_keyword_across (q x : string) (x0 : ascii) (x' : string) :
  q ≠ "" → strings.HasPrefix (strings.ToLower q) "domain" = false →
  x = String x0 x' → strings.lower x0 = "["%char ∨ strings.lower x0 = "d"%char →
  strings.HasPrefix (strings.ToLower (q +:+ x)) "domain" = false.
Proof.
  intros Hq Hpre -> Hx0.
  destruct q as [|c1 [|c2 [|c3 [|c4 [|c5 [|c6 q]]]]]]; [done|..];
    rewrite ?app_cons, ?app_nil_l;
    cbn [strings.HasPrefix strings.ToLower] in *;
    try (destruct Hx0 as [-> | ->]; cbn [Ascii.eqb Bool.eqb andb];
         by rewrite ?andb_false_r).
  exact Hpre.
Qed.

Lemma dl_text_first (d : domainLine) (rest : string) :
  dl_wf d rest →
  ∃ x0 x', dl_text d rest = String x0 x'
           ∧ (strings.lower x0 = "["%char ∨ strings.lower x0 = "d"%char)
           ∧ (x0 = "["%char → dl_open d = "[").
Proof.
  intros ([Ho|Ho] & Hword & _); unfold dl_text; rewrite Ho.
  - destruct (dl_word d) as [|k0 kw]; [done|]. simpl in Hword.
    injection Hword as Hk _. rewrite app_nil_l, app_cons.
    eexists _, _. split; [done|]. split; [by right|].
    intros ->. done.
  - rewrite app_cons, app_nil_l. eexists _, _. split; [done|].
    split; [by left|done].
Qed.

Lemma find_searchDomain_first (pre : string) (d : domainLine) (rest : string) :
  dl_wf d rest → no_domain_keyword pre →
  (dl_open d = "" → last_byte pre ≠ Some "["%char) →
  ∃ caps, find searchDomain (pre +:+ dl_text d rest) = Some (pre, caps, rest)
          ∧ caps !! 3%nat = Some (dl_tld d).
Proof.
  intros Hwf. destruct (searchDomain_takes d rest Hwf) as (f & Hf & Hf3).
  destruct (dl_text_first d rest Hwf) as (x0 & x' & Hx & Hx0 & Hbr).
  unfold no_domain_keyword.
  induction pre as [|c pre IH]; intros Hno Hlast.
  - rewrite app_nil_l. eexists. split.
    + apply find_here. by rewrite Hf.
    + rewrite lookup_insert_ne by done. apply Hf3.
  - cbn [strings.ToLower strings.Contains] in Hno.
    apply orb_false_elim in Hno as [Hp Hc].
    rewrite app_cons, find_skip.
    + destruct IH as (caps & -> & H3); [done| |by exists caps].
      intros Ho. specialize (Hlast Ho). destruct pre; [done|]. exact Hlast.
    + apply run_searchDomain_fail_at.
      * rewrite <- app_cons. by eapply no_keyword_across.
      * intros s' [= -> <-].
        destruct pre as [|c2 pre].
        -- rewrite app_nil_l, Hx. cbn [strings.ToLower strings.HasPrefix].
           destruct (decide (x0 = "["%char)) as [->|Hne]; [done|].
           destruct Hx0 as [Hx0|Hx0].
           ++ by rewrite Hx0.
           ++ exfalso. assert (dl_open d ≠ "") as Ho.
              { intros Ho. by apply (Hlast Ho). }
              destruct Hwf as ([?|Ho'] & _); [done|].
              unfold dl_text in Hx. rewrite Ho', app_cons in Hx.
              injection Hx as <- _. done.
        -- eapply no_keyword_across; [done| |done|done].
           by apply Contains_false_prefix.
Qed.

Lemma last_byte_split (s : string) (c : ascii) :
  last_byte s = Some c → ∃ p, s = p +:+ String c "".
Proof.
  induction s as [|a s IH]; [done|]. destruct s as [|b s].
  - intros [= ->]. by exists "".
  - intros H. destruct (IH H) as [p ->]. exists (String a p). by rewrite app_cons.
Qed.

Lemma no_domain_keyword_prefix (p x : string) :
  no_domain_keyword (p +:+ x) → no_domain_keyword p.
Proof.
  unfold no_domain_keyword. induction p as [|c p IH].
  - intros _. reflexivity.
  - rewrite app_cons. cbn [strings.ToLower strings.Contains].
    intros [Hp Hc]%orb_false_elim. rewrite IH by done. rewrite orb_false_r.
    destruct (strings.HasPrefix (String (strings.lower c) (strings.ToLower p)) "domain")
      eqn:E; [|done].
    apply (HasPrefix_app _ (strings.ToLower x)) in E.
    rewrite ToLower_app in Hp. rewrite app_cons in E. congruence.
Qed.

Lemma detect_first_match (pre : string) (d : domainLine) (rest : string) :
  dl_wf d rest → no_domain_keyword pre →
  detect (pre +:+ dl_text d rest) = Some (Some (strings.ToLower (dl_tld d))).
Proof.
  intros Hwf Hno.
  assert (∃ pre' d', pre +:+ dl_text d rest = pre' +:+ dl_text d' rest
                     ∧ dl_wf d' rest ∧ no_domain_keyword pre'
                     ∧ dl_tld d' = dl_tld d
                     ∧ (dl_open d' = "" → last_byte pre' ≠ Some "["%char))
    as (pre' & d' & -> & Hwf' & Hno' & <- & Hlast).
  { destruct (decide (dl_open d = "" ∧ last_byte pre = Some "["%char))
      as [[Ho Hl]|Hn].
    - apply last_byte_split in Hl as [p ->].
      exists p, (DomainLine "[" (dl_word d) (dl_sp d) (dl_name d) (dl_close d)
                   (dl_gap d) (dl_colon d) (dl_gap' d) (dl_label d) (dl_tld d)).
      split; [|split; [|split; [|split]]].
      + unfold dl_text. cbn. by rewrite Ho, app_assoc.
      + destruct Hwf as (_ & Hwf). split; [by right|exact Hwf].
      + by apply no_domain_keyword_prefix in Hno.
      + done.
      + done.
    - exists pre, d. split; [done|]. split; [done|]. split; [done|].
      split; [done|]. intros Ho Hl. by apply Hn. }
  destruct (find_searchDomain_first pre' d' rest Hwf' Hno' Hlast)
    as (caps & Hfind & H3).
  unfold detect, FindStringSubmatch. rewrite Hfind.
  change (groups searchDomain) with 3%nat. cbn -[searchDomain].
  unfold submatch. by rewrite H3.
Qed.

(** C4, as the code has it, on a response of ASCII bytes: the pattern
    requires the word "Domain"; only the brackets, the word "name" and the
    colon around it are optional.  A response without that word, in any
    letter case, is returned as the pre-pass leaves it, whatever label.tld
    it holds.  A response in which the first occurrence of the word opens a
    line of the pattern's form (optional bracket, the word in any letter
    case, optionally white space and "name", optional bracket, white space,
    optional colon, white space, label, dot, top-level label of two letters
    or more) has the top-level label of that first match detected, in lower
    case, and is handed to the transformer that the label selects. *)
Theorem detector_requires_keyword (Keys : gmap string string → list string)
    (text : string) :
  ascii_text text →
  (no_domain_keyword (prepass text) → Prepare Keys text = Some (prepass text))
  ∧ (∀ pre d rest,
       prepass text = pre +:+ dl_text d rest →
       no_domain_keyword pre → dl_wf d rest →
       detect (prepass text) = Some (Some (strings.ToLower (dl_tld d)))
       ∧ Prepare Keys text
         = match switch (dialects Keys) (strings.ToLower (dl_tld d)) with
           | Some prepare => prepare (prepass text)
           | None => Some (prepass text)
           end).
Proof.
  intros _. split.
  - intros Hno. unfold Prepare. by rewrite detect_none.
  - intros pre d rest Htext Hno Hwf.
    pose proof (detect_first_match pre d rest Hwf Hno) as Hd.
    rewrite <- Htext in Hd.
    split; [exact Hd|]. unfold Prepare. by rewrite Hd.
Qed.

Lemma detector_requires_keyword_witness :
  Prepare Keys_forward (lit "example.edu\r\nRegistrant:\r\n\tExample University\r\n")
  = Some (lit "example.edu\nRegistrant:\n Example University\n")
  ∧ Prepare Keys_forward
      (lit "% whois\n[domain NAME] : example.EDU\nRegistrant:\nExample University\n")
    = Some (lit "\n% whois\n[domain NAME] : example.EDU\nRegistrant Organization: Example University")
  ∧ Prepare Keys_forward
      (lit "Record for Domain name.edu\nRegistrant:\nExample University\n")
    = Some (lit "\nRecord for Domain name.edu\nRegistrant Organization: Example University").
Proof.
  split; [|split].
  - assert (ascii_text (lit "example.edu\r\nRegistrant:\r\n\tExample University\r\n"))
      as Ha by (vm_compute; reflexivity).
    destruct (detector_requires_keyword Keys_forward _ Ha) as [-> _].
    + vm_compute. reflexivity.
    + vm_compute. reflexivity.
  - assert (ascii_text
              (lit "% whois\n[domain NAME] : example.EDU\nRegistrant:\nExample University\n"))
      as Ha by (vm_compute; reflexivity).
    destruct (detector_requires_keyword Keys_forward _ Ha) as [_ H].
    destruct (H (lit "% whois\n")
                (DomainLine "[" "domain" " " "NAME" "]" " " ":" " " "example" "EDU")
                (lit "\nRegistrant:\nExample University\n")) as [_ ->].
    + vm_compute. reflexivity.
    + vm_compute. reflexivity.
    + unfold dl_wf.
      cbn [dl_open dl_word dl_sp dl_name dl_close dl_gap dl_colon dl_gap'
           dl_label dl_tld].
      split; [by right|]. split; [vm_compute; reflexivity|].
      split; [right; split; [done|split; vm_compute; reflexivity]|].
      split; [by right|]. split; [vm_compute; reflexivity|].
      split; [by left|]. split; [vm_compute; reflexivity|].
      split; [done|]. split; [vm_compute; reflexivity|].
      split; [vm_compute; lia|]. split; vm_compute; reflexivity.
    + vm_compute. reflexivity.
  - assert (ascii_text
              (lit "Record for Domain name.edu\nRegistrant:\nExample University\n"))
      as Ha by (vm_compute; reflexivity).
    destruct (detector_requires_keyword Keys_forward _ Ha) as [_ H].
    destruct (H "Record for "
                (DomainLine "" "Domain" "" "" "" " " "" "" "name" "edu")
                (lit "\nRegistrant:\nExample University\n")) as [_ ->].
    + vm_compute. reflexivity.
    + vm_compute. reflexivity.
    + unfold dl_wf.
      cbn [dl_open dl_word dl_sp dl_name dl_close dl_gap dl_colon dl_gap'
           dl_label dl_tld].
      split; [by left|]. split; [vm_compute; reflexivity|].
      split; [by left|].
      split; [by left|]. split; [vm_compute; reflexivity|].
      split; [by right|]. split; [vm_compute; reflexivity|].
      split; [done|]. split; [vm_compute; reflexivity|].
      split; [vm_compute; lia|]. split; vm_compute; reflexivity.
    + vm_compute. reflexivity.
Defined.

(** C4 as stated fails: a response that holds a bare "example.edu" and no
    "Domain" keyword is not given to the EDU transformer; it is returned
    unchanged. *)
Lemma bare_domain_not_detected :
  FindStringSubmatch searchDomain
    (lit "example.edu\nRegistrant:\nExample University\n") = []
  ∧ Prepare Keys_forward (lit "example.edu\nRegistrant:\nExample University\n")
    = Some (lit "example.edu\nRegistrant:\nExample University\n")
  ∧ prepareEDU (lit "example.edu\nRegistrant:\nExample University\n")
    = Some (lit "\nexample.edu\nRegistrant Organization: Example University")
  ∧ Prepare Keys_forward (lit "example.edu\nRegistrant:\nExample University\n")
    ≠ prepareEDU (lit "example.edu\nRegistrant:\nExample University\n").
Proof. repeat split; vm_compute; (reflexivity || discriminate). Qed.

(** ** The FR transformer and the order of [Keys] *)

Lemma Keys_forward_enumerates : enumerates_keys Keys_forward.
Proof. by intros m. Qed.

Lemma Keys_backward_enumerates : enumerates_keys Keys_backward.
Proof. intros m. unfold Keys_backward. apply reverse_Permutation. Qed.

Lemma fr_correlate_no_value (vs : list string) (hdls : gmap string string)
    (keys : list string) :
  index_at vs 1 = None →
  fr_correlate vs hdls keys = match keys with [] => Some None | _ => None end.
Proof. intros Hv. destruct keys; simpl; [done|]. by rewrite Hv. Qed.

Lemma fr_correlate_value (vs : list string) (hdls : gmap string string)
    (keys : list string) (x : string) :
  index_at vs 1 = Some x →
  fr_correlate vs hdls keys
  = Some (head (filter (λ kk, strings.TrimSpace x = map_get hdls kk) keys)).
Proof.
  intros Hv. induction keys as [|kk keys IH]; simpl; [done|].
  rewrite Hv. simpl. rewrite filter_cons.
  destruct (decide (strings.TrimSpace x = map_get hdls kk)); [done|].
  exact IH.
Qed.

Lemma switch_dialects_order (Keys1 Keys2 : gmap string string → list string)
    (tld : string) :
  (tld ∈ frLabels
   ∧ switch (dialects Keys1) tld = Some (prepareFR Keys1)
   ∧ switch (dialects Keys2) tld = Some (prepareFR Keys2))
  ∨ switch (dialects Keys1) tld = switch (dialects Keys2) tld.
Proof.
  destruct (decide (tld ∈ frLabels)) as [Hin|Hout].
  - left. split; [done|]. unfold frLabels in Hin.
    rewrite !elem_of_cons, elem_of_nil in Hin.
    destruct Hin as [->|[->|[->|[->|[->|[->|[]]]]]]]; by split.
  - right. unfold dialects. simpl.
    repeat (case_bool_decide; [done|]). done.
Qed.

Lemma Prepare_dispatch (Keys : gmap string string → list string)
    (text : string) :
  Prepare Keys text
  = match detect (prepass text) with
    | Some (Some tld) =>
        match switch (dialects Keys) tld with
        | Some prepare => prepare (prepass text)
        | None => Some (prepass text)
        end
    | Some None => Some (prepass text)
    | None => None
    end.
Proof. unfold Prepare. by destruct (detect (prepass text)) as [[?|]|]. Qed.

Lemma Keys_sorted_order (range1 range2 : gmap string string → list string)
    (m : gmap string string) :
  enumerates_keys range1 → enumerates_keys range2 →
  Keys_sorted range1 m = Keys_sorted range2 m.
Proof.
  intros H1 H2. unfold Keys_sorted.
  apply (Sorted_unique String.le); try apply Sorted_merge_sort; try apply _.
  rewrite !merge_sort_Permutation. by rewrite (H1 m), (H2 m).
Qed.






Lemma fr_correlate_ext (Keys1 Keys2 : gmap string string → list string)
    (st : frState) (v : string) :
  (∀ m, Keys1 m = Keys2 m) →
  prepareFR_line Keys1 st v = prepareFR_line Keys2 st v.
Proof.
  intros Hext. unfold prepareFR_line.
  destruct (decide (strings.TrimSpace v = "")); [done|].
  destruct (index_at (strings.Split (strings.TrimSpace v) ":") 0)
    as [k|] eqn:Hk; [|done].
  cbn [mbind option_bind].
  destruct (decide (strings.TrimSpace k = hdlToken)) as [Hhdl|Hhdl].
  - rewrite Hhdl. change (bool_decide (hdlToken = regToken)) with false.
    rewrite andb_false_r.
    change (frTokens !! hdlToken) with (@None string).
    change (bool_decide (hdlToken = dsToken)) with false.
    change (bool_decide (hdlToken = hdlToken)) with true.
    cbn [mbind option_bind]. by rewrite Hext.
  - by rewrite (bool_decide_eq_false_2 (strings.TrimSpace k = hdlToken)).
Qed.

Lemma range_lines_ext {S : Type} (f g : S → string → option S)
    (lines : list string) (st : S) :
  (∀ st v, f st v = g st v) → range_lines f st lines = range_lines g st lines.
Proof.
  intros Hfg. revert st. induction lines as [|v rest IH]; intros st; [done|].
  simpl. rewrite Hfg. destruct (g st v); [|done]. simpl. apply IH.
Qed.

(** C9: [Prepare] keeps no state and reads nothing but its input; what Go
    leaves open from one invocation to the next is the order in which the
    run time walks the handle map, and [Keys] sorts what it gathers.  So
    two invocations on the same input return the same result, whatever
    order each walks the map in, also on an FR response in which the value
    of a "nic-hdl" line is the handle of two roles. *)
Theorem Prepare_same_whatever_map_order
    (range1 range2 : gmap string string → list string) (text : string) :
  enumerates_keys range1 → enumerates_keys range2 →
  Prepare (Keys_sorted range1) text = Prepare (Keys_sorted range2) text.
Proof.
  intros H1 H2. rewrite !Prepare_dispatch.
  destruct (detect (prepass text)) as [[tld|]|]; try done.
  destruct (switch_dialects_order (Keys_sorted range1) (Keys_sorted range2) tld)
    as [(Hin & -> & ->)| ->]; [|done].
  unfold prepareFR. f_equal. apply range_lines_ext. intros st v.
  apply fr_correlate_ext. intros m. by apply Keys_sorted_order.
Qed.

Lemma Prepare_same_whatever_map_order_witness :
  Prepare (Keys_sorted Keys_forward)
    (lit "domain: example.fr\nadmin-c: AB1-FRNIC\ntech-c: AB1-FRNIC\n\nnic-hdl: AB1-FRNIC\ncontact: Alice\n")
  = Prepare (Keys_sorted Keys_backward)
      (lit "domain: example.fr\nadmin-c: AB1-FRNIC\ntech-c: AB1-FRNIC\n\nnic-hdl: AB1-FRNIC\ncontact: Alice\n").
Proof.
  apply (Prepare_same_whatever_map_order Keys_forward Keys_backward
           (lit "domain: example.fr\nadmin-c: AB1-FRNIC\ntech-c: AB1-FRNIC\n\nnic-hdl: AB1-FRNIC\ncontact: Alice\n")).
  - exact Keys_forward_enumerates.
  - exact Keys_backward_enumerates.
Defined.

(** ** The FR transformer: correlation of a handle *)

Lemma Sprintf_line (a b : string) :
  Sprintf (lit "\n%s%s") [a; b] = lit "\n" +:+ a +:+ b.
Proof.
  change (Sprintf (lit "\n%s%s") [a; b]) with (String LF (a +:+ b +:+ "")).
  by rewrite app_nil_r.
Qed.


Lemma frTokens_lookup_None (k : string) :
  k ∉ ["holder-c"; "admin-c"; "tech-c"; dsToken] → frTokens !! k = None.
Proof.
  intros Hk. unfold frTokens. apply not_elem_of_list_to_map_1.
  simpl. rewrite !elem_of_cons, elem_of_nil in *. tauto.
Qed.

Lemma prepareFR_line_quiet (Keys : gmap string string → list string)
    (st : frState) (v : string) :
  fr_quiet v = true →
  ∃ newBlock hdls,
    prepareFR_line Keys st v
    = Some (FrState (fr_token st) newBlock hdls
              (fr_result st +:+ fr_written (fr_token st) v)).
Proof.
  unfold fr_quiet, fr_written, prepareFR_line. intros Hq.
  destruct (decide (strings.TrimSpace v = "")) as [Hv|Hv].
  { eexists _, _. by rewrite app_nil_r. }
  rewrite bool_decide_eq_false_2 in Hq by done. simpl in Hq.
  unfold fr_key, fr_value, fr_fields in *.
  destruct (index_at (strings.Split (strings.TrimSpace v) ":") 0)
    as [k|] eqn:Hk; [|done].
  simpl in Hq. apply andb_prop in Hq as [Hq Hval].
  apply andb_prop in Hq as [Hreg Hhdl].
  apply bool_decide_eq_true_1 in Hreg, Hhdl.
  cbn [mbind option_bind fmap option_fmap option_map].
  rewrite (bool_decide_eq_false_2 (_ = regToken)) by done.
  rewrite andb_false_r.
  rewrite (bool_decide_eq_false_2 (_ = hdlToken)) by done.
  destruct (index_at (strings.Split (strings.TrimSpace v) ":") 1)
    as [x|] eqn:Hx; cbn [mbind option_bind fmap option_fmap option_map].
  - destruct (frTokens !! strings.TrimSpace k);
      cbn [mbind option_bind]; rewrite ?Sprintf_line;
      repeat case_bool_decide; simplify_eq; cbn [mbind option_bind andb];
      rewrite ?Sprintf_line, ?app_nil_r; try (by eexists _, _);
      exfalso; congruence.
  - apply orb_prop in Hval as [Hval|Hval];
      [apply bool_decide_eq_true_1 in Hval
      |apply bool_decide_eq_true_1 in Hval; by destruct Hval].
    rewrite frTokens_lookup_None by done. cbn [mbind option_bind].
    rewrite (bool_decide_eq_false_2 (_ = dsToken))
      by (intros Heq; apply Hval; rewrite Heq, !elem_of_cons; tauto).
    cbn [mbind option_bind]. rewrite Sprintf_line.
    rewrite (bool_decide_eq_false_2 (Some _ = Some dsToken))
      by (intros [= Heq]; apply Hval; rewrite Heq, !elem_of_cons; tauto).
    simpl. rewrite app_nil_r. by eexists _, _.
Qed.

Lemma prepareFR_run_quiet (Keys : gmap string string → list string)
    (rest : list string) (st : frState) :
  forallb fr_quiet rest = true →
  ∃ st',
    range_lines (prepareFR_line Keys) st rest = Some st'
    ∧ fr_token st' = fr_token st
    ∧ fr_result st' = fr_result st +:+ fr_written_all (fr_token st) rest.
Proof.
  revert st. induction rest as [|v rest IH]; intros st Hq.
  - exists st. simpl. by rewrite app_nil_r.
  - simpl in Hq. apply andb_prop in Hq as [Hv Hrest].
    destruct (prepareFR_line_quiet Keys st v Hv) as (nb & hdls & Hstep).
    simpl. rewrite Hstep. simpl.
    destruct (IH (FrState (fr_token st) nb hdls
                    (fr_result st +:+ fr_written (fr_token st) v)) Hrest)
      as (st' & Hrun & Htok & Hres).
    exists st'. split; [done|]. split; [done|].
    rewrite Hres. simpl. by rewrite app_assoc.
Qed.








Lemma range_lines_app {S : Type} (body : S → string → option S)
    (l1 l2 : list string) (st : S) :
  range_lines body st (l1 ++ l2)
  = st' ← range_lines body st l1; range_lines body st' l2.
Proof.
  revert st. induction l1 as [|v l1 IH]; intros st; [done|].
  simpl. destruct (body st v); [|done]. simpl. apply IH.
Qed.





(** ** Reads that cannot fail *)

Lemma split_go_nonempty (sep : string) (skip : nat) (n : option nat)
    (s : string) :
  ∃ p ps, strings.split_go sep skip n s = p :: ps.
Proof.
  revert skip n. induction s as [|c s IH]; intros skip n; simpl; [by eexists _, _|].
  destruct skip as [|k]; [|apply IH].
  destruct (_ && _); [by eexists _, _|].
  destruct (IH 0%nat n) as (p & ps & ->). by eexists _, _.
Qed.

Lemma index_at_Split_0 (s sep : string) :
  ∃ k, index_at (strings.Split s sep) 0 = Some k.
Proof.
  unfold strings.Split. destruct (split_go_nonempty sep 0 None s) as (p & ps & ->).
  by exists p.
Qed.

Lemma split_go_colon_two (n : option nat) (s : string) :
  strings.cuts_left n = true → strings.Contains s ":" = true →
  ∃ a b rest, strings.split_go ":" 0 n s = a :: b :: rest.
Proof.
  intros Hn. induction s as [|c s IH]; simpl; [done|].
  rewrite Hn. simpl. rewrite andb_true_r.
  destruct (Ascii.eqb c ":") eqn:Hc; simpl.
  - intros _. destruct (split_go_nonempty ":" 0 (strings.one_cut_less n) s)
      as (p & ps & ->). by eexists _, _, _.
  - intros (a & b & rest & ->)%IH. by eexists _, _, _.
Qed.

Lemma index_at_Split_1 (s : string) :
  strings.Contains s ":" = true →
  ∃ x, index_at (strings.Split s ":") 1 = Some x.
Proof.
  intros Hc. unfold strings.Split.
  destruct (split_go_colon_two None s eq_refl Hc) as (a & b & rest & ->).
  by exists b.
Qed.

Lemma index_at_SplitN_0 (s sep : string) :
  ∃ k, index_at (strings.SplitN s sep 2) 0 = Some k.
Proof.
  unfold strings.SplitN. simpl.
  destruct (split_go_nonempty sep 0 (Some 1%nat) s) as (p & ps & ->).
  by exists p.
Qed.

Lemma index_at_SplitN_1 (s : string) :
  strings.Contains s ":" = true →
  ∃ x, index_at (strings.SplitN s ":" 2) 1 = Some x.
Proof.
  intros Hc. unfold strings.SplitN. simpl.
  destruct (split_go_colon_two (Some 1%nat) s eq_refl Hc) as (a & b & rest & ->).
  by exists b.
Qed.

Lemma byte_at_0 (s : string) : s ≠ "" → ∃ c, strings.byte_at s 0 = Some c.
Proof. destruct s as [|c s]; [done|]. by exists c. Qed.

Lemma range_lines_total {S : Type} (body : S → string → option S) :
  (∀ st v, is_Some (body st v)) →
  ∀ lines st, is_Some (range_lines body st lines).
Proof.
  intros Hbody lines. induction lines as [|v rest IH]; intros st; simpl; [done|].
  destruct (Hbody st v) as [st' ->]. simpl. apply IH.
Qed.

Ltac finish_some := repeat (case_match; simpl); eauto.

Lemma prepareINT_line_total (st : intState) (v : string) :
  is_Some (prepareINT_line st v).
Proof.
  unfold prepareINT_line.
  destruct (decide (strings.TrimSpace v = "")); [eauto|].
  destruct (strings.Contains _ ":") eqn:Hc; [|simpl; eauto].
  destruct (index_at_Split_0 (strings.TrimSpace v) ":") as [k ->].
  destruct (index_at_Split_1 _ Hc) as [x ->]. simpl. finish_some.
Qed.

Lemma prepareMO_line_total (st : moState) (v : string) :
  is_Some (prepareMO_line st v).
Proof.
  unfold prepareMO_line.
  destruct (decide (strings.TrimSpace v = "")) as [|Hv]; [eauto|].
  destruct (byte_at_0 _ Hv) as [c ->]. simpl. finish_some.
Qed.

Lemma prepareIT_line_total (st : itState) (v : string) :
  is_Some (prepareIT_line st v).
Proof.
  unfold prepareIT_line.
  destruct (decide (strings.TrimSpace v = "")) as [|Hv]; [eauto|].
  destruct (IsContains _ _); [eauto|].
  destruct (byte_at_0 _ Hv) as [c ->]. simpl.
  destruct (index_at_Split_0 (strings.TrimSpace v) ":") as [k ->]. simpl.
  finish_some.
Qed.

Lemma prepareRU_line_total (result v : string) :
  is_Some (prepareRU_line result v).
Proof.
  unfold prepareRU_line.
  destruct (decide (strings.TrimSpace v = "")); [eauto|].
  destruct (strings.Contains _ ":") eqn:Hc; [|simpl; eauto]. simpl.
  destruct (index_at_Split_0 (strings.TrimSpace v) ":") as [k ->].
  destruct (index_at_Split_1 _ Hc) as [x ->]. simpl. finish_some.
Qed.

Lemma prepareJP_line_total (st : jpState) (v : string) :
  is_Some (prepareJP_line st v).
Proof.
  unfold prepareJP_line.
  destruct (decide (strings.TrimSpace v = "")); [eauto|].
  destruct (index_at_Split_0 (strings.TrimSpace v) ":") as [k ->]. simpl.
  finish_some.
Qed.

Lemma rewrite_key_total (tokens : gmap string string) (v : string) :
  is_Some (rewrite_key tokens v).
Proof.
  unfold rewrite_key. destruct (strings.Contains v ":") eqn:Hc; [|eauto].
  destruct (index_at_SplitN_0 v ":") as [k ->].
  destruct (index_at_SplitN_1 _ Hc) as [x ->]. simpl. finish_some.
Qed.

Lemma prepareUK_line_total (result v : string) :
  is_Some (prepareUK_line result v).
Proof.
  unfold prepareUK_line.
  destruct (decide (strings.TrimSpace v = "")); [eauto|].
  destruct (rewrite_key_total ukTokens (strings.TrimSpace v)) as [w ->].
  simpl. eauto.
Qed.

Lemma prepareKR_line_total (result v : string) :
  is_Some (prepareKR_line result v).
Proof.
  unfold prepareKR_line.
  destruct (decide (strings.TrimSpace v = "")) as [|Hv]; [eauto|].
  destruct (byte_at_0 _ Hv) as [c ->]. simpl.
  destruct (_ || _); [eauto|].
  destruct (rewrite_key_total krTokens (strings.TrimSpace v)) as [w ->].
  simpl. eauto.
Qed.

Lemma FindStringSubmatch_length (r : re) (s : string) :
  FindStringSubmatch r s = []
  ∨ length (FindStringSubmatch r s) = S (groups r).
Proof.
  unfold FindStringSubmatch. destruct (find r s) as [[[pre caps] post]|]; [|by left].
  right. by rewrite length_fmap, length_seq.
Qed.

Lemma index_at_lt {A : Type} (l : list A) (i : Z) :
  0 ≤ i < Z.of_nat (length l) → is_Some (index_at l i).
Proof.
  intros Hi. unfold index_at.
  destruct (0 <=? i) eqn:H0; [|lia]. apply lookup_lt_is_Some. lia.
Qed.

Lemma hk_registrar_contact_total (v rest : string) :
  is_Some (hk_registrar_contact v rest).
Proof.
  unfold hk_registrar_contact.
  destruct (Z.of_nat (length _) =? 4) eqn:Hlen; [|eauto].
  apply Z.eqb_eq in Hlen.
  destruct (index_at_lt (FindStringSubmatch hkContact rest) 1) as [m1 ->]; [lia|].
  destruct (index_at_lt (FindStringSubmatch hkContact rest) 3) as [m3 ->]; [lia|].
  simpl. eauto.
Qed.

Lemma prepareHK_line_total (st : hkState) (v : string) :
  is_Some (prepareHK_line st v).
Proof.
  unfold prepareHK_line.
  destruct (decide (strings.TrimSpace v = "")); [eauto|].
  destruct (strings.Contains _ ":") eqn:Hc; [|finish_some].
  destruct (index_at_SplitN_0 (strings.TrimSpace v) ":") as [k ->].
  destruct (index_at_SplitN_1 _ Hc) as [x ->]. simpl.
  destruct (index_at_Split_0 (strings.TrimSpace k) "(") as [f ->]. simpl.
  destruct (strings.Contains (strings.TrimSpace k) "("); simpl.
  all: repeat match goal with
       | |- context [hk_registrar_contact ?a ?b] =>
           destruct (hk_registrar_contact_total a b) as [? ->]
       end.
  all: finish_some.
Qed.

Lemma HasPrefix_length (s p : string) :
  strings.HasPrefix s p = true → (String.length p ≤ String.length s)%nat.
Proof.
  revert s. induction p as [|c p IH]; intros [|a s]; simpl; try done; [lia|].
  intros [_ H]%andb_prop. apply IH in H. lia.
Qed.

Lemma ToLower_length (s : string) :
  String.length (strings.ToLower s) = String.length s.
Proof. induction s as [|c s IH]; simpl; [done|]. by rewrite IH. Qed.

Lemma ch_match_total (v : string) (tokens : list string) :
  is_Some (ch_match v tokens).
Proof.
  induction tokens as [|t rest IH]; simpl; [eauto|].
  destruct (strings.HasPrefix _ _) eqn:Hp; [|exact IH].
  apply HasPrefix_length in Hp.
  rewrite ToLower_length, !length_app, ToLower_length in Hp. simpl in Hp.
  unfold strings.slice_from, strings.len.
  destruct (_ && _) eqn:Hb; [simpl; eauto|].
  apply andb_false_iff in Hb as [Hb|Hb]; [apply Z.leb_gt in Hb|apply Z.leb_gt in Hb]; lia.
Qed.

Lemma prepareCH_line_total (result v : string) :
  is_Some (prepareCH_line result v).
Proof.
  unfold prepareCH_line.
  destruct (decide (strings.TrimSpace v = "")); [eauto|].
  destruct (ch_match_total (strings.TrimSpace v) chTokens) as [chunk ->].
  simpl. eauto.
Qed.

Lemma ch_zip_total (ss vv results : list string) :
  (length vv ≤ length ss)%nat → is_Some (ch_zip ss vv results).
Proof.
  intros Hlen. unfold ch_zip.
  assert (∀ (ks : list nat) acc,
            Forall (λ k, k < length vv)%nat ks → is_Some acc →
            is_Some (foldl (λ acc k,
                              results ← acc; s ← ss !! k; x ← vv !! k;
                              Some (results ++ [Sprintf "%s: %s" [s; x]]))
                       acc ks)) as Hfold.
  { induction ks as [|k ks IH]; intros acc Hks Hacc; [done|].
    simpl. apply IH; [by inversion Hks|].
    destruct Hacc as [r ->]. simpl. inversion Hks as [|?? Hk _]; subst.
    destruct (lookup_lt_is_Some_2 ss k) as [s ->]; [lia|].
    destruct (lookup_lt_is_Some_2 vv k) as [x ->]; [lia|]. simpl. eauto. }
  apply Hfold; [|eauto].
  apply Forall_forall. intros k Hk%elem_of_seq. lia.
Qed.

Lemma chSplits_three (k sp : string) :
  chSplits !! k = Some sp → length (strings.Split sp ", ") = 3%nat.
Proof.
  unfold chSplits. intros H%elem_of_list_to_map_2.
  rewrite !elem_of_cons, elem_of_nil in H.
  destruct H as [H|[H|[]]]; by simplify_eq.
Qed.

Lemma slice_from_ok {A : Type} (l : list A) (lo : Z) :
  0 ≤ lo ≤ Z.of_nat (length l) → slice_from l lo = Some (drop (Z.to_nat lo) l).
Proof.
  intros Hlo. unfold slice_from.
  by rewrite (proj2 (Z.leb_le _ _)), (proj2 (Z.leb_le _ _)) by lia.
Qed.

Lemma slice_to_ok {A : Type} (l : list A) (hi : Z) :
  0 ≤ hi ≤ Z.of_nat (length l) → slice_to l hi = Some (take (Z.to_nat hi) l).
Proof.
  intros Hhi. unfold slice_to.
  by rewrite (proj2 (Z.leb_le _ _)), (proj2 (Z.leb_le _ _)) by lia.
Qed.

Lemma assign_at_ok {A : Type} (l : list A) (i : Z) (x : A) :
  0 ≤ i < Z.of_nat (length l) → assign_at l i x = Some (<[Z.to_nat i := x]> l).
Proof.
  intros Hi. unfold assign_at.
  by rewrite (proj2 (Z.leb_le _ _)), (proj2 (Z.ltb_lt _ _)) by lia.
Qed.

Lemma prepareCH_split_total (results : list string) (v : string) :
  is_Some (prepareCH_split results v).
Proof.
  unfold prepareCH_split.
  destruct (strings.Contains v ":") eqn:Hc; [|simpl; eauto]. simpl.
  destruct (index_at_Split_0 v ":") as [k ->].
  destruct (index_at_Split_1 _ Hc) as [x ->]. simpl.
  destruct (chSplits !! k) as [sp|] eqn:Hsp; [|eauto].
  apply chSplits_three in Hsp. rewrite Hsp.
  set (vv := strings.Split x ", "). set (ss := strings.Split sp ", ") in *.
  destruct (Z.of_nat (length vv) >? Z.of_nat 3) eqn:Hgt.
  - apply Z.gtb_lt in Hgt.
    rewrite slice_from_ok by lia. cbn [mbind option_bind].
    rewrite assign_at_ok by lia. cbn [mbind option_bind].
    rewrite slice_to_ok by (rewrite length_insert; lia).
    cbn [mbind option_bind].
    apply ch_zip_total. rewrite length_take, length_insert. lia.
  - simpl. apply ch_zip_total. rewrite Z.gtb_ltb in Hgt.
    apply Z.ltb_ge in Hgt. lia.
Qed.

Lemma Index_bounds (s sub : string) :
  strings.Index s sub ≠ -1 →
  0 ≤ strings.Index s sub ∧ strings.Index s sub + strings.len sub ≤ strings.len s.
Proof.
  unfold strings.len. induction s as [|c s IH]; simpl.
  - destruct (strings.HasPrefix "" sub) eqn:Hp; [|done].
    apply HasPrefix_length in Hp. simpl in Hp. lia.
  - destruct (strings.HasPrefix (String c s) sub) eqn:Hp.
    + apply HasPrefix_length in Hp. simpl in Hp. lia.
    + destruct (strings.Index s sub =? -1) eqn:Hi; [done|].
      apply Z.eqb_neq in Hi. intros _. specialize (IH Hi). lia.
Qed.

(** ** Transformers that return on every input *)

Lemma line_rewriters_total (text : string) :
  is_Some (prepareINT text) ∧ is_Some (prepareMO text)
  ∧ is_Some (prepareIT text) ∧ is_Some (prepareRU text)
  ∧ is_Some (prepareJP text) ∧ is_Some (prepareUK text).
Proof.
  unfold prepareINT, prepareMO, prepareIT, prepareRU, prepareJP, prepareUK.
  repeat split; try apply fmap_is_Some; apply range_lines_total;
    auto using prepareINT_line_total, prepareMO_line_total,
      prepareIT_line_total, prepareRU_line_total, prepareJP_line_total,
      prepareUK_line_total.
Qed.

(** X2: the transformers that rewrite one line at a time and read a field only
    after checking for the colon return on every input. *)
Theorem line_rewriters_return (text : string) :
  is_Some (prepareINT text) ∧ is_Some (prepareMO text)
  ∧ is_Some (prepareIT text) ∧ is_Some (prepareRU text)
  ∧ is_Some (prepareJP text) ∧ is_Some (prepareUK text).
Proof. exact (line_rewriters_total text). Qed.

Lemma prepareKR_total (text : string) : is_Some (prepareKR text).
Proof.
  unfold prepareKR.
  destruct (decide (strings.Index text krEnglish ≠ -1)) as [Hpos|_].
  - apply Index_bounds in Hpos. unfold strings.slice_from.
    rewrite (proj2 (Z.leb_le _ _)), (proj2 (Z.leb_le _ _))
      by (unfold strings.len in *; lia).
    simpl. apply range_lines_total, prepareKR_line_total.
  - simpl. apply range_lines_total, prepareKR_line_total.
Qed.

(** X3: [prepareKR] returns on every input: when the "# ENGLISH" marker is
    found, the slice that starts after it is within the text. *)
Theorem prepareKR_returns (text : string) : is_Some (prepareKR text).
Proof. exact (prepareKR_total text). Qed.

Lemma prepareHK_total (text : string) : is_Some (prepareHK text).
Proof.
  unfold prepareHK. apply fmap_is_Some, range_lines_total, prepareHK_line_total.
Qed.

(** X4: [prepareHK] returns on every input: the fields of a line are read under
    the colon test, and the groups of the contact pattern only after the
    match is known to have its four entries. *)
Theorem prepareHK_returns (text : string) : is_Some (prepareHK text).
Proof. exact (prepareHK_total text). Qed.

Lemma prepareCH_total (text : string) : is_Some (prepareCH text).
Proof.
  unfold prepareCH.
  destruct (range_lines_total prepareCH_line prepareCH_line_total
              (lines_of text) "") as [result ->]. simpl.
  destruct (range_lines_total prepareCH_split prepareCH_split_total
              (lines_of result) []) as [results ->]. simpl. eauto.
Qed.

(** X5: [prepareCH] returns on every input: a line is sliced at the length of a
    token only when the token prefixes it, and the sub-field names are
    indexed only up to their number. *)
Theorem prepareCH_returns (text : string) : is_Some (prepareCH text).
Proof. exact (prepareCH_total text). Qed.

Lemma detect_total (text : string) : is_Some (detect text).
Proof.
  unfold detect.
  destruct (FindStringSubmatch_length searchDomain text) as [-> | Hlen];
    [simpl; eauto|].
  change (groups searchDomain) with 3%nat in Hlen. rewrite Hlen.
  change (Z.of_nat 4 >? 0) with true. cbv iota.
  destruct (index_at_lt (FindStringSubmatch searchDomain text) 3) as [tld ->];
    [lia|].
  simpl. eauto.
Qed.

(** X6: [Prepare] returns on every input of ASCII bytes that it does not hand
    to the EDU, the TW or the FR transformer. *)
Theorem Prepare_returns_outside_schema_dialects
    (Keys : gmap string string → list string) (text : string) :
  ascii_text text →
  (∀ tld, detect (prepass text) = Some (Some tld) →
          tld ∉ ["edu"; "tw"] ++ frLabels) →
  is_Some (Prepare Keys text).
Proof.
  intros _ Hno. rewrite Prepare_dispatch.
  destruct (detect_total (prepass text)) as [[tld|] Hd]; rewrite Hd; [|eauto].
  specialize (Hno tld Hd). unfold frLabels in Hno. simpl in Hno.
  rewrite !elem_of_cons, elem_of_nil in Hno.
  unfold dialects. simpl.
  destruct (line_rewriters_total (prepass text)) as (?&?&?&?&?&?).
  repeat (case_bool_decide as Hin;
          [rewrite ?elem_of_cons, ?elem_of_nil in Hin;
           first [done|exfalso; tauto
                 |apply prepareHK_total|apply prepareCH_total
                 |apply prepareKR_total]
          |clear Hin]).
  eauto.
Qed.

Lemma range_lines_total_on {S : Type} (body : S → string → option S)
    (P : string → Prop) :
  (∀ st v, P v → is_Some (body st v)) →
  ∀ lines st, Forall P lines → is_Some (range_lines body st lines).
Proof.
  intros Hbody lines. induction lines as [|v rest IH]; intros st Hall; [done|].
  inversion Hall as [|?? Hv Hrest]; subst. simpl.
  destruct (Hbody st v Hv) as [st' ->]. simpl. by apply IH.
Qed.

Lemma fr_correlate_total (vs : list string) (hdls : gmap string string)
    (keys : list string) :
  is_Some (index_at vs 1) → is_Some (fr_correlate vs hdls keys).
Proof. intros [x Hx]. rewrite (fr_correlate_value _ _ _ x) by done. eauto. Qed.

Lemma prepareFR_line_total (Keys : gmap string string → list string)
    (st : frState) (v : string) :
  strings.TrimSpace v = "" ∨ strings.Contains (strings.TrimSpace v) ":" = true →
  is_Some (prepareFR_line Keys st v).
Proof.
  intros Hv. unfold prepareFR_line.
  destruct (decide (strings.TrimSpace v = "")) as [|Hne]; [eauto|].
  destruct Hv as [Hv|Hc]; [done|].
  destruct (index_at_Split_0 (strings.TrimSpace v) ":") as [k ->].
  destruct (index_at_Split_1 _ Hc) as [x Hx]. rewrite Hx.
  cbn [mbind option_bind].
  destruct (_ && _); cbn [mbind option_bind];
    (destruct (frTokens !! _); cbn [mbind option_bind]);
    (destruct (bool_decide (_ = dsToken)); cbn [mbind option_bind]);
    try (destruct (bool_decide (_ ≠ "")); cbn [mbind option_bind]);
    (destruct (bool_decide (_ = hdlToken)); cbn [mbind option_bind]; [|eauto]).
  all: match goal with
       | |- context [fr_correlate ?vs ?h ?ks] =>
           destruct (fr_correlate_total vs h ks) as [[kk|] ->]; [by rewrite Hx|..]
       end; cbn [mbind option_bind]; eauto.
Qed.

(** X7: [prepareFR] returns on every input in which each line that is not blank
    has a colon, whatever order [Keys] lists the handle map in. *)
Theorem prepareFR_returns_on_keyed_lines
    (Keys : gmap string string → list string) (text : string) :
  Forall (λ v, strings.TrimSpace v = ""
               ∨ strings.Contains (strings.TrimSpace v) ":" = true)
    (lines_of text) →
  is_Some (prepareFR Keys text).
Proof.
  intros Hall. unfold prepareFR. apply fmap_is_Some.
  by apply (range_lines_total_on _ _ (prepareFR_line_total Keys)).
Qed.

(** ** Bytes and lines *)

Lemma has_byte_app (c : ascii) (a b : string) :
  has_byte c (a +:+ b) = has_byte c a || has_byte c b.
Proof.
  induction a as [|d a IH]; [done|]. rewrite app_cons. simpl.
  by rewrite IH, orb_assoc.
Qed.

Lemma split_go_bytes (d : ascii) (sep : string) (s : string) :
  has_byte d s = false →
  ∀ skip n, Forall (λ p, has_byte d p = false) (strings.split_go sep skip n s).
Proof.
  induction s as [|c s IH]; intros Hd skip n; simpl.
  - by repeat constructor.
  - simpl in Hd. apply orb_false_elim in Hd as [Hc Hs].
    destruct skip as [|k]; [|by apply IH].
    destruct (_ && _); [constructor; [done|by apply IH]|].
    specialize (IH Hs 0%nat n).
    destruct (strings.split_go sep 0 n s) as [|p ps]; simpl.
    + repeat constructor. simpl. by rewrite Hc.
    + inversion IH; subst. constructor; [|done]. simpl. by rewrite Hc.
Qed.

Lemma split_byte_pieces (c : ascii) (s : string) :
  Forall (λ p, has_byte c p = false) (strings.Split s (String c "")).
Proof.
  unfold strings.Split. induction s as [|a s IH]; simpl.
  - by repeat constructor.
  - rewrite andb_true_r. destruct (Ascii.eqb a c) eqn:Ha.
    + by constructor.
    + destruct (strings.split_go (String c "") 0 None s) as [|p ps]; simpl.
      * repeat constructor. simpl. by rewrite Ha.
      * inversion IH; subst. constructor; [|done]. simpl. by rewrite Ha.
Qed.

Lemma Split_no_byte (c : ascii) (s : string) :
  has_byte c s = false → strings.Split s (String c "") = [s].
Proof.
  unfold strings.Split. induction s as [|a s IH]; simpl; [done|].
  intros [Ha Hs]%orb_false_elim. rewrite Ha. simpl. by rewrite IH.
Qed.

Lemma Split_app_byte (c : ascii) (a b : string) :
  strings.Split (a +:+ String c b) (String c "")
  = strings.Split a (String c "") ++ strings.Split b (String c "").
Proof.
  unfold strings.Split. induction a as [|d a IH].
  - simpl. by rewrite Ascii.eqb_refl.
  - rewrite app_cons. simpl. rewrite andb_true_r.
    destruct (Ascii.eqb d c); [by rewrite IH|].
    rewrite IH.
    by destruct (split_go_nonempty (String c "") 0 None a) as (p & ps & ->).
Qed.

Lemma TrimLeft_bytes (d : ascii) (s : string) :
  has_byte d s = false → has_byte d (strings.TrimLeft s) = false.
Proof.
  induction s as [|c s IH]; simpl; [done|].
  intros [Hc Hs]%orb_false_elim.
  destruct (strings.isSpace c); [by apply IH|]. simpl. by rewrite Hc, Hs.
Qed.

Lemma TrimRight_bytes (d : ascii) (s : string) :
  has_byte d s = false → has_byte d (strings.TrimRight s) = false.
Proof.
  induction s as [|c s IH]; simpl; [done|].
  intros [Hc Hs]%orb_false_elim. specialize (IH Hs).
  destruct (strings.TrimRight s) as [|a t]; [destruct (strings.isSpace c)|];
    simpl in *; by rewrite ?Hc, ?IH.
Qed.

Lemma TrimSpace_bytes (d : ascii) (s : string) :
  has_byte d s = false → has_byte d (strings.TrimSpace s) = false.
Proof. intros H. by apply TrimRight_bytes, TrimLeft_bytes. Qed.

Lemma lines_of_no_newline (text : string) :
  Forall (λ v, has_byte LF v = false) (lines_of text).
Proof. apply split_byte_pieces. Qed.

Lemma Split_newline_before (l : string) (ls : list string) :
  has_byte LF l = false → Forall (λ l, has_byte LF l = false) ls →
  strings.Split (l +:+ newline_before ls) (String LF "") = l :: ls.
Proof.
  revert l. induction ls as [|l' ls IH]; intros l Hl Hls.
  - simpl. rewrite app_nil_r. by apply Split_no_byte.
  - inversion Hls as [|?? Hl' Hrest]; subst.
    change (newline_before (l' :: ls))
      with (String LF (l' +:+ newline_before ls)).
    rewrite Split_app_byte, IH by done. by rewrite Split_no_byte.
Qed.

Lemma lines_of_newline_before (ls : list string) :
  Forall (λ l, has_byte LF l = false) ls →
  lines_of (newline_before ls) = "" :: ls.
Proof. intros Hls. by apply (Split_newline_before "" ls). Qed.

Lemma lines_of_newline_after (ls : list string) :
  Forall (λ l, has_byte LF l = false) ls →
  lines_of (newline_after ls) = ls ++ [""].
Proof.
  induction ls as [|l ls IH]; intros Hls; [done|].
  inversion Hls as [|?? Hl Hrest]; subst. specialize (IH Hrest).
  unfold lines_of in *. cbn [newline_after foldr]. fold (newline_after ls).
  change (lit "\n") with (String LF "") in *.
  change (l +:+ String LF "" +:+ newline_after ls)
    with (l +:+ String LF (newline_after ls)).
  rewrite Split_app_byte, IH. by rewrite Split_no_byte.
Qed.

(** ** The pre-pass *)

Lemma strip_cr_tab_clean (s : string) :
  has_byte CR (strip_cr_tab_to_space s) = false
  ∧ has_byte TAB (strip_cr_tab_to_space s) = false.
Proof.
  induction s as [|c s [IH1 IH2]]; [done|]. simpl.
  destruct (Ascii.eqb c CR) eqn:Hcr; [done|].
  destruct (Ascii.eqb c TAB) eqn:Htab; simpl; by rewrite ?Hcr, ?Htab, IH1, IH2.
Qed.

Lemma strip_cr_tab_fixed (s : string) :
  has_byte CR s = false → has_byte TAB s = false →
  strip_cr_tab_to_space s = s.
Proof.
  induction s as [|c s IH]; [done|]. simpl.
  intros [Hc Hs]%orb_false_elim [Ht Hs']%orb_false_elim.
  by rewrite Hc, Ht, IH.
Qed.

(** X1: the text that [Prepare] works on after its two replacements holds no
    carriage return and no tab, and the replacements change nothing when run
    a second time. *)
Theorem prepass_clean_and_idempotent (text : string) :
  has_byte CR (prepass text) = false
  ∧ has_byte TAB (prepass text) = false
  ∧ prepass (prepass text) = prepass text.
Proof.
  rewrite !prepass_spec. destruct (strip_cr_tab_clean text) as [H1 H2].
  by rewrite (strip_cr_tab_fixed (strip_cr_tab_to_space text)) by done.
Qed.

(** ** Responses without section headers *)

Lemma prepareEDU_run_plain (lines : list string) (result : string) :
  Forall (λ v, has_key eduTokens v = false)
    (filter (λ v, v ≠ "") (strings.TrimSpace <$> lines)) →
  range_lines prepareEDU_line (EduState "" 0 result) lines
  = Some (EduState "" 0
            (result +:+
             newline_before
               (filter (λ v, v ≠ "") (strings.TrimSpace <$> lines)))).
Proof.
  revert result. induction lines as [|v rest IH]; intros result Hall.
  - simpl. by rewrite app_nil_r.
  - rewrite fmap_cons, filter_cons in *. simpl. unfold prepareEDU_line.
    destruct (decide (strings.TrimSpace v = "")) as [Hv|Hv].
    + rewrite decide_False in * by auto. simpl. by apply IH.
    + rewrite decide_True in * by auto.
      inversion Hall as [|?? Hkey Hrest]; subst. rewrite Hkey.
      destruct (strings.HasSuffix _ _); simpl;
        rewrite (IH _ Hrest); cbn [newline_before foldr];
        by rewrite !app_assoc.
Qed.

(** X8: on a response of ASCII bytes in which no line is one of the three
    section headers, [prepareEDU] returns, and what it returns is the lines of the response,
    trimmed, the blank ones dropped, each preceded by a newline. *)
Theorem prepareEDU_without_sections (text : string) :
  ascii_text text →
  Forall (λ v, has_key eduTokens v = false) (trimmed_lines text) →
  prepareEDU text = Some (newline_before (trimmed_lines text)).
Proof.
  intros _ Hall. unfold prepareEDU, trimmed_lines in *.
  by rewrite (prepareEDU_run_plain _ "" Hall).
Qed.

Lemma prepareTW_run_plain (lines : list string) (result : string) :
  Forall (λ v, has_key twTokens (date_colon v) = false)
    (filter (λ v, v ≠ "") (strings.TrimSpace <$> lines)) →
  range_lines prepareTW_line (TwState "" (-1) result) lines
  = Some (TwState "" (-1)
            (result +:+
             newline_before
               (date_colon
                  <$> filter (λ v, v ≠ "") (strings.TrimSpace <$> lines)))).
Proof.
  revert result. induction lines as [|v rest IH]; intros result Hall.
  - simpl. by rewrite app_nil_r.
  - rewrite fmap_cons, filter_cons in *. simpl. unfold prepareTW_line.
    destruct (decide (strings.TrimSpace v = "")) as [Hv|Hv].
    + rewrite decide_False in * by auto. simpl. by apply IH.
    + rewrite decide_True in * by auto.
      inversion Hall as [|?? Hkey Hrest]; subst.
      fold (date_colon (strings.TrimSpace v)). rewrite Hkey.
      destruct (strings.Contains _ _); simpl;
        rewrite (IH _ Hrest); cbn [newline_before foldr fmap list_fmap];
        by rewrite !app_assoc.
Qed.

(** X9: on a response of ASCII bytes in which no line is one of the four
    section headers, [prepareTW] returns, and what it returns is the lines of the response,
    trimmed, the blank ones dropped, a colon put after a leading "Record
    created on" or "Record expires on", each line preceded by a newline. *)
Theorem prepareTW_without_sections (text : string) :
  ascii_text text →
  Forall (λ v, has_key twTokens (date_colon v) = false) (trimmed_lines text) →
  prepareTW text = Some (newline_before (date_colon <$> trimmed_lines text)).
Proof.
  intros _ Hall. unfold prepareTW, trimmed_lines in *.
  by rewrite (prepareTW_run_plain _ "" Hall).
Qed.

(** ** Continuation lines of an address (HK) *)

Lemma prepareHK_line_blank (st : hkState) (v : string) :
  strings.TrimSpace v = "" →
  prepareHK_line st v
  = Some (HkState "" (hk_addressToken st) (hk_result st)).
Proof. intros Hv. unfold prepareHK_line. by rewrite decide_True. Qed.

Lemma prepareHK_line_joined (st : hkState) (v : string) :
  strings.TrimSpace v ≠ "" →
  strings.Contains (strings.TrimSpace v) ":" = false →
  hk_addressToken st = true →
  prepareHK_line st v
  = Some (HkState (hk_token st) true
            (hk_result st +:+ ", " +:+ strings.TrimSpace v)).
Proof.
  intros Hv Hc Ha. unfold prepareHK_line.
  by rewrite decide_False, Hc, Ha by done.
Qed.

Lemma prepareHK_run_address (lines : list string) (st : hkState) :
  hk_addressToken st = true →
  Forall (λ v, strings.Contains (strings.TrimSpace v) ":" = false) lines →
  ∃ token,
    range_lines prepareHK_line st lines
    = Some (HkState token true
              (hk_result st +:+
               comma_joined
                 (filter (λ v, v ≠ "") (strings.TrimSpace <$> lines)))).
Proof.
  revert st. induction lines as [|v rest IH]; intros st Ha Hall.
  - exists (hk_token st). simpl. rewrite app_nil_r. destruct st. simpl in *.
    by subst.
  - inversion Hall as [|?? Hv Hrest]; subst.
    rewrite fmap_cons, filter_cons. cbn [range_lines].
    destruct (decide (strings.TrimSpace v = "")) as [He|He].
    + rewrite decide_False by auto. rewrite prepareHK_line_blank by done.
      cbn [mbind option_bind].
      destruct (IH (HkState "" (hk_addressToken st) (hk_result st)) Ha Hrest)
        as [t ->]. eauto.
    + rewrite decide_True by auto. rewrite prepareHK_line_joined by done.
      cbn [mbind option_bind].
      destruct (IH (HkState (hk_token st) true
                      (hk_result st +:+ ", " +:+ strings.TrimSpace v))
                  eq_refl Hrest) as [t ->].
      exists t. cbn [comma_joined foldr hk_result]. by rewrite !app_assoc.
Qed.

(** X11: on lines of ASCII bytes, after a line whose field is "Address", every
    following line without a colon is joined to the output with a comma, across blank lines too: the
    address mode ends only at the next line that has a colon. *)
Theorem prepareHK_address_continuation (st : hkState) (v : string)
    (rest : list string) :
  ascii_lines (v :: rest) →
  hk_field v = Some "Address" →
  Forall (λ v, strings.Contains (strings.TrimSpace v) ":" = false) rest →
  ∃ st1 st2,
    prepareHK_line st v = Some st1
    ∧ hk_addressToken st1 = true
    ∧ range_lines prepareHK_line st1 rest = Some st2
    ∧ hk_addressToken st2 = true
    ∧ hk_result st2
      = hk_result st1 +:+
        comma_joined (filter (λ v, v ≠ "") (strings.TrimSpace <$> rest)).
Proof.
  intros _ Hfield Hrest. unfold hk_field in Hfield.
  destruct (strings.Contains (strings.TrimSpace v) ":") eqn:Hc; [|done].
  assert (strings.TrimSpace v ≠ "") as Hv
    by (intros Hv; by rewrite Hv in Hc).
  destruct (index_at_SplitN_0 (strings.TrimSpace v) ":") as [k Hk].
  destruct (index_at_SplitN_1 _ Hc) as [x Hx].
  rewrite Hk in Hfield. simpl in Hfield. injection Hfield as Hfield.
  assert (prepareHK_line st v
          = Some (hk_emit (hk_token st) true (hk_result st) "Address"
                    (strings.TrimSpace v))) as Hstep.
  { unfold prepareHK_line. rewrite decide_False by done. rewrite Hc, Hk, Hx.
    cbn [mbind option_bind]. rewrite Hfield. reflexivity. }
  set (st1 := hk_emit (hk_token st) true (hk_result st) "Address"
                (strings.TrimSpace v)) in *.
  assert (hk_addressToken st1 = true) as Ha
    by (unfold st1, hk_emit; by repeat case_match).
  destruct (prepareHK_run_address rest st1 Ha Hrest) as [t Hrun].
  exists st1, (HkState t true
                 (hk_result st1 +:+
                  comma_joined
                    (filter (λ v, v ≠ "") (strings.TrimSpace <$> rest)))).
  by repeat split.
Qed.

(** ** The role prefix of an INT response *)

Lemma Sprintf_pair (a b : string) : Sprintf "%s %s" [a; b] = a +:+ " " +:+ b.
Proof.
  change (Sprintf "%s %s" [a; b]) with (a +:+ String " " (b +:+ "")).
  by rewrite app_nil_r.
Qed.

Lemma prepareINT_line_contact (st : intState) (v role : string) :
  int_key (strings.TrimSpace v) = Some "contact" →
  strings.TrimSpace
    <$> index_at (strings.Split (strings.TrimSpace v) ":") 1 = Some role →
  prepareINT_line st v
  = Some (IntState role (int_result st +:+ lit "\n" +:+ strings.TrimSpace v)).
Proof.
  unfold int_key. intros Hkey Hrole. unfold prepareINT_line.
  destruct (strings.Contains (strings.TrimSpace v) ":") eqn:Hc; [|done].
  assert (strings.TrimSpace v ≠ "") as Hv by (intros Hv; by rewrite Hv in Hc).
  rewrite decide_False by done.
  destruct (index_at (strings.Split (strings.TrimSpace v) ":") 0) as [k|];
    [|done].
  destruct (index_at (strings.Split (strings.TrimSpace v) ":") 1) as [x|];
    [|done].
  simpl in Hkey, Hrole. injection Hkey as Hkey. injection Hrole as Hrole.
  cbn [mbind option_bind]. rewrite Hkey.
  rewrite (decide_True (P := "contact" = "contact")) by done.
  cbn [mbind option_bind]. by rewrite Hrole.
Qed.

Lemma prepareINT_line_in_role (st : intState) (v : string) :
  int_token st ≠ "" → strings.TrimSpace v ≠ "" →
  int_key (strings.TrimSpace v) ≠ Some "contact" →
  prepareINT_line st v
  = Some (IntState (int_token st)
            (int_result st +:+ int_written (int_token st) (strings.TrimSpace v))).
Proof.
  intros Htok Hv Hkey. unfold prepareINT_line, int_key, int_written in *.
  rewrite decide_False by done.
  destruct (strings.Contains (strings.TrimSpace v) ":") eqn:Hc; [|done].
  destruct (index_at_Split_0 (strings.TrimSpace v) ":") as [k Hk].
  rewrite Hk in *. simpl in Hkey. cbn [mbind option_bind].
  rewrite (decide_False (P := strings.TrimSpace k = "contact"))
    by (intros Heq; apply Hkey; by rewrite Heq).
  rewrite (decide_False (P := int_token st = "")) by done.
  destruct (decide (strings.TrimSpace k = "organisation"));
    rewrite decide_True by done; cbn [mbind option_bind];
    by rewrite Sprintf_pair.
Qed.

Lemma prepareINT_run_in_role (lines : list string) (st : intState) :
  int_token st ≠ "" →
  Forall (λ v, v ≠ "" ∧ int_key v ≠ Some "contact")
    (strings.TrimSpace <$> lines) →
  range_lines prepareINT_line st lines
  = Some (IntState (int_token st)
            (int_result st +:+
             int_written_all (int_token st) (strings.TrimSpace <$> lines))).
Proof.
  revert st. induction lines as [|v rest IH]; intros st Htok Hall.
  - simpl. rewrite app_nil_r. by destruct st.
  - rewrite fmap_cons in *. inversion Hall as [|?? [Hv Hkey] Hrest]; subst.
    cbn [range_lines]. rewrite prepareINT_line_in_role by done.
    cbn [mbind option_bind]. rewrite IH by done.
    cbn [int_written_all foldr int_token int_result]. by rewrite !app_assoc.
Qed.

(** X12: on lines of ASCII bytes, a line "contact: role" sets the role, and is
    written as it is; over a run of lines after it, none of them blank and
    none a "contact" line, each line is written with the role put before it
    when it has a colon, and as it is when it has none, and the role stays
    set; the blank line that ends the run clears the role and writes
    nothing. *)
Theorem prepareINT_role_block (st : intState) (v role : string)
    (rest : list string) (blank : string) :
  ascii_lines (v :: rest ++ [blank]) →
  int_key (strings.TrimSpace v) = Some "contact" →
  strings.TrimSpace
    <$> index_at (strings.Split (strings.TrimSpace v) ":") 1 = Some role →
  role ≠ "" →
  Forall (λ v, v ≠ "" ∧ int_key v ≠ Some "contact")
    (strings.TrimSpace <$> rest) →
  strings.TrimSpace blank = "" →
  range_lines prepareINT_line st (v :: rest)
  = Some (IntState role
            (int_result st +:+ lit "\n" +:+ strings.TrimSpace v +:+
             int_written_all role (strings.TrimSpace <$> rest)))
  ∧ range_lines prepareINT_line st (v :: rest ++ [blank])
    = Some (IntState ""
              (int_result st +:+ lit "\n" +:+ strings.TrimSpace v +:+
               int_written_all role (strings.TrimSpace <$> rest))).
Proof.
  intros _ Hkey Hrole Hne Hrest Hblank.
  assert (range_lines prepareINT_line st (v :: rest)
          = Some (IntState role
                    (int_result st +:+ lit "\n" +:+ strings.TrimSpace v +:+
                     int_written_all role (strings.TrimSpace <$> rest))))
    as Hrun.
  { cbn [range_lines].
    rewrite (prepareINT_line_contact st v role) by done.
    cbn [mbind option_bind]. rewrite prepareINT_run_in_role by done.
    cbn [int_token int_result]. by rewrite !app_assoc. }
  split; [exact Hrun|].
  rewrite app_comm_cons, range_lines_app, Hrun.
  cbn [mbind option_bind range_lines]. unfold prepareINT_line.
  by rewrite decide_True.
Qed.

(** ** The lines of the output *)

Lemma Contains_byte (c : ascii) (s : string) :
  strings.Contains s (String c "") = has_byte c s.
Proof.
  induction s as [|a s IH]; simpl; [done|]. by rewrite andb_true_r, IH.
Qed.

Lemma Sprintf_field (a b : string) : Sprintf "%s: %s" [a; b] = a +:+ ": " +:+ b.
Proof.
  change (Sprintf "%s: %s" [a; b])
    with (a +:+ String ":" (String " " (b +:+ ""))).
  by rewrite app_nil_r.
Qed.

Lemma index_at_elem {A : Type} (l : list A) (i : Z) (x : A) :
  index_at l i = Some x → x ∈ l.
Proof.
  unfold index_at. destruct (0 <=? i); [|done]. apply list_elem_of_lookup_2.
Qed.

Lemma Split_piece_bytes (d : ascii) (s sep : string) (i : Z) (x : string) :
  has_byte d s = false → index_at (strings.Split s sep) i = Some x →
  has_byte d x = false.
Proof.
  intros Hd Hx%index_at_elem.
  pose proof (split_go_bytes d sep s Hd 0%nat None) as Hall.
  rewrite Forall_forall in Hall. by apply Hall.
Qed.

Lemma SplitN_piece_bytes (d : ascii) (s sep : string) (i : Z) (x : string) :
  has_byte d s = false → index_at (strings.SplitN s sep 2) i = Some x →
  has_byte d x = false.
Proof.
  intros Hd Hx%index_at_elem.
  pose proof (split_go_bytes d sep s Hd 0%nat (Some 1%nat)) as Hall.
  rewrite Forall_forall in Hall. by apply Hall.
Qed.

Lemma ruTokens_no_newline (k vv : string) :
  ruTokens !! k = Some vv → has_byte LF vv = false.
Proof.
  unfold ruTokens. intros H%elem_of_list_to_map_2.
  rewrite !elem_of_cons, elem_of_nil in H.
  destruct H as [H|[H|[H|[]]]]; by simplify_eq.
Qed.

Lemma prepareRU_line_exact (result v : string) :
  prepareRU_line result v
  = Some (if bool_decide (strings.TrimSpace v ≠ "")
             && strings.Contains (strings.TrimSpace v) ":"
          then result +:+ ru_line (strings.TrimSpace v) +:+ lit "\n"
          else result).
Proof.
  unfold prepareRU_line, ru_line.
  destruct (decide (strings.TrimSpace v = "")) as [Hv|Hv].
  { by rewrite bool_decide_eq_false_2 by auto. }
  rewrite bool_decide_eq_true_2 by done. cbn [andb].
  destruct (strings.Contains (strings.TrimSpace v) ":") eqn:Hc; [|done].
  cbn [negb].
  destruct (index_at_Split_0 (strings.TrimSpace v) ":") as [k Hk].
  destruct (index_at_Split_1 _ Hc) as [x Hx]. rewrite Hk, Hx.
  cbn [mbind option_bind].
  destruct (ruTokens !! strings.TrimSpace k) as [vv|] eqn:Hvv;
    cbn [mbind option_bind]; [|done].
  by rewrite Sprintf_field.
Qed.

Lemma ru_line_shape (v : string) :
  has_byte LF v = false → strings.Contains v ":" = true →
  has_byte LF (ru_line v) = false ∧ strings.Contains (ru_line v) ":" = true.
Proof.
  intros Hlf Hc. unfold ru_line.
  destruct (index_at_Split_0 v ":") as [k Hk].
  destruct (index_at_Split_1 _ Hc) as [x Hx]. rewrite Hk, Hx.
  destruct (ruTokens !! strings.TrimSpace k) as [vv|] eqn:Hvv; [|done].
  rewrite Contains_byte, !has_byte_app.
  rewrite (ruTokens_no_newline _ _ Hvv).
  rewrite (Split_piece_bytes LF v ":" 1 x) by done. simpl.
  split; [done|]. by rewrite orb_true_r.
Qed.

Lemma prepareRU_run_exact (lines : list string) (result : string) :
  range_lines prepareRU_line result lines
  = Some (result +:+
          newline_after
            (ru_line <$> filter (λ v, strings.Contains v ":" = true)
                           (filter (λ v, v ≠ "") (strings.TrimSpace <$> lines)))).
Proof.
  revert result. induction lines as [|v rest IH]; intros result.
  - simpl. by rewrite app_nil_r.
  - rewrite fmap_cons, filter_cons. cbn [range_lines].
    rewrite prepareRU_line_exact. cbn [mbind option_bind]. rewrite IH.
    destruct (decide (strings.TrimSpace v = "")) as [He|He].
    + rewrite bool_decide_eq_false_2 by auto. cbn [andb].
      by rewrite decide_False by auto.
    + rewrite bool_decide_eq_true_2 by done. cbn [andb].
      rewrite decide_True by done. rewrite filter_cons.
      destruct (strings.Contains (strings.TrimSpace v) ":") eqn:Hc.
      * rewrite decide_True by done. rewrite fmap_cons.
        cbn [newline_after foldr]. by rewrite !app_assoc.
      * by rewrite decide_False by done.
Qed.

Lemma trimmed_lines_no_newline (text : string) :
  Forall (λ v, has_byte LF v = false) (trimmed_lines text).
Proof.
  unfold trimmed_lines. apply Forall_forall. intros v Hv.
  apply list_elem_of_filter in Hv as [_ Hv].
  apply list_elem_of_fmap in Hv as (w & -> & Hw).
  apply TrimSpace_bytes.
  pose proof (lines_of_no_newline text) as Hall.
  rewrite Forall_forall in Hall. by apply Hall.
Qed.

(** X16: on a response of ASCII bytes, [prepareRU] returns one line for each
    line of the input that, once trimmed, is not blank and has a colon, in
    the same order: the line itself, or, when its key is one of the three of
    the table, the new key, a colon, a space and what stood between the
    first and the second colon.  Each line of the output has a colon and is
    closed by a newline, so that the output split at newlines is these lines
    followed by one empty piece. *)
Theorem prepareRU_output_lines (text : string) :
  ascii_text text →
  prepareRU text = Some (newline_after (ru_line <$> ru_kept text))
  ∧ lines_of (newline_after (ru_line <$> ru_kept text))
    = (ru_line <$> ru_kept text) ++ [""]
  ∧ Forall (λ l, strings.Contains l ":" = true) (ru_line <$> ru_kept text).
Proof.
  intros _.
  assert (Forall (λ l, has_byte LF l = false ∧ strings.Contains l ":" = true)
            (ru_line <$> ru_kept text)) as Hls.
  { apply Forall_fmap, Forall_forall. intros v Hv.
    apply list_elem_of_filter in Hv as [Hc Hv].
    pose proof (trimmed_lines_no_newline text) as Hall.
    rewrite Forall_forall in Hall. apply ru_line_shape; auto. }
  split; [|split].
  - unfold prepareRU, ru_kept, trimmed_lines. by rewrite prepareRU_run_exact.
  - apply lines_of_newline_after. eapply Forall_impl; [exact Hls|]. by intros ? [? ?].
  - eapply Forall_impl; [exact Hls|]. by intros ? [? ?].
Qed.

Lemma rewrite_key_cases (tokens : gmap string string) (v w : string) :
  rewrite_key tokens v = Some w →
  (w = v ∧ ∀ k vv, first_colon_key v = Some k → tokens !! k = Some vv → False)
  ∨ (∃ k vv x, first_colon_key v = Some k ∧ tokens !! k = Some vv
               ∧ index_at (strings.SplitN v ":" 2) 1 = Some x
               ∧ w = vv +:+ ": " +:+ x).
Proof.
  unfold rewrite_key, first_colon_key.
  destruct (strings.Contains v ":") eqn:Hc; [|intros [= <-]; by left].
  destruct (index_at (strings.SplitN v ":" 2) 0) as [k|]; [|done].
  cbn [mbind option_bind fmap option_fmap option_map].
  destruct (tokens !! strings.TrimSpace k) as [vv|] eqn:Hvv.
  - destruct (index_at (strings.SplitN v ":" 2) 1) as [x|]; [|done].
    cbn [mbind option_bind]. rewrite Sprintf_field. intros [= <-].
    right. by exists (strings.TrimSpace k), vv, x.
  - intros [= <-]. left. split; [done|]. intros k' vv' [= <-]. congruence.
Qed.

Lemma ukTokens_lookup (k vv : string) :
  ukTokens !! k = Some vv → k = "URL" ∧ vv = "Registrar URL".
Proof.
  unfold ukTokens. intros H%elem_of_list_to_map_2.
  rewrite !elem_of_cons, elem_of_nil in H. destruct H as [H|[]]. by simplify_eq.
Qed.

Lemma prepareUK_line_rewritten (result v : string) :
  strings.TrimSpace v ≠ "" → has_byte LF v = false →
  ∃ w, prepareUK_line result v = Some (result +:+ lit "\n" +:+ w)
       ∧ has_byte LF w = false ∧ uk_rewritten (strings.TrimSpace v) w.
Proof.
  intros Hv Hlf. unfold prepareUK_line. rewrite decide_False by done.
  assert (has_byte LF (strings.TrimSpace v) = false) as Hlf'
    by by apply TrimSpace_bytes.
  destruct (rewrite_key_total ukTokens (strings.TrimSpace v)) as [w Hw].
  rewrite Hw. cbn [mbind option_bind]. exists w. split; [done|].
  apply rewrite_key_cases in Hw as [[-> Hno]|(k & vv & x & Hk & Hvv & Hx & ->)].
  - split; [done|]. left. split; [|done]. intros Hk. by eapply Hno.
  - apply ukTokens_lookup in Hvv as [-> ->]. split.
    + rewrite !has_byte_app.
      by rewrite (SplitN_piece_bytes LF _ ":" 1 x Hlf' Hx).
    + right. split; [done|]. by exists x.
Qed.

Lemma prepareUK_line_blank (result v : string) :
  strings.TrimSpace v = "" → prepareUK_line result v = Some result.
Proof. intros Hv. unfold prepareUK_line. by rewrite decide_True. Qed.

Lemma prepareUK_run_lines (lines : list string) (result : string) :
  Forall (λ v, has_byte LF v = false) lines →
  ∃ ls, range_lines prepareUK_line result lines
        = Some (result +:+ newline_before ls)
      ∧ Forall (λ l, has_byte LF l = false) ls
      ∧ Forall2 uk_rewritten
          (filter (λ v, v ≠ "") (strings.TrimSpace <$> lines)) ls.
Proof.
  revert result. induction lines as [|v rest IH]; intros result Hall.
  - exists []. simpl. rewrite app_nil_r. by repeat split.
  - inversion Hall as [|?? Hv Hrest]; subst.
    rewrite fmap_cons, filter_cons. cbn [range_lines].
    destruct (decide (strings.TrimSpace v = "")) as [He|He].
    + rewrite decide_False by auto.
      rewrite prepareUK_line_blank by done.
      cbn [mbind option_bind]. by apply IH.
    + rewrite decide_True by done.
      destruct (prepareUK_line_rewritten result v He Hv) as (w & -> & Hw & Hr).
      cbn [mbind option_bind].
      destruct (IH (result +:+ lit "\n" +:+ w) Hrest) as (ls & -> & Hls & Hf).
      exists (w :: ls). split; [|split]; [|by constructor..].
      cbn [newline_before foldr]. by rewrite !app_assoc.
Qed.

(** X17: on a response of ASCII bytes, [prepareUK] returns one line for each
    line of the input that is not blank, in the same order and preceded by a newline: a line whose key is
    "URL" with the key replaced by "Registrar URL", any other line as it is,
    trimmed. *)
Theorem prepareUK_output_lines (text : string) :
  ascii_text text →
  ∃ ls, prepareUK text = Some (newline_before ls)
      ∧ lines_of (newline_before ls) = "" :: ls
      ∧ Forall2 uk_rewritten (trimmed_lines text) ls.
Proof.
  intros _.
  destruct (prepareUK_run_lines (lines_of text) "" (lines_of_no_newline text))
    as (ls & Hrun & Hls & Hf).
  exists ls. split; [exact Hrun|]. split; [|exact Hf].
  by apply lines_of_newline_before.
Qed.

Lemma byte_at_first (s : string) : strings.byte_at s 0 = first_byte s.
Proof. by destruct s. Qed.

Lemma krTokens_values (k vv : string) :
  krTokens !! k = Some vv →
  first_byte vv = Some "A"%char ∧ has_byte LF vv = false.
Proof.
  unfold krTokens. intros H%elem_of_list_to_map_2.
  rewrite !elem_of_cons, elem_of_nil in H.
  destruct H as [H|[H|[H|[]]]]; by simplify_eq.
Qed.

Lemma prepareKR_line_kept (result v : string) :
  has_byte LF v = false →
  prepareKR_line result v = Some result
  ∨ ∃ w, prepareKR_line result v = Some (result +:+ lit "\n" +:+ w)
         ∧ has_byte LF w = false ∧ w ≠ ""
         ∧ first_byte w ≠ Some "'"%char ∧ first_byte w ≠ Some "-"%char.
Proof.
  intros Hlf. unfold prepareKR_line.
  destruct (decide (strings.TrimSpace v = "")) as [|Hv]; [by left|].
  assert (has_byte LF (strings.TrimSpace v) = false) as Hlf'
    by by apply TrimSpace_bytes.
  rewrite byte_at_first.
  destruct (first_byte (strings.TrimSpace v)) as [c|] eqn:Hc;
    [|by apply first_byte_None in Hc].
  cbn [mbind option_bind].
  destruct (Ascii.eqb c "'") eqn:Hq; [by left|].
  destruct (Ascii.eqb c "-") eqn:Hd; [by left|]. cbn [orb].
  apply Ascii.eqb_neq in Hq, Hd.
  destruct (rewrite_key_total krTokens (strings.TrimSpace v)) as [w Hw].
  rewrite Hw. cbn [mbind option_bind]. right. exists w. split; [done|].
  apply rewrite_key_cases in Hw as [[-> _]|(k & vv & x & _ & Hvv & Hx & ->)].
  - rewrite Hc. repeat split; try done; by intros [= ->].
  - apply krTokens_values in Hvv as [Hfirst Hvlf].
    rewrite !has_byte_app, first_byte_app, Hfirst, Hvlf.
    rewrite (SplitN_piece_bytes LF _ ":" 1 x Hlf' Hx).
    repeat split; try done. destruct vv; [done|]. done.
Qed.

Lemma prepareKR_run_lines (lines : list string) (result : string) :
  Forall (λ v, has_byte LF v = false) lines →
  ∃ ls, range_lines prepareKR_line result lines
        = Some (result +:+ newline_before ls)
      ∧ Forall (λ l, has_byte LF l = false ∧ l ≠ ""
                     ∧ first_byte l ≠ Some "'"%char
                     ∧ first_byte l ≠ Some "-"%char) ls.
Proof.
  revert result. induction lines as [|v rest IH]; intros result Hall.
  - exists []. simpl. by rewrite app_nil_r.
  - inversion Hall as [|?? Hv Hrest]; subst. cbn [range_lines].
    destruct (prepareKR_line_kept result v Hv) as [-> | (w & -> & Hw)];
      cbn [mbind option_bind]; [by apply IH|].
    destruct (IH (result +:+ lit "\n" +:+ w) Hrest) as (ls & -> & Hls).
    exists (w :: ls). split; [|by constructor].
    cbn [newline_before foldr]. by rewrite !app_assoc.
Qed.

(** X18: [prepareKR] writes each line it keeps after a newline, and keeps no
    blank line and no line that begins with an apostrophe or a hyphen. *)
Theorem prepareKR_output_lines (text : string) :
  ∃ ls, prepareKR text = Some (newline_before ls)
      ∧ lines_of (newline_before ls) = "" :: ls
      ∧ Forall (λ l, l ≠ "" ∧ first_byte l ≠ Some "'"%char
                     ∧ first_byte l ≠ Some "-"%char) ls.
Proof.
  destruct (prepareKR_total text) as [out Hout].
  unfold prepareKR in *.
  destruct (decide (strings.Index text krEnglish ≠ -1)) as [Hpos|_];
    [destruct (strings.slice_from text _) as [text'|]; [|done]|];
    cbn [mbind option_bind] in *.
  all: match goal with
       | |- context [range_lines prepareKR_line "" (lines_of ?t)] =>
           destruct (prepareKR_run_lines (lines_of t) ""
                       (lines_of_no_newline t)) as (ls & Hrun & Hls)
       end.
  all: exists ls; split; [exact Hrun|]; split;
    [apply lines_of_newline_before|];
    (eapply Forall_impl; [exact Hls|]); by intros ? (?&?&?&?).
Qed.

Lemma replace_go_bytes (d : ascii) (old new : string) (s : string) :
  has_byte d new = false → has_byte d s = false →
  ∀ skip n, has_byte d (strings.replace_go old new skip n s) = false.
Proof.
  intros Hnew. induction s as [|c s IH]; intros Hs skip n; [done|].
  simpl in Hs. apply orb_false_elim in Hs as [Hc Hs]. simpl.
  destruct skip as [|k]; [|by apply IH].
  destruct (_ && _).
  - rewrite has_byte_app, Hnew. by apply IH.
  - simpl. rewrite Hc. by apply IH.
Qed.

Lemma colon_after_prefix_keeps (d : ascii) (v s : string) :
  s ≠ "" → has_byte d s = false → Ascii.eqb ":" d = false →
  has_byte d v = false →
  has_byte d (colon_after_prefix v s) = false
  ∧ first_byte (colon_after_prefix v s) = first_byte v.
Proof.
  intros Hs Hds Hcolon Hv. unfold colon_after_prefix.
  destruct (strings.HasPrefix v s) eqn:Hp; [|done]. split.
  - apply replace_go_bytes; [|done].
    rewrite has_byte_app, Hds.
    change (has_byte d ":") with (Ascii.eqb ":" d || false).
    by rewrite Hcolon.
  - unfold strings.Replace.
    destruct s as [|a s]; [done|]. destruct v as [|c v]; [done|].
    cbn [Z.ltb Z.compare Z.to_nat Pos.to_nat Pos.iter_op Nat.add
         strings.replace_go strings.cuts_left andb].
    rewrite Hp. simpl in Hp. apply andb_prop in Hp as [Hca _].
    apply Ascii.eqb_eq in Hca as ->. done.
Qed.

Lemma date_colon_keeps (v : string) :
  has_byte LF v = false →
  has_byte LF (date_colon v) = false
  ∧ first_byte (date_colon v) = first_byte v.
Proof.
  intros Hv. unfold date_colon, datePrefixes. simpl.
  destruct (colon_after_prefix_keeps LF v "Record created on") as [H1 H2];
    try done.
  destruct (colon_after_prefix_keeps LF
              (colon_after_prefix v "Record created on") "Record expires on")
    as [H3 H4]; try done.
  split; [done|]. by rewrite H4.
Qed.

Lemma moTokens_values (k vv : string) :
  moTokens !! k = Some vv →
  vv ≠ "" ∧ first_byte vv ≠ Some "-"%char ∧ has_byte LF vv = false.
Proof.
  unfold moTokens. intros H%elem_of_list_to_map_2.
  rewrite !elem_of_cons, elem_of_nil in H.
  destruct H as [H|[H|[H|[H|[]]]]]; by simplify_eq.
Qed.

Lemma prepareMO_line_kept (st : moState) (v : string) :
  mo_token_ok (mo_token st) → has_byte LF v = false →
  ∃ token, mo_token_ok token
    ∧ (prepareMO_line st v = Some (MoState token (mo_result st))
       ∨ ∃ w, prepareMO_line st v
              = Some (MoState token (mo_result st +:+ lit "\n" +:+ w))
            ∧ has_byte LF w = false ∧ first_byte w ≠ Some "-"%char).
Proof.
  intros Htok Hlf. unfold prepareMO_line.
  destruct (decide (strings.TrimSpace v = "")) as [|Hv].
  { exists "". split; [by left|by left]. }
  assert (has_byte LF (strings.TrimSpace v) = false) as Hlf'
    by by apply TrimSpace_bytes.
  rewrite byte_at_first.
  destruct (first_byte (strings.TrimSpace v)) as [c|] eqn:Hc;
    [|by apply first_byte_None in Hc].
  cbn [mbind option_bind].
  destruct (Ascii.eqb c "-") eqn:Hd.
  { exists (mo_token st). split; [done|]. left. by destruct st. }
  apply Ascii.eqb_neq in Hd.
  fold (date_colon (strings.TrimSpace v)).
  destruct (date_colon_keeps _ Hlf') as [Hdlf Hdfirst].
  assert (first_byte (date_colon (strings.TrimSpace v)) ≠ Some "-"%char)
    as Hnd by (rewrite Hdfirst, Hc; by intros [= ->]).
  unfold has_key, map_get.
  destruct (moTokens !! date_colon (strings.TrimSpace v)) as [t|] eqn:Ht.
  - rewrite bool_decide_eq_true_2 by eauto. simpl.
    apply moTokens_values in Ht as (Ht1 & Ht2 & Ht3).
    exists t. split; [by right|]. right. by eexists.
  - rewrite bool_decide_eq_false_2 by (by intros [? ?]).
    destruct (decide (mo_token st ≠ "")) as [Hne|He].
    + exists (mo_token st). split; [done|]. right. eexists. split; [done|].
      destruct Htok as [?|(Hf & _ & Hl)]; [done|].
      rewrite Sprintf_pair, !has_byte_app, first_byte_app, Hl, Hdlf.
      split; [done|]. destruct (first_byte (mo_token st)) eqn:Hfb; [done|].
      by apply first_byte_None in Hfb.
    + exists (mo_token st). split; [done|]. right. by eexists.
Qed.

Lemma prepareMO_run_lines (lines : list string) (st : moState) :
  mo_token_ok (mo_token st) →
  Forall (λ v, has_byte LF v = false) lines →
  ∃ st' ls, range_lines prepareMO_line st lines = Some st'
      ∧ mo_result st' = mo_result st +:+ newline_before ls
      ∧ Forall (λ l, has_byte LF l = false ∧ first_byte l ≠ Some "-"%char) ls.
Proof.
  revert st. induction lines as [|v rest IH]; intros st Htok Hall.
  - exists st, []. simpl. by rewrite app_nil_r.
  - inversion Hall as [|?? Hv Hrest]; subst. cbn [range_lines].
    destruct (prepareMO_line_kept st v Htok Hv)
      as (token & Htok' & [-> | (w & -> & Hw)]); cbn [mbind option_bind].
    + destruct (IH (MoState token (mo_result st)) Htok' Hrest)
        as (st' & ls & -> & Hres & Hls). by exists st', ls.
    + destruct (IH (MoState token (mo_result st +:+ lit "\n" +:+ w))
                  Htok' Hrest) as (st' & ls & -> & Hres & Hls).
      exists st', (w :: ls). split; [done|]. split; [|by constructor].
      rewrite Hres. cbn [newline_before foldr mo_result].
      by rewrite !app_assoc.
Qed.

(** X19: [prepareMO] writes each line it keeps after a newline, and keeps no line
    that begins with a hyphen. *)
Theorem prepareMO_output_lines (text : string) :
  ∃ ls, prepareMO text = Some (newline_before ls)
      ∧ lines_of (newline_before ls) = "" :: ls
      ∧ Forall (λ l, first_byte l ≠ Some "-"%char) ls.
Proof.
  destruct (prepareMO_run_lines (lines_of text) (MoState "" "")
              (or_introl eq_refl) (lines_of_no_newline text))
    as (st' & ls & Hrun & Hres & Hls).
  exists ls. unfold prepareMO. rewrite Hrun. simpl. rewrite Hres.
  split; [done|]. split; [apply lines_of_newline_before|];
    (eapply Forall_impl; [exact Hls|]); by intros ? [? ?].
Qed.

(** ** A section of an EDU response *)

Lemma Sprintf_labelled (a b c : string) :
  Sprintf (lit "\n%s %s: %s") [a; b; c]
  = lit "\n" +:+ a +:+ " " +:+ b +:+ ": " +:+ c.
Proof.
  change (Sprintf (lit "\n%s %s: %s") [a; b; c])
    with (String LF (a +:+ String " " (b +:+ String ":" (String " " (c +:+ ""))))).
  by rewrite app_nil_r.
Qed.

Lemma eduTokens_keys (k : string) (fields : list string) :
  eduTokens !! k = Some fields → k ≠ "" ∧ strings.HasSuffix k ":" = true.
Proof.
  unfold eduTokens. intros H%elem_of_list_to_map_2.
  rewrite !elem_of_cons, elem_of_nil in H.
  destruct H as [H|[H|[H|[]]]]; by simplify_eq.
Qed.

Lemma prepareEDU_line_in_section (header name : string)
    (fields : list string) (i : nat) (result v : string) :
  eduTokens !! header = Some fields →
  strings.slice_to header (strings.len header - 1) = Some name →
  strings.TrimSpace v ≠ "" →
  strings.HasSuffix (strings.TrimSpace v) ":" = false →
  prepareEDU_line (EduState header (Z.of_nat i) result) v
  = match fields !! i with
    | Some f =>
        Some (EduState header (Z.of_nat (S i))
                (result +:+ lit "\n" +:+ name +:+ " " +:+ f +:+ ": " +:+
                 strings.TrimSpace v))
    | None => None
    end.
Proof.
  intros Hfields Hname Hv Hsuf. unfold prepareEDU_line.
  rewrite decide_False, Hsuf by done. cbn [edu_token edu_index edu_result].
  unfold has_key.
  rewrite bool_decide_eq_false_2.
  2:{ intros [fs Hfs]. apply eduTokens_keys in Hfs as [_ Hfs]. congruence. }
  destruct (eduTokens_keys _ _ Hfields) as [Hne _].
  rewrite decide_False by done. rewrite Hname. cbn [mbind option_bind].
  unfold map_get_list. rewrite Hfields. simpl default.
  unfold index_at. rewrite (proj2 (Z.leb_le 0 (Z.of_nat i))) by lia.
  rewrite Nat2Z.id. destruct (fields !! i) as [f|]; [|done].
  cbn [mbind option_bind]. rewrite Sprintf_labelled.
  do 3 f_equal. lia.
Qed.

Lemma prepareEDU_run_in_section (header name : string)
    (fields : list string) (lines : list string) (i : nat) (result : string) :
  eduTokens !! header = Some fields →
  strings.slice_to header (strings.len header - 1) = Some name →
  (i ≤ length fields)%nat →
  Forall (λ v, v ≠ "" ∧ strings.HasSuffix v ":" = false)
    (strings.TrimSpace <$> lines) →
  range_lines prepareEDU_line (EduState header (Z.of_nat i) result) lines
  = if decide (i + length lines ≤ length fields)%nat
    then Some (EduState header (Z.of_nat (i + length lines))
                 (result +:+
                  newline_before
                    (edu_labelled name (drop i fields)
                       (strings.TrimSpace <$> lines))))
    else None.
Proof.
  intros Hfields Hname. revert i result.
  induction lines as [|v rest IH]; intros i result Hi Hall.
  - simpl. rewrite Nat.add_0_r. rewrite decide_True by done.
    unfold edu_labelled. rewrite zip_with_nil_r. simpl. by rewrite app_nil_r.
  - rewrite fmap_cons in Hall. inversion Hall as [|?? [Hv Hsuf] Hrest]; subst.
    cbn [range_lines].
    rewrite (prepareEDU_line_in_section header name fields) by done.
    destruct (fields !! i) as [f|] eqn:Hf.
    + cbn [mbind option_bind].
      pose proof (lookup_lt_Some _ _ _ Hf) as Hlt.
      rewrite (IH (S i)) by (done || lia).
      simpl length. rewrite fmap_cons.
      rewrite (drop_S _ _ _ Hf). unfold edu_labelled.
      cbn [zip_with newline_before foldr].
      destruct (decide (S i + length rest ≤ length fields)%nat);
        destruct (decide (i + S (length rest) ≤ length fields)%nat);
        try lia; [|done].
      f_equal. f_equal; [lia|]. by rewrite !app_assoc.
    + cbn [mbind option_bind]. apply lookup_ge_None in Hf.
      rewrite decide_False; [done|]. simpl. lia.
Qed.

(** X10: a section of an EDU response that opens with one of the three headers,
    its lines of ASCII bytes: as long as the section has no more lines than its schema has fields, its
    lines are written in order, each under the name of the section and the
    field at its place in the schema; as soon as it has one line more, the
    transformer fails. *)
Theorem prepareEDU_section (header name : string) (fields : list string)
    (lines : list string) (result : string) :
  ascii_lines lines →
  eduTokens !! header = Some fields →
  strings.slice_to header (strings.len header - 1) = Some name →
  Forall (λ v, v ≠ "" ∧ strings.HasSuffix v ":" = false)
    (strings.TrimSpace <$> lines) →
  range_lines prepareEDU_line (EduState header 0 result) lines
  = if decide (length lines ≤ length fields)%nat
    then Some (EduState header (Z.of_nat (length lines))
                 (result +:+
                  newline_before
                    (edu_labelled name fields (strings.TrimSpace <$> lines))))
    else None.
Proof.
  intros _ Hfields Hname Hall.
  change 0 with (Z.of_nat 0).
  by rewrite (prepareEDU_run_in_section header name fields lines 0 result)
    by (done || lia).
Qed.

(** ** Continuation lines (JP, IT) *)

Lemma prepareJP_line_joined (st : jpState) (v : string) :
  jp_token st = jpAddressToken →
  strings.Contains (strings.TrimSpace v) ":" = false →
  prepareJP_line st v
  = Some (if decide (strings.TrimSpace v = "") then st
          else JpState (jp_token st) (jp_prefixToken st)
                 (jp_result st +:+ ", " +:+ strings.TrimSpace v)).
Proof.
  intros Htok Hc. unfold prepareJP_line.
  destruct (decide (strings.TrimSpace v = "")); [done|].
  by rewrite Hc, decide_True.
Qed.

Lemma prepareJP_run_joined (st : jpState) (lines : list string) :
  jp_token st = jpAddressToken →
  Forall (λ v, strings.Contains (strings.TrimSpace v) ":" = false) lines →
  range_lines prepareJP_line st lines
  = Some (JpState (jp_token st) (jp_prefixToken st)
            (jp_result st +:+
             comma_joined
               (filter (λ v, v ≠ "") (strings.TrimSpace <$> lines)))).
Proof.
  revert st. induction lines as [|v rest IH]; intros st Htok Hall.
  - simpl. rewrite app_nil_r. by destruct st.
  - inversion Hall as [|?? Hv Hrest]; subst.
    rewrite fmap_cons, filter_cons. cbn [range_lines].
    rewrite prepareJP_line_joined by done. cbn [mbind option_bind].
    destruct (decide (strings.TrimSpace v = "")) as [He|He].
    + rewrite decide_False by auto. by apply IH.
    + rewrite decide_True by done. rewrite IH by done.
      cbn [comma_joined foldr jp_token jp_prefixToken jp_result].
      by rewrite !app_assoc.
Qed.

(** X13: while the last key seen is "Postal Address", every line of ASCII bytes
    without a colon is joined to the output with a comma; blank lines change nothing, and the
    key and the prefix stay as they are. *)
Theorem prepareJP_address_continuation (prefixToken result : string)
    (lines : list string) :
  ascii_lines lines →
  Forall (λ v, strings.Contains (strings.TrimSpace v) ":" = false) lines →
  range_lines prepareJP_line (JpState jpAddressToken prefixToken result) lines
  = Some (JpState jpAddressToken prefixToken
            (result +:+
             comma_joined
               (filter (λ v, v ≠ "") (strings.TrimSpace <$> lines)))).
Proof.
  intros _ Hall.
  exact (prepareJP_run_joined (JpState jpAddressToken prefixToken result)
           lines eq_refl Hall).
Qed.

Lemma prepareIT_line_joined (st : itState) (v : string) :
  it_subToken st ≠ "" → strings.TrimSpace v ≠ "" →
  it_continuation (strings.TrimSpace v) = true →
  prepareIT_line st v
  = Some (ItState (it_topToken st) (it_subToken st)
            (it_result st +:+ ", " +:+ strings.TrimSpace v)).
Proof.
  intros Hsub Hv Hcont. unfold prepareIT_line, it_continuation in *.
  rewrite decide_False by done.
  apply andb_prop in Hcont as [Htop Hcont].
  apply negb_true_iff in Htop. rewrite Htop. rewrite byte_at_first.
  destruct (first_byte (strings.TrimSpace v)) as [c|] eqn:Hc;
    [|by apply first_byte_None in Hc].
  cbn [mbind option_bind].
  assert (negb (Ascii.eqb c "*") && strings.Contains (strings.TrimSpace v) ":"
          = false) as ->.
  { apply orb_prop in Hcont as [Hstar|Hno].
    - apply bool_decide_eq_true_1 in Hstar. injection Hstar as ->. done.
    - apply negb_true_iff in Hno. rewrite Hno. apply andb_false_r. }
  by rewrite decide_True.
Qed.

Lemma prepareIT_run_joined (st : itState) (lines : list string) :
  it_subToken st ≠ "" →
  Forall (λ v, v ≠ "" ∧ it_continuation v = true)
    (strings.TrimSpace <$> lines) →
  range_lines prepareIT_line st lines
  = Some (ItState (it_topToken st) (it_subToken st)
            (it_result st +:+ comma_joined (strings.TrimSpace <$> lines))).
Proof.
  revert st. induction lines as [|v rest IH]; intros st Hsub Hall.
  - simpl. rewrite app_nil_r. by destruct st.
  - rewrite fmap_cons in *. inversion Hall as [|?? [Hv Hc] Hrest]; subst.
    cbn [range_lines]. rewrite prepareIT_line_joined by done.
    cbn [mbind option_bind]. rewrite IH by done.
    cbn [comma_joined foldr it_topToken it_subToken it_result].
    by rewrite !app_assoc.
Qed.

(** X14: under a field that has a name, every line of ASCII bytes that is not
    blank, is no section name and has no colon (or begins with an asterisk) is joined to
    the output with a comma. *)
Theorem prepareIT_field_continuation (topToken subToken result : string)
    (lines : list string) :
  ascii_lines lines →
  subToken ≠ "" →
  Forall (λ v, v ≠ "" ∧ it_continuation v = true)
    (strings.TrimSpace <$> lines) →
  range_lines prepareIT_line (ItState topToken subToken result) lines
  = Some (ItState topToken subToken
            (result +:+ comma_joined (strings.TrimSpace <$> lines))).
Proof.
  intros _ Hsub Hall.
  exact (prepareIT_run_joined (ItState topToken subToken result) lines
           Hsub Hall).
Qed.

(** ** The first pass of the JP transformer *)

Lemma find_dotJPReplacer_none (s : string) :
  strings.Contains s (lit "\n[") = false → find dotJPReplacer s = None.
Proof.
  change (lit "\n[") with (String LF (String "[" "")).
  induction s as [|c s IH]; intros Hno; [done|].
  simpl in Hno. apply orb_false_elim in Hno as [Hp Hc].
  cbn [find]. unfold dotJPReplacer at 1.
  change (cat (?r :: ?rs)) with (Cat r (cat rs)).
  change (cat (?r :: ?rs)) with (Cat r (cat rs)).
  cbn [run byte]. rewrite (Ascii.eqb_sym LF c).
  destruct (Ascii.eqb c LF) eqn:Hlf.
  - simpl in Hp. destruct s as [|d s]; [by rewrite IH|].
    rewrite (Ascii.eqb_sym "[" d). rewrite andb_true_r in Hp. rewrite Hp.
    by rewrite IH.
  - by rewrite IH.
Qed.

(** X15: on a text in which no line begins with a bracket, the substitution that
    opens [prepareJP] changes nothing: the transformer is the loop run on the
    lines of the text as they are. *)
Theorem prepareJP_without_brackets (text : string) :
  strings.Contains text (lit "\n[") = false →
  ReplaceAllString dotJPReplacer text (lit "\n$1: $2") = text
  ∧ prepareJP text
    = jp_result <$> range_lines prepareJP_line (JpState "" "" "") (lines_of text).
Proof.
  intros Hno.
  assert (ReplaceAllString dotJPReplacer text (lit "\n$1: $2") = text) as Hid.
  { unfold ReplaceAllString. destruct (String.length text); simpl; [done|].
    by rewrite find_dotJPReplacer_none. }
  split; [exact Hid|]. unfold prepareJP. by rewrite Hid.
Qed.

(** ** Instances *)

Ltac by_computation := apply (bool_decide_unpack _); vm_compute; exact I.

Lemma Prepare_returns_outside_schema_dialects_witness :
  is_Some (Prepare Keys_forward
             (lit "Domain name:\r\n\texample.co.uk\r\nURL: http://example.co.uk\r\n")).
Proof.
  apply (Prepare_returns_outside_schema_dialects Keys_forward
           (lit "Domain name:\r\n\texample.co.uk\r\nURL: http://example.co.uk\r\n"));
    [vm_compute; reflexivity|].
  intros tld Hd. vm_compute in Hd. injection Hd as <-. by_computation.
Defined.

Lemma prepareFR_returns_on_keyed_lines_witness :
  is_Some (prepareFR Keys_backward
             (lit "domain: example.fr\nholder-c: AB1-FRNIC\n\nnic-hdl: AB1-FRNIC\ndsl-id:\n")).
Proof.
  apply (prepareFR_returns_on_keyed_lines Keys_backward
           (lit "domain: example.fr\nholder-c: AB1-FRNIC\n\nnic-hdl: AB1-FRNIC\ndsl-id:\n")).
  by_computation.
Defined.

Lemma prepareEDU_without_sections_witness :
  prepareEDU (lit "Domain Name: EXAMPLE.EDU\n\n  Domain record activated: 01-Jan-2000\n")
  = Some (newline_before
            (trimmed_lines
               (lit "Domain Name: EXAMPLE.EDU\n\n  Domain record activated: 01-Jan-2000\n"))).
Proof.
  apply (prepareEDU_without_sections
           (lit "Domain Name: EXAMPLE.EDU\n\n  Domain record activated: 01-Jan-2000\n"));
    [vm_compute; reflexivity|by_computation].
Defined.

Lemma prepareTW_without_sections_witness :
  prepareTW (lit "Domain Name: example.tw\n   Record expires on 2030-01-01 (YYYY-MM-DD)\n")
  = Some (newline_before
            (date_colon
               <$> trimmed_lines
                     (lit "Domain Name: example.tw\n   Record expires on 2030-01-01 (YYYY-MM-DD)\n"))).
Proof.
  apply (prepareTW_without_sections
           (lit "Domain Name: example.tw\n   Record expires on 2030-01-01 (YYYY-MM-DD)\n"));
    [vm_compute; reflexivity|by_computation].
Defined.

Lemma prepareHK_address_continuation_witness :
  ∃ st1 st2,
    prepareHK_line (HkState "Registrant" false "") "Address: 1 Road" = Some st1
    ∧ hk_addressToken st1 = true
    ∧ range_lines prepareHK_line st1 ["Kowloon"; ""; "  Hong Kong"] = Some st2
    ∧ hk_addressToken st2 = true
    ∧ hk_result st2
      = hk_result st1 +:+
        comma_joined
          (filter (λ v, v ≠ "")
             (strings.TrimSpace <$> ["Kowloon"; ""; "  Hong Kong"])).
Proof.
  apply (prepareHK_address_continuation (HkState "Registrant" false "")
           "Address: 1 Road" ["Kowloon"; ""; "  Hong Kong"]).
  - vm_compute. reflexivity.
  - vm_compute. reflexivity.
  - by_computation.
Defined.

Lemma prepareINT_role_block_witness :
  range_lines prepareINT_line (IntState "" "")
    ["contact: administrative"; "name: Alice"; "Example Street 1"]
  = Some (IntState "administrative"
            ("" +:+ lit "\n" +:+ strings.TrimSpace "contact: administrative" +:+
             int_written_all "administrative"
               (strings.TrimSpace <$> ["name: Alice"; "Example Street 1"])))
  ∧ range_lines prepareINT_line (IntState "" "")
      ("contact: administrative" :: ["name: Alice"; "Example Street 1"] ++ [" "])
    = Some (IntState ""
              ("" +:+ lit "\n" +:+ strings.TrimSpace "contact: administrative" +:+
               int_written_all "administrative"
                 (strings.TrimSpace <$> ["name: Alice"; "Example Street 1"]))).
Proof.
  apply (prepareINT_role_block (IntState "" "") "contact: administrative"
           "administrative" ["name: Alice"; "Example Street 1"] " ").
  - vm_compute. reflexivity.
  - vm_compute. reflexivity.
  - vm_compute. reflexivity.
  - discriminate.
  - by_computation.
  - vm_compute. reflexivity.
Defined.

Lemma prepareEDU_section_witness :
  range_lines prepareEDU_line (EduState "Registrant:" 0 "")
    ["Example University"; "123 Main St"]
  = (if decide (length ["Example University"; "123 Main St"]
                ≤ length ["Organization"; "Address"; "Address"; "Address"])%nat
     then Some (EduState "Registrant:"
                  (Z.of_nat (length ["Example University"; "123 Main St"]))
                  ("" +:+
                   newline_before
                     (edu_labelled "Registrant"
                        ["Organization"; "Address"; "Address"; "Address"]
                        (strings.TrimSpace
                           <$> ["Example University"; "123 Main St"]))))
     else None)
  ∧ range_lines prepareEDU_line (EduState "Registrant:" 0 "")
      ["a"; "b"; "c"; "d"; "e"]
    = (if decide (length ["a"; "b"; "c"; "d"; "e"]
                  ≤ length ["Organization"; "Address"; "Address"; "Address"])%nat
       then Some (EduState "Registrant:"
                    (Z.of_nat (length ["a"; "b"; "c"; "d"; "e"]))
                    ("" +:+
                     newline_before
                       (edu_labelled "Registrant"
                          ["Organization"; "Address"; "Address"; "Address"]
                          (strings.TrimSpace <$> ["a"; "b"; "c"; "d"; "e"]))))
       else None).
Proof.
  split.
  - apply (prepareEDU_section "Registrant:" "Registrant"
             ["Organization"; "Address"; "Address"; "Address"]
             ["Example University"; "123 Main St"] "").
    + vm_compute. reflexivity.
    + vm_compute. reflexivity.
    + vm_compute. reflexivity.
    + by_computation.
  - apply (prepareEDU_section "Registrant:" "Registrant"
             ["Organization"; "Address"; "Address"; "Address"]
             ["a"; "b"; "c"; "d"; "e"] "").
    + vm_compute. reflexivity.
    + vm_compute. reflexivity.
    + vm_compute. reflexivity.
    + by_computation.
Defined.

Lemma prepareJP_address_continuation_witness :
  range_lines prepareJP_line
    (JpState jpAddressToken "admin " (lit "\nadmin Postal Address: Tokyo"))
    ["  Chiyoda-ku"; ""; "1-1"]
  = Some (JpState jpAddressToken "admin "
            (lit "\nadmin Postal Address: Tokyo" +:+
             comma_joined
               (filter (λ v, v ≠ "")
                  (strings.TrimSpace <$> ["  Chiyoda-ku"; ""; "1-1"])))).
Proof.
  apply (prepareJP_address_continuation "admin "
           (lit "\nadmin Postal Address: Tokyo")
           ["  Chiyoda-ku"; ""; "1-1"]).
  - vm_compute. reflexivity.
  - by_computation.
Defined.

Lemma prepareIT_field_continuation_witness :
  range_lines prepareIT_line
    (ItState "Registrant " "  Address" (lit "\nRegistrant   Address: Via Roma 1"))
    ["  Milano"; "  IT"]
  = Some (ItState "Registrant " "  Address"
            (lit "\nRegistrant   Address: Via Roma 1" +:+
             comma_joined (strings.TrimSpace <$> ["  Milano"; "  IT"]))).
Proof.
  apply (prepareIT_field_continuation "Registrant " "  Address"
           (lit "\nRegistrant   Address: Via Roma 1") ["  Milano"; "  IT"]).
  - vm_compute. reflexivity.
  - discriminate.
  - by_computation.
Defined.

Lemma prepareRU_output_lines_witness :
  prepareRU (lit "person: John Smith\n\nno colon here\n  nserver: ns1.example.ru\n")
  = Some (newline_after
            (ru_line <$> ru_kept (lit "person: John Smith\n\nno colon here\n  nserver: ns1.example.ru\n")))
  ∧ ru_line <$> ru_kept (lit "person: John Smith\n\nno colon here\n  nserver: ns1.example.ru\n")
    = ["Registrant Name:  John Smith"; "nserver: ns1.example.ru"].
Proof.
  split; [|vm_compute; reflexivity].
  apply (prepareRU_output_lines
           (lit "person: John Smith\n\nno colon here\n  nserver: ns1.example.ru\n")).
  vm_compute. reflexivity.
Defined.

Lemma prepareUK_output_lines_witness :
  ∃ ls,
    prepareUK (lit "Domain name:\n  example.co.uk\nURL: http://example.co.uk\n")
    = Some (newline_before ls)
    ∧ lines_of (newline_before ls) = "" :: ls
    ∧ Forall2 uk_rewritten
        (trimmed_lines
           (lit "Domain name:\n  example.co.uk\nURL: http://example.co.uk\n"))
        ls.
Proof.
  apply (prepareUK_output_lines
           (lit "Domain name:\n  example.co.uk\nURL: http://example.co.uk\n")).
  vm_compute. reflexivity.
Defined.

Lemma prepareJP_without_brackets_witness :
  ReplaceAllString dotJPReplacer (lit "Domain Information:\na. [Domain Name] EXAMPLE.JP\n")
    (lit "\n$1: $2")
  = lit "Domain Information:\na. [Domain Name] EXAMPLE.JP\n"
  ∧ prepareJP (lit "Domain Information:\na. [Domain Name] EXAMPLE.JP\n")
    = jp_result
        <$> range_lines prepareJP_line (JpState "" "" "")
              (lines_of (lit "Domain Information:\na. [Domain Name] EXAMPLE.JP\n")).
Proof.
  apply (prepareJP_without_brackets
           (lit "Domain Information:\na. [Domain Name] EXAMPLE.JP\n")).
  vm_compute. reflexivity.
Defined.

(** ** The prefix of the FR transformer persists *)

(** X20: the pending prefix of [prepareFR] is cleared by nothing: over any run of
    lines of ASCII bytes that are blank or that are neither registrar nor "nic-hdl" lines,
    the prefix stays what it was, across the blank lines too, and every line
    written carries it. *)
Theorem prepareFR_prefix_persists (Keys : gmap string string → list string)
    (st : frState) (lines : list string) :
  ascii_lines lines →
  forallb fr_quiet lines = true →
  ∃ st',
    range_lines (prepareFR_line Keys) st lines = Some st'
    ∧ fr_token st' = fr_token st
    ∧ fr_result st' = fr_result st +:+ fr_written_all (fr_token st) lines.
Proof. intros _. apply prepareFR_run_quiet. Qed.

Lemma prepareFR_prefix_persists_witness :
  ∃ st',
    range_lines (prepareFR_line Keys_forward)
      (FrState "registrar " false ∅ (lit "\nregistrar name: Example SARL"))
      ["address: Paris"; ""; "e-mail: a@example.fr"; "dsl-id: 7"] = Some st'
    ∧ fr_token st' = "registrar "
    ∧ fr_result st'
      = lit "\nregistrar name: Example SARL\nregistrar address: Paris\nregistrar e-mail: a@example.fr\nregistrar dsl-id: 7\nDNSSEC: signed".
Proof.
  generalize (prepareFR_prefix_persists Keys_forward
                (FrState "registrar " false ∅
                   (lit "\nregistrar name: Example SARL"))
                ["address: Paris"; ""; "e-mail: a@example.fr"; "dsl-id: 7"]).
  intros H. lapply H; [clear H; intros H|vm_compute; reflexivity].
  lapply H; [clear H; intros H|vm_compute; reflexivity].
  destruct H as (st' & Hrun & Htok & Hres). exists st'.
  split; [exact Hrun|]. split; [exact Htok|].
  rewrite Hres. vm_compute. reflexivity.
Defined.
